(** * Bidness: the batch dispatch engine

    A shallow embedding of the dialer service ([app.py],
    [eleven_batch_call.py]) and of the spreadsheet SMS blaster
    ([sms_blast.py]), with the properties the design document states
    about them.

    Conventions.
    - Python [int] is [Z]; Python [float] is a binary64 primitive float.
    - A Python [dict] with string keys is a [gmap string pyval].
    - Text is a [string] whose characters stand for code points below 256;
      case mapping is modelled on ASCII letters only (no other character
      of that range maps to an ASCII letter).
    - Effects (calls of the provider SDK, [time.sleep], the clock, the
      sheet) are recorded in a trace; what the outside world answers is
      given by an oracle over the trace so far.
    - An exception that leaves a function is the [Raise] result. Only
      subclasses of [Exception] are modelled.
    - What a script prints is left out. *)

From Stdlib Require Import ZArith Bool Floats Lia.
From Stdlib Require Ascii String.
Import Ascii (ascii(..)).
Import (notations) Ascii.
From stdpp Require Import base gmap strings list.

Local Open Scope Z_scope.

(** ** Python values and the pieces of the runtime the sources use *)
Module Py.

#[warnings="-register-all"]
Inductive pyval : Type :=
| PNone
| PBool (b : bool)
| PInt (z : Z)
| PFloat (f : float)
| PStr (s : string)
| PList (l : list pyval)
| PDict (d : list (string * pyval)).

Abbreviation dict := (gmap string pyval).

(** [bool(v)] *)
Definition truthy (v : pyval) : bool :=
  match v with
  | PNone => false
  | PBool b => b
  | PInt z => negb (z =? 0)%Z
  | PFloat f => negb (PrimFloat.eqb f 0%float)
  | PStr s => negb (String.eqb s "")
  | PList l => match l with [] => false | _ => true end
  | PDict d => match d with [] => false | _ => true end
  end.

(** [type(v).__name__] *)
Definition type_name (v : pyval) : string :=
  match v with
  | PNone => "NoneType"
  | PBool _ => "bool"
  | PInt _ => "int"
  | PFloat _ => "float"
  | PStr _ => "str"
  | PList _ => "list"
  | PDict _ => "dict"
  end.

(** [d.get(k)] and [d.get(k, dflt)] *)
Definition get (d : dict) (k : string) : pyval := default PNone (d !! k).
Definition get_default (d : dict) (k : string) (dflt : pyval) : pyval :=
  default dflt (d !! k).

(** [a or b] *)
Definition py_or (a b : pyval) : pyval := if truthy a then a else b.

(** An exception object: [type(e).__name__] and [str(e)]. *)
Record exn : Type := Exn { exc_type : string; exc_msg : string }.

Inductive result (A : Type) : Type :=
| Return (a : A)
| Raise (e : exn)
| OutOfFuel.
Arguments Return {A} a.
Arguments Raise {A} e.
Arguments OutOfFuel {A}.

Definition rbind {A B} (r : result A) (k : A -> result B) : result B :=
  match r with
  | Return a => k a
  | Raise e => Raise e
  | OutOfFuel => OutOfFuel
  end.

(** [l[:n]] *)
Definition slice_to {A} (l : list A) (n : Z) : list A :=
  if (0 <=? n)%Z then take (Z.to_nat n) l
  else take (Z.to_nat (Z.of_nat (length l) + n)) l.

(** [l[i:j]] for [0 <= i <= j] *)
Definition slice {A} (l : list A) (i j : nat) : list A :=
  take (j - i) (drop i l).

(** [l[i]] *)
Definition index {A} (l : list A) (i : Z) : result A :=
  let n := Z.of_nat (length l) in
  let j := if (i <? 0)%Z then (n + i)%Z else i in
  match (if (0 <=? j)%Z then l !! Z.to_nat j else None) with
  | Some x => Return x
  | None => Raise (Exn "IndexError" "list index out of range")
  end.

(** *** Characters and strings *)

Definition is_ascii_upper (c : ascii) : bool :=
  let n := Ascii.nat_of_ascii c in (65 <=? n)%nat && (n <=? 90)%nat.
Definition is_ascii_lower (c : ascii) : bool :=
  let n := Ascii.nat_of_ascii c in (97 <=? n)%nat && (n <=? 122)%nat.

Definition lower_char (c : ascii) : ascii :=
  if is_ascii_upper c then Ascii.ascii_of_nat (Ascii.nat_of_ascii c + 32) else c.
Definition upper_char (c : ascii) : ascii :=
  if is_ascii_lower c then Ascii.ascii_of_nat (Ascii.nat_of_ascii c - 32) else c.

Fixpoint map_string (f : ascii -> ascii) (s : string) : string :=
  match s with
  | EmptyString => EmptyString
  | String c s' => String (f c) (map_string f s')
  end.

(** [s.lower()], [s.upper()] *)
Definition lower (s : string) : string := map_string lower_char s.
Definition upper (s : string) : string := map_string upper_char s.

(** [c.isspace()] for a code point below 256: TAB, LF, VT, FF, CR, the
    separators 0x1c to 0x1f, the space, NEL (0x85) and NBSP (0xa0). *)
Definition is_space (c : ascii) : bool :=
  let n := Ascii.nat_of_ascii c in
  ((9 <=? n)%nat && (n <=? 13)%nat) || ((28 <=? n)%nat && (n <=? 32)%nat)
  || (n =? 133)%nat || (n =? 160)%nat.

Fixpoint lstrip (s : string) : string :=
  match s with
  | EmptyString => EmptyString
  | String c s' => if is_space c then lstrip s' else s
  end.

(** [s.rstrip()]: a character is dropped when it is a space and all that
    follows it has been dropped. *)
Fixpoint rstrip (s : string) : string :=
  match s with
  | EmptyString => EmptyString
  | String c s' =>
      match rstrip s' with
      | EmptyString => if is_space c then EmptyString else String c EmptyString
      | t => String c t
      end
  end.

(** [s.strip()] *)
Definition strip (s : string) : string := rstrip (lstrip s).

(** [sep.join(l)] *)
Fixpoint join (sep : string) (l : list string) : string :=
  match l with
  | [] => ""
  | [x] => x
  | x :: rest => x +:+ sep +:+ join sep rest
  end.

(** *** Floats *)

(** [float(z)], as [float * int] performs it: round to nearest even, and
    [OverflowError] when the integer is beyond the finite doubles. *)
Definition float_of_int (z : Z) : result float :=
  let f := SF2Prim (binary_normalize 53 1024 z 0 false) in
  if PrimFloat.is_infinity f
  then Raise (Exn "OverflowError" "int too large to convert to float")
  else Return f.

(** [min(a, b)]: the first argument unless the second is smaller. *)
Definition min (a b : float) : float := if PrimFloat.ltb b a then b else a.

(** What [time.sleep(secs)] answers before it sleeps: [ValueError] for a
    NaN, [OverflowError] when the length in nanoseconds does not fit a
    signed 64-bit integer, [ValueError] for a negative length. *)
Definition sleep_error (secs : float) : option exn :=
  let nanos := PrimFloat.mul secs 1e9%float in
  if PrimFloat.is_nan secs
  then Some (Exn "ValueError" "Invalid value NaN (not a number)")
  else if PrimFloat.leb 9223372036854775808%float nanos
          || PrimFloat.ltb nanos (-9223372036854775808)%float
  then Some (Exn "OverflowError" "timestamp too large to convert to C _PyTime_t")
  else if PrimFloat.ltb secs 0%float
  then Some (Exn "ValueError" "sleep length must be non-negative")
  else None.

End Py.


(** ** Computations with a trace, an oracle and exceptions *)
Module Eff.
Import Py.

Section Monad.
Context {E W : Type}.

(** A computation reads the oracle [W] and the history of events and
    yields a result together with the events it added. *)
Definition M (A : Type) : Type := W -> list E -> result A * list E.

Definition ret {A} (a : A) : M A := fun _ _ => (Return a, []).
Definition raise {A} (e : exn) : M A := fun _ _ => (Raise e, []).
Definition out_of_fuel {A} : M A := fun _ _ => (OutOfFuel, []).
Definition lift {A} (r : result A) : M A := fun _ _ => (r, []).
Definition emit (e : E) : M unit := fun _ _ => (Return tt, [e]).

(** Ask the oracle, and record the question with its answer. *)
Definition ask {A} (answer : W -> list E -> A) (record : A -> E) : M A :=
  fun w h => let a := answer w h in (Return a, [record a]).

Definition bind {A B} (m : M A) (k : A -> M B) : M B :=
  fun w h =>
    match m w h with
    | (Return a, t1) => let '(r, t2) := k a w (h ++ t1) in (r, t1 ++ t2)
    | (Raise e, t1) => (Raise e, t1)
    | (OutOfFuel, t1) => (OutOfFuel, t1)
    end.
End Monad.

Arguments M : clear implicits.

End Eff.

Notation "'let*' x ':=' m 'in' k" := (Eff.bind m (fun x => k))
  (at level 10, x pattern, m at level 100, k at level 200).

(** ** The dialer service: [app.py] and [eleven_batch_call.py] *)
Module Dialer.
Import Py Eff.

(** The two files hold the same service; the later one adds the [debug]
    option and a more tolerant reading of the SDK response. *)
Inductive source : Type := AppPy | ElevenBatchCall.

Inductive provider_kind : Type := Twilio | Sip.

(** What the dialer reads off a response of the SDK: the conversation id,
    the call id ([callSid] or [sip_call_id]) and, for [debug], the whole
    response as a mapping. How a file digs them out of the response object
    ([getattr] in [app.py], [_pick] over [_to_dict] in
    [eleven_batch_call.py]) is part of the answer of the oracle. *)
Record sdk_reply : Type := SdkReply {
  reply_conversation_id : pyval;
  reply_call_id : pyval;
  reply_raw : pyval
}.

Inductive sdk_outcome : Type :=
| SdkReturns (r : sdk_reply)
| SdkRaises (e : exn).

(** The two places that call [time.sleep]. *)
Inductive sleep_site : Type := Backoff | Pacing.

Inductive event : Type :=
| EDialOnce (payload : dict)
    (** [dial_once(payload)] is entered *)
| EOutboundCall (via : provider_kind)
    (agent_id agent_phone_number_id to_number : pyval) (answer : sdk_outcome)
    (** [client.conversational_ai.<via>.outbound_call(...)] and its outcome *)
| ESleep (site : sleep_site) (secs : float)
    (** [time.sleep(secs)] is called *).

Abbreviation trace := (list event).

(** The provider: its answer to a call, given all that happened before. *)
Definition sdk : Type :=
  trace -> provider_kind -> pyval -> pyval -> pyval -> sdk_outcome.

Abbreviation M := (Eff.M event sdk).

(** [time.sleep(secs)] *)
Definition time_sleep (site : sleep_site) (secs : float) : M unit :=
  let* _ := emit (ESleep site secs) in
  match sleep_error secs with
  | Some e => raise e
  | None => ret tt
  end.

(** [client.conversational_ai.<via>.outbound_call(...)] *)
Definition outbound_call (via : provider_kind)
    (agent_id agent_phone_number_id to_number : pyval) : M sdk_outcome :=
  ask (fun w h => w h via agent_id agent_phone_number_id to_number)
      (EOutboundCall via agent_id agent_phone_number_id to_number).

(** [v.lower()]: only a [str] has the method. *)
Definition call_lower (v : pyval) : M string :=
  match v with
  | PStr s => ret (lower s)
  | _ => raise (Exn "AttributeError"
           ("'" +:+ type_name v +:+ "' object has no attribute 'lower'"))
  end.

Definition required_fields : list string :=
  ["to_number"; "agent_id"; "agent_phone_number_id"].

Definition failure (msg : string) : dict :=
  <["ok" := PBool false]> (<["error" := PStr msg]> ∅).

Definition id_key (via : provider_kind) : string :=
  match via with Twilio => "callSid" | Sip => "sip_call_id" end.
Definition provider_name (via : provider_kind) : string :=
  match via with Twilio => "twilio" | Sip => "sip" end.

Definition success (via : provider_kind) (debug : bool) (r : sdk_reply) : dict :=
  let out :=
    <["ok" := PBool true]> (<["provider" := PStr (provider_name via)]>
    (<["conversation_id" := reply_conversation_id r]>
    (<[id_key via := reply_call_id r]> ∅))) in
  if debug then <["raw" := reply_raw r]> out else out.

(** The [try] block of [dial_once] for one provider. *)
Definition try_call (via : provider_kind) (debug : bool)
    (agent_id agent_phone_number_id to_number : pyval) : M dict :=
  let* answer := outbound_call via agent_id agent_phone_number_id to_number in
  match answer with
  | SdkReturns r => ret (success via debug r)
  | SdkRaises e => ret (failure (exc_type e +:+ ": " +:+ exc_msg e))
  end.

Definition dial_once (src : source) (payload : dict) : M dict :=
  let* _ := emit (EDialOnce payload) in
  let* provider := call_lower (py_or (get payload "provider") (PStr "twilio")) in
  let to_number := get payload "to_number" in
  let agent_id := get payload "agent_id" in
  let agent_phone_number_id := get payload "agent_phone_number_id" in
  let debug :=
    match src with
    | AppPy => false
    | ElevenBatchCall => truthy (get_default payload "debug" (PBool false))
    end in
  let missing :=
    List.filter (fun k => negb (truthy (get payload k))) required_fields in
  match missing with
  | _ :: _ => ret (failure ("Missing fields: " +:+ join ", " missing))
  | [] =>
      if String.eqb provider "sip"
      then try_call Sip debug agent_id agent_phone_number_id to_number
      else try_call Twilio debug agent_id agent_phone_number_id to_number
  end.

(** [last or {"ok": False, "error": "Unknown error"}]: an empty dict is
    falsy as [None] is. *)
Definition last_or_unknown (last : option dict) : dict :=
  match last with
  | Some d => if decide (d = ∅) then failure "Unknown error" else d
  | None => failure "Unknown error"
  end.

(** The [while attempts <= retries] loop of [dial_with_retries] and the
    lines after it; [fuel] bounds the iterations. *)
Fixpoint retry_loop (fuel : nat) (src : source) (item : dict) (retries : Z)
    (backoff_seconds : float) (attempts : Z) (last : option dict) : M dict :=
  if (attempts <=? retries)%Z then
    match fuel with
    | O => out_of_fuel
    | S fuel' =>
        let attempts := attempts + 1 in
        let* result := dial_once src item in
        if truthy (get result "ok")
        then ret (<["attempts" := PInt attempts]> result)
        else
          let last := Some result in
          let* n := lift (float_of_int attempts) in
          let* _ := time_sleep Backoff
                      (min (PrimFloat.mul backoff_seconds n) 6%float) in
          retry_loop fuel' src item retries backoff_seconds attempts last
    end
  else
    ret (<["attempts" := PInt attempts]> (last_or_unknown last)).

Definition dial_with_retries (src : source) (item : dict) (retries : Z)
    (backoff_seconds : float) : M dict :=
  retry_loop (Z.to_nat (retries + 1)) src item retries backoff_seconds 0 None.

(** The body of a JSON response of [/batch]. *)
Inductive batch_body : Type :=
| BatchError (error : string)
    (** [{"ok": False, "error": error}] *)
| BatchSummary (total successes : Z) (results : list dict)
    (** [{"ok": True, "total": .., "successes": .., "results": ..}] *).

(** The [for i, item in enumerate(items, start=1)] loop. *)
Fixpoint batch_loop (src : source) (len_items : Z) (delay_seconds : float)
    (retries : Z) (backoff : float) (i : Z) (rest : list dict)
    (results : list dict) : M (list dict) :=
  match rest with
  | [] => ret results
  | item :: rest' =>
      let* res := dial_with_retries src item retries backoff in
      let res := <["index" := PInt i]> res in
      let results := results ++ [res] in
      let* _ := (if PrimFloat.ltb 0%float delay_seconds && (i <? len_items)%Z
                 then time_sleep Pacing delay_seconds else ret tt) in
      batch_loop src len_items delay_seconds retries backoff (i + 1) rest' results
  end.

(** [api_call_batch], once the request is read: [items] is
    [payload.get("items") or []], the three numbers are the converted
    [delay_seconds], [retries] and [backoff_seconds]. The answer is the
    body and the status code. *)
Definition api_call_batch (src : source) (items : list dict)
    (delay_seconds : float) (retries : Z) (backoff : float)
    : M (batch_body * Z) :=
  match items with
  | [] => ret (BatchError "Provide JSON { items: [...] }", 400)
  | _ :: _ =>
      let* results :=
        batch_loop src (Z.of_nat (length items)) delay_seconds retries backoff
          1 items [] in
      let ok_count :=
        Z.of_nat (length (List.filter (fun r => truthy (get r "ok")) results)) in
      ret (BatchSummary (Z.of_nat (length items)) ok_count results, 200)
  end.

(** *** Reading a trace *)

Definition is_dial (e : event) : bool :=
  match e with EDialOnce _ => true | _ => false end.

(** The number of calls of [dial_once] in a trace. *)
Definition dial_count (t : trace) : nat := length (List.filter is_dial t).

Definition is_network (e : event) : bool :=
  match e with EOutboundCall _ _ _ _ _ => true | _ => false end.

(** A call of the provider that came back without an exception. *)
Definition is_success (e : event) : bool :=
  match e with EOutboundCall _ _ _ _ (SdkReturns _) => true | _ => false end.

Definition is_sleep (e : event) : bool :=
  match e with ESleep _ _ => true | _ => false end.

Definition is_pacing (e : event) : bool :=
  match e with ESleep Pacing _ => true | _ => false end.

(** The traces of several items in a row, [sep] between two of them. *)
Fixpoint paced (sep : trace) (ts : list trace) : trace :=
  match ts with
  | [] => []
  | [t] => t
  | t :: rest => t ++ sep ++ paced sep rest
  end.

(** No event follows a successful call of the provider. *)
Fixpoint stops_at_success (t : trace) : bool :=
  match t with
  | [] => true
  | e :: rest =>
      if is_success e then match rest with [] => true | _ => false end
      else stops_at_success rest
  end.

(** No call of the provider in the trace came back without an exception. *)
Definition all_failed (t : trace) : bool :=
  forallb (fun e => negb (is_success e)) t.

(** The lengths of the sleeps of a trace, in order. *)
Fixpoint sleeps (t : trace) : list float :=
  match t with
  | [] => []
  | ESleep _ secs :: rest => secs :: sleeps rest
  | _ :: rest => sleeps rest
  end.

(** What [api_call_batch] puts between two items. *)
Definition pacing (delay_seconds : float) : trace :=
  if PrimFloat.ltb 0%float delay_seconds
  then [ESleep Pacing delay_seconds] else [].

Definition no_pacing (t : trace) : bool :=
  forallb (fun e => negb (is_pacing e)) t.

(** [sum(1 for r in results if r.get("ok"))] *)
Definition ok_count (results : list dict) : Z :=
  Z.of_nat (length (List.filter (fun r => truthy (get r "ok")) results)).

(** The [provider] entry is absent, falsy or a [str]: [.lower()] applies. *)
Definition provider_is_text (payload : dict) : bool :=
  match py_or (get payload "provider") (PStr "twilio") with
  | PStr _ => true
  | _ => false
  end.

(** *** The cases of one attempt *)

Definition missing_fields (payload : dict) : list string :=
  List.filter (fun k => negb (truthy (get payload k))) required_fields.

Definition chosen_provider (s : string) : provider_kind :=
  if String.eqb (lower s) "sip" then Sip else Twilio.

Definition debug_flag (src : source) (payload : dict) : bool :=
  match src with
  | AppPy => false
  | ElevenBatchCall => truthy (get_default payload "debug" (PBool false))
  end.

Definition outcome_dict (via : provider_kind) (debug : bool)
    (answer : sdk_outcome) : dict :=
  match answer with
  | SdkReturns r => success via debug r
  | SdkRaises e => failure (exc_type e +:+ ": " +:+ exc_msg e)
  end.

(** The delay asked for after failed attempt number [k]. *)
Definition backoff_delay (backoff_seconds : float) (k : Z) : result float :=
  rbind (float_of_int k)
    (fun n => Return (min (PrimFloat.mul backoff_seconds n) 6%float)).

(** [time.sleep] accepts the delay after each of the attempts 1 to
    [retries + 1]. *)
Definition backoff_accepted (backoff_seconds : float) (retries : Z) : Prop :=
  forall k, 1 <= k <= retries + 1 ->
    exists d, backoff_delay backoff_seconds k = Return d /\ sleep_error d = None.

(** The shapes a call of [dial_once] can take: what it answers and the
    events that follow its entry. *)
Inductive attempt_shape : result dict -> trace -> Prop :=
| shape_raise e :
    attempt_shape (Raise e) []
| shape_invalid d :
    truthy (get d "ok") = false -> d <> ∅ ->
    attempt_shape (Return d) []
| shape_error d via a b c e :
    truthy (get d "ok") = false -> d <> ∅ ->
    attempt_shape (Return d) [EOutboundCall via a b c (SdkRaises e)]
| shape_success d via a b c r :
    truthy (get d "ok") = true ->
    attempt_shape (Return d) [EOutboundCall via a b c (SdkReturns r)].

(** The runs of the loop of [dial_with_retries] from [attempts] attempts
    made, [last] the last failure and [h] the history: the result and the
    events added. *)
Inductive retry_run (src : source) (item : dict) (retries : Z)
    (backoff_seconds : float) (w : sdk)
    : Z -> option dict -> trace -> result dict -> trace -> Prop :=
| run_exit attempts last h :
    retries < attempts ->
    retry_run src item retries backoff_seconds w attempts last h
      (Return (<["attempts" := PInt attempts]> (last_or_unknown last))) []
| run_raise attempts last h e t :
    attempts <= retries ->
    dial_once src item w h = (Raise e, t) ->
    retry_run src item retries backoff_seconds w attempts last h (Raise e) t
| run_success attempts last h d t :
    attempts <= retries ->
    dial_once src item w h = (Return d, t) ->
    truthy (get d "ok") = true ->
    retry_run src item retries backoff_seconds w attempts last h
      (Return (<["attempts" := PInt (attempts + 1)]> d)) t
| run_overflow attempts last h d t e :
    attempts <= retries ->
    dial_once src item w h = (Return d, t) ->
    truthy (get d "ok") = false ->
    backoff_delay backoff_seconds (attempts + 1) = Raise e ->
    retry_run src item retries backoff_seconds w attempts last h (Raise e) t
| run_refused attempts last h d t secs e :
    attempts <= retries ->
    dial_once src item w h = (Return d, t) ->
    truthy (get d "ok") = false ->
    backoff_delay backoff_seconds (attempts + 1) = Return secs ->
    sleep_error secs = Some e ->
    retry_run src item retries backoff_seconds w attempts last h
      (Raise e) (t ++ [ESleep Backoff secs])
| run_retry attempts last h d t secs r t' :
    attempts <= retries ->
    dial_once src item w h = (Return d, t) ->
    truthy (get d "ok") = false ->
    backoff_delay backoff_seconds (attempts + 1) = Return secs ->
    sleep_error secs = None ->
    retry_run src item retries backoff_seconds w (attempts + 1) (Some d)
      (h ++ t ++ [ESleep Backoff secs]) r t' ->
    retry_run src item retries backoff_seconds w attempts last h
      r (t ++ ESleep Backoff secs :: t').

End Dialer.

(** ** The spreadsheet SMS blaster: [sms_blast.py] *)
Module SmsBlast.
Import Py Eff.

Abbreviation row := (list string).

(** [row[idx] if idx is not None and idx < len(row) else ""] *)
Definition cell_or_empty (r : row) (idx : option Z) : result string :=
  match idx with
  | Some i => if (i <? Z.of_nat (length r))%Z then index r i else Return ""
  | None => Return ""
  end.

(** [any((cell or "").strip() for cell in row)]: a cell is a [str], so
    [cell or ""] is the cell. *)
Definition any_text (r : row) : bool :=
  existsb (fun cell => negb (String.eqb (strip cell) "")) r.

(** The loop of [rows_to_send] over [enumerate(values[1:], start=2)]. *)
Fixpoint rows_loop (idx_status : option Z) (i : Z) (rows : list row)
    (targets : list (Z * row)) : result (list (Z * row)) :=
  match rows with
  | [] => Return targets
  | r :: rest =>
      rbind (cell_or_empty r idx_status) (fun cell =>
        let status := upper (strip cell) in
        if String.eqb status "SENT"
        then rows_loop idx_status (i + 1) rest targets
        else if negb (any_text r)
        then rows_loop idx_status (i + 1) rest targets
        else rows_loop idx_status (i + 1) rest (targets ++ [(i, r)]))
  end.

Definition rows_to_send (values : list row) (idx_status : option Z)
    : result (list (Z * row)) :=
  rows_loop idx_status 2 (drop 1 values) [].

(** [safe_get(row, idx)] *)
Definition safe_get (r : row) (idx : option Z) : result string :=
  rbind (cell_or_empty r idx) (fun cell => Return (strip cell)).

(** One element of [updates]: the range, as the two corners that
    [gspread.utils.rowcol_to_a1] renders, and the row of four values. *)
Record update : Type := Update {
  range_from : Z * Z;
  range_to : Z * Z;
  values : list string
}.

Inductive sms_outcome : Type :=
| SmsCreated (sid : string)
    (** [client.messages.create] returns a message with this [sid] *)
| SmsTwilioException (msg : string)
    (** it raises a [TwilioException] whose [str] is [msg] *)
| SmsOtherException (e : exn)
    (** it raises something else *).

Inductive event : Type :=
| ENow (stamp : string)
    (** [now_iso()] and what it returned *)
| ECreateMessage (to from_ body : string) (answer : sms_outcome)
| ESleep (secs : float)
| EBatchUpdate (group : list update) (answer : option exn)
    (** [ws.batch_update(group)] and the exception it raised, if any *).

Abbreviation trace := (list event).

(** The outside world: the clock, Twilio and the sheet. *)
Record world : Type := World {
  clock : trace -> string;
  twilio : trace -> string -> string -> string -> sms_outcome;
  sheet : trace -> list update -> option exn
}.

Abbreviation M := (Eff.M event world).

Definition now_iso : M string := ask (fun w h => clock w h) ENow.

Definition messages_create (to from_ body : string) : M sms_outcome :=
  ask (fun w h => twilio w h to from_ body) (ECreateMessage to from_ body).

Definition time_sleep (secs : float) : M unit :=
  let* _ := emit (ESleep secs) in
  match sleep_error secs with
  | Some e => raise e
  | None => ret tt
  end.

Definition batch_update (group : list update) : M unit :=
  let* answer := ask (fun w h => sheet w h group) (EBatchUpdate group) in
  match answer with
  | Some e => raise e
  | None => ret tt
  end.

(** The settings read from the environment and the columns found in the
    header. *)
Record config : Type := Config {
  DAILY_LIMIT : Z;
  DRY_RUN : bool;
  TWILIO_FROM : string;
  idx_number : option Z;
  idx_message : option Z;
  col_status : Z;
  col_error : Z
}.

Definition newline : string := String.String (Ascii.ascii_of_nat 10) "".

(** The text appended to every message. *)
Definition pitch : string :=
  newline +:+ newline +:+
  "I recently just finished an AI phone agent that turns incoming calls into booked appointments automatically."
  +:+ newline +:+ newline +:+
  "I'm looking to set up a few businesses for essentially free while I set up testimonials."
  +:+ newline +:+ newline +:+
  "Would you be open to hearing more? I can also send you a demo call with a phone agent.".

Definition mark (c : config) (row_number : Z) (vals : list string) : update :=
  Update (row_number, col_status c) (row_number, col_error c) vals.

(** [0.2], the nearest double *)
Definition pacing_secs : float := 0x1.999999999999ap-3%float.

(** [2 ** attempt] seconds *)
Definition backoff_secs (attempt : nat) : float :=
  match attempt with
  | O => 1%float
  | 1%nat => 2%float
  | _ => 4%float
  end.

(** The [for attempt in range(3)] loop: [attempt] counts up, [left] is the
    number of rounds still to run; the result is [(sid, error)]. *)
Fixpoint send_attempts (c : config) (number full_message : string)
    (left attempt : nat) (error : string) : M (string * string) :=
  match left with
  | O => ret ("", error)
  | S left' =>
      let* answer := messages_create number (TWILIO_FROM c) full_message in
      match answer with
      | SmsCreated sid => ret (sid, error)
      | SmsTwilioException msg =>
          let* _ := time_sleep (backoff_secs attempt) in
          send_attempts c number full_message left' (S attempt) msg
      | SmsOtherException e => raise e
      end
  end.

(** The body of [for row_number, row in to_send]: the update it appends. *)
Definition send_row (c : config) (row_number : Z) (r : row) : M update :=
  let* number := lift (safe_get r (idx_number c)) in
  let* message := lift (safe_get r (idx_message c)) in
  if String.eqb number "" || String.eqb message ""
  then
    let* stamp := now_iso in
    ret (mark c row_number ["FAILED"; stamp; ""; "Missing Number or Message"])
  else if DRY_RUN c
  then
    let* stamp := now_iso in
    ret (mark c row_number ["SENT"; stamp; "DRYRUN"; ""])
  else
    let full_message := message +:+ pitch in
    let* (sid, error) := send_attempts c number full_message 3 0 "" in
    let* upd :=
      (if negb (String.eqb sid "")
       then let* stamp := now_iso in
            ret (mark c row_number ["SENT"; stamp; sid; ""])
       else let* stamp := now_iso in
            ret (mark c row_number
                   ["FAILED"; stamp; ""; String.substring 0 500 error])) in
    let* _ := time_sleep pacing_secs in
    ret upd.

Fixpoint send_rows (c : config) (to_send : list (Z * row))
    (updates : list update) : M (list update) :=
  match to_send with
  | [] => ret updates
  | (row_number, r) :: rest =>
      let* upd := send_row c row_number r in
      send_rows c rest (updates ++ [upd])
  end.

(** [range(0, stop, step)] for a positive [step], as the list of its
    values; [fuel] bounds their number. *)
Fixpoint py_range (fuel : nat) (i stop step : nat) : list nat :=
  match fuel with
  | O => []
  | S fuel' =>
      if (i <? stop)%nat then i :: py_range fuel' (i + step) stop step else []
  end.

(** [chunk(lst, n)], as the list of the groups it yields. [range] refuses
    a zero step and is empty for a negative one. *)
Definition chunk {A} (lst : list A) (n : Z) : result (list (list A)) :=
  match n with
  | Z0 => Raise (Exn "ValueError" "range() arg 3 must not be zero")
  | Zneg _ => Return []
  | Zpos p =>
      let step := Pos.to_nat p in
      Return (List.map (fun i => slice lst i (i + step))
                (py_range (length lst) 0 (length lst) step))
  end.

(** [for group in ...: ws.batch_update(group)] *)
Fixpoint flush_groups (groups : list (list update)) : M unit :=
  match groups with
  | [] => ret tt
  | group :: rest =>
      let* _ := batch_update group in
      flush_groups rest
  end.

Definition flush (updates : list update) : M unit :=
  let* groups := lift (chunk updates 100) in
  flush_groups groups.

(** [main] from the second read of the sheet on: select, cap, send,
    flush. The result is the exit status. *)
Definition main_from_values (c : config) (all_values : list row)
    (idx_status : option Z) : M Z :=
  let* targets := lift (rows_to_send all_values idx_status) in
  match targets with
  | [] => ret 0
  | _ :: _ =>
      let to_send := slice_to targets (DAILY_LIMIT c) in
      let* updates := send_rows c to_send [] in
      let* _ := flush updates in
      ret 0
  end.

(** *** Reading a sheet and a trace *)

(** The cell of a row in the column at position [k], empty when the row
    is too short or there is no such column. *)
Definition status_cell (r : row) (k : option nat) : string :=
  match k with
  | Some k => default "" (r !! k)
  | None => ""
  end.

(** The text holds nothing but white space. *)
Fixpoint all_space (s : string) : bool :=
  match s with
  | String.EmptyString => true
  | String.String c s' => is_space c && all_space s'
  end.

(** A row is entirely blank: each of its cells is empty or white space. *)
Definition blank_row (r : row) : bool := forallb all_space r.

(** Two texts are equal up to the case of their letters. *)
Definition same_ignoring_case (a b : string) : Prop := lower a = lower b.

(** The rows with their numbers in the sheet, from number [i] on. *)
Fixpoint numbered (i : Z) (rows : list row) : list (Z * row) :=
  match rows with
  | [] => []
  | r :: rest => (i, r) :: numbered (i + 1) rest
  end.

(** The selection rule of [rows_to_send] for the status column at
    position [k]. *)
Definition pending (k : option nat) (r : row) : bool :=
  negb (String.eqb (upper (strip (status_cell r k))) "SENT")
  && negb (blank_row r).

(** The row of the sheet an update writes to. *)
Definition update_row (u : update) : Z := (range_from u).1.

(** The updates handed to [ws.batch_update], in order. *)
Fixpoint flushed (t : trace) : list update :=
  match t with
  | [] => []
  | EBatchUpdate group _ :: rest => group ++ flushed rest
  | _ :: rest => flushed rest
  end.

(** The groups handed to [ws.batch_update], in order. *)
Fixpoint flushed_groups (t : trace) : list (list update) :=
  match t with
  | [] => []
  | EBatchUpdate group _ :: rest => group :: flushed_groups rest
  | _ :: rest => flushed_groups rest
  end.


(** The event of a flush that the sheet accepted. *)
Definition accepted_flush (e : event) : Prop :=
  exists group, e = EBatchUpdate group None.

End SmsBlast.

(** ** Sample requests and providers *)
Module Samples.
Import Py Eff Dialer.

Definition item_ok : dict :=
  <["to_number" := PStr "+15551234567"]>
    (<["agent_id" := PStr "agent_1"]>
    (<["agent_phone_number_id" := PStr "phone_1"]> ∅)).

(** [to_number] is empty. *)
Definition item_no_number : dict := <["to_number" := PStr ""]> item_ok.


(** A complete item whose [provider] is the number 5. *)
Definition item_ok_provider_5 : dict := <["provider" := PInt 5]> item_ok.

(** [[item_ok, item_no_number]], the batch of the design document. *)
Definition batch_of_two : list dict := [item_ok; item_no_number].

(** Three complete items. *)
Definition batch_of_three : list dict := [item_ok; item_ok; item_ok].

(** A provider that answers every call. *)
Definition answers : sdk :=
  fun _ _ _ _ _ => SdkReturns (SdkReply (PStr "conv_1") (PStr "CA1") PNone).

(** A provider that rejects every call. *)
Definition rejects : Dialer.sdk :=
  fun _ _ _ _ _ => SdkRaises (Exn "ApiError" "status_code: 422").

(** The call that [rejects] refuses for [item_ok]. *)
Definition rejected_call : event :=
  EOutboundCall Twilio (PStr "agent_1") (PStr "phone_1") (PStr "+15551234567")
    (SdkRaises (Exn "ApiError" "status_code: 422")).

(** A provider that rejects the first two calls and answers the third. *)
Definition rejects_twice : sdk :=
  fun h _ _ _ _ =>
    if (length (List.filter is_network h) <? 2)%nat
    then SdkRaises (Exn "ApiError" "status_code: 429")
    else SdkReturns (SdkReply (PStr "conv_1") (PStr "CA1") PNone).

End Samples.

(** ** Sample sheets and worlds *)
Module SmsSamples.
Import Py Eff SmsBlast.

Definition header : row :=
  ["Number"; "Message"; "Status"; "Sent_At"; "SID"; "Error"].

Definition row_sent : row :=
  ["+15550001"; "hello"; "SENT"; "2024-05-01T10:00:00"; "SM1"; ""].
Definition row_failed : row :=
  ["+15550002"; "hello"; "FAILED"; "2024-05-01T10:00:01"; ""; "timeout"].
Definition row_blank : row := [""; " "; ""; ""; ""; ""].
Definition row_new : row := ["+15550003"; "hello"].
Definition row_sent_padded : row :=
  ["+15550004"; "hello"; " sent "; "2024-05-01T10:00:02"; "SM2"; ""].

(** Rows 2 to 6 of a sheet after a first run. *)
Definition sheet_after_run : list row :=
  [header; row_sent; row_failed; row_blank; row_new; row_sent_padded].

(** Five rows to send. *)
Definition sheet_of_five : list row :=
  [header;
   ["+15550001"; "one"]; ["+15550002"; "two"]; ["+15550003"; "three"];
   ["+15550004"; "four"]; ["+15550005"; "five"]].

Definition config_cap (cap : Z) : config :=
  Config cap false "+18005550100" (Some 0) (Some 1) 3 6.

(** Twilio accepts every message and the sheet every update. *)
Definition calm : world :=
  World (fun _ => "2024-05-02T09:00:00")
        (fun _ _ _ _ => SmsCreated "SM100")
        (fun _ _ => None).





(** 150 updates, for the rows 2 to 151. *)
Definition updates_150 : list update :=
  List.map (fun i => Update (i, 3) (i, 6) ["SENT"; "2024-05-02T09:00:00"; "SM100"; ""])
    (seqZ 2 150).

End SmsSamples.

(** ** More of the dialer service: the single call and [_pick] *)
Module Service.
Import Py Eff Dialer.

(** [api_call_single], once the request is read: [data] is the JSON body
    (it is the item as well), the two numbers are the converted [retries]
    and [backoff_seconds]. The answer is the body and the status code. *)
Definition api_call_single (src : source) (data : dict) (retries : Z)
    (backoff : float) : M (dict * Z) :=
  let* result := dial_with_retries src data retries backoff in
  ret (result, if truthy (get result "ok") then 200 else 400).

(** The number of calls of the provider that came back without an
    exception. *)
Definition success_count (t : trace) : nat :=
  length (List.filter is_success t).

(** The number of calls of the provider. *)
Definition network_count (t : trace) : nat :=
  length (List.filter is_network t).

(** The last failure kept by the loop, if any, is a failure. *)
Definition last_failed (last : option dict) : Prop :=
  match last with
  | Some d => truthy (get d "ok") = false
  | None => True
  end.

End Service.

(** ** [_pick] of [eleven_batch_call.py] *)
Module Pick.
Import Py.

(** [s.replace(old, new)] for a non-empty [old]: the matches are taken from
    the left and do not overlap; [skip] counts the characters of a match
    still to pass over. *)
Fixpoint replace_from (skip : nat) (old new s : string) : string :=
  match s with
  | String.EmptyString => String.EmptyString
  | String.String c s' =>
      match skip with
      | S k => replace_from k old new s'
      | O =>
          if String.prefix old s
          then new +:+ replace_from (String.length old - 1) old new s'
          else String.String c (replace_from 0 old new s')
      end
  end.

Definition replace (old new s : string) : string := replace_from 0 old new s.

(** [s.split(sep)] for a separator of one character *)
Fixpoint split (sep : ascii) (s : string) : list string :=
  match s with
  | String.EmptyString => [String.EmptyString]
  | String.String c s' =>
      if Ascii.eqb c sep then String.EmptyString :: split sep s'
      else match split sep s' with
           | w :: ws => String.String c w :: ws
           | [] => [String.String c String.EmptyString]
           end
  end.

(** [s.capitalize()] *)
Definition capitalize (s : string) : string :=
  match s with
  | String.EmptyString => String.EmptyString
  | String.String c s' => String.String (upper_char c) (lower s')
  end.

(** [k.replace("Id", "_id").replace("SID", "sid").replace("Sid", "sid")] *)
Definition snake (k : string) : string :=
  replace "Sid" "sid" (replace "SID" "sid" (replace "Id" "_id" k)).

(** ["".join([w.capitalize() if i else w
              for i, w in enumerate(k.split("_"))])] *)
Definition camel (k : string) : string :=
  match split "_"%char k with
  | [] => ""
  | w :: ws => w +:+ join "" (List.map capitalize ws)
  end.

(** [k in d and d[k] is not None], with the value *)
Definition present (d : dict) (k : string) : option pyval :=
  match d !! k with
  | Some PNone => None
  | Some v => Some v
  | None => None
  end.

(** The set [{snake, camel}] in the order it is iterated: one element
    when the two are equal; otherwise the order is that of the hashes,
    given here by [snake_first]. *)
Definition alternatives (snake_first : string -> string -> bool)
    (k : string) : list string :=
  if String.eqb (snake k) (camel k) then [snake k]
  else if snake_first (snake k) (camel k) then [snake k; camel k]
  else [camel k; snake k].

Fixpoint first_present (d : dict) (ks : list string) : option pyval :=
  match ks with
  | [] => None
  | k :: rest =>
      match present d k with
      | Some v => Some v
      | None => first_present d rest
      end
  end.

Fixpoint _pick (snake_first : string -> string -> bool) (d : dict)
    (keys : list string) (default : pyval) : pyval :=
  match keys with
  | [] => default
  | k :: rest =>
      match first_present d (k :: alternatives snake_first k) with
      | Some v => v
      | None => _pick snake_first d rest default
      end
  end.

(** The keys [dial_once] of [eleven_batch_call.py] hands to [_pick]. *)
Definition conversation_keys : list string :=
  ["conversation_id"; "conversationId"; "conversation"].
Definition sip_call_keys : list string :=
  ["sip_call_id"; "sipCallId"; "call_id"; "sid"].
Definition call_sid_keys : list string :=
  ["callSid"; "call_sid"; "sid"; "twilio_call_sid"].

End Pick.

(** ** More of the SMS blaster: the header, [mask] and the trace *)
Module Sheet.
Import Py Eff SmsBlast.

(** [{h.strip().lower(): idx for idx, h in enumerate(header_row)}]: a
    later header of the same name takes the place of an earlier one. *)
Fixpoint header_map_from (i : Z) (header_row : list string)
    (m : gmap string Z) : gmap string Z :=
  match header_row with
  | [] => m
  | h :: rest => header_map_from (i + 1) rest (<[lower (strip h) := i]> m)
  end.

Definition header_map (header_row : list string) : gmap string Z :=
  header_map_from 0 header_row ∅.

(** [idx_for(name)] *)
Definition idx_for (m : gmap string Z) (name : string) : option Z :=
  m !! lower name.

(** The tuple [find_header_indexes] returns. *)
Record indexes : Type := Indexes {
  at_number : Z;
  at_message : Z;
  at_status : option Z;
  at_sent_at : option Z;
  at_sid : option Z;
  at_error : option Z
}.

Definition find_header_indexes (header_row : list string) : result indexes :=
  let m := header_map header_row in
  match idx_for m "number", idx_for m "message" with
  | Some n, Some msg =>
      Return (Indexes n msg (idx_for m "status") (idx_for m "sent_at")
                (idx_for m "sid") (idx_for m "error"))
  | _, _ =>
      Raise (Exn "RuntimeError"
               "Headers must include at least 'Number' and 'Message'.")
  end.

(** [ensure_col(name)] of [main], on the pair of [header] and
    [needs_update] *)
Definition ensure_col (name : string) (st : list string * bool)
    : list string * bool :=
  if bool_decide (name ∈ st.1) then st else (st.1 ++ [name], true).

(** The four calls of [ensure_col] in [main]. *)
Definition ensure_tracking_columns (header : list string)
    : list string * bool :=
  ensure_col "Error"
    (ensure_col "SID" (ensure_col "Sent_At" (ensure_col "Status" (header, false)))).

(** The characters of a text, and back. *)
Definition chars (s : string) : list ascii := String.list_ascii_of_string s.
Definition text (l : list ascii) : string := String.string_of_list_ascii l.

(** [mask(e164)] *)
Definition mask (e164 : string) : string :=
  if String.eqb e164 "" || (String.length e164 <? 6)%nat then e164
  else text (take 6 (chars e164)) +:+ "***"
       +:+ text (drop (String.length e164 - 4) (chars e164)).

(** *** Reading a trace *)

Definition is_create (e : event) : bool :=
  match e with ECreateMessage _ _ _ _ => true | _ => false end.

(** A call of [client.messages.create] that returned a message. *)
Definition is_created (e : event) : bool :=
  match e with ECreateMessage _ _ _ (SmsCreated _) => true | _ => false end.

Definition is_flush (e : event) : bool :=
  match e with EBatchUpdate _ _ => true | _ => false end.

Definition create_count (t : trace) : nat := length (List.filter is_create t).
Definition created_count (t : trace) : nat := length (List.filter is_created t).

(** The lengths of the sleeps of a trace, in order. *)
Fixpoint naps (t : trace) : list float :=
  match t with
  | [] => []
  | ESleep secs :: rest => secs :: naps rest
  | _ :: rest => naps rest
  end.

(** No call of [client.messages.create] follows one that returned. *)
Fixpoint stops_when_created (t : trace) : bool :=
  match t with
  | [] => true
  | e :: rest =>
      if is_created e then negb (existsb is_create rest)
      else stops_when_created rest
  end.

(** *** What the header says *)

(** Position [z] holds the last header that, stripped and lower-cased,
    reads [name]. *)
Definition located (header_row : list string) (name : string) (z : Z) : Prop :=
  exists (j : nat) h,
    z = Z.of_nat j /\ header_row !! j = Some h /\ lower (strip h) = name
    /\ forall (j' : nat) h',
         (j < j')%nat -> header_row !! j' = Some h' ->
         lower (strip h') <> name.

(** No header reads [name]. *)
Definition unnamed (header_row : list string) (name : string) : Prop :=
  forall (j : nat) h, header_row !! j = Some h -> lower (strip h) <> name.

Definition found (header_row : list string) (name : string)
    (o : option Z) : Prop :=
  match o with
  | Some z => located header_row name z
  | None => unnamed header_row name
  end.

(** The names of the tracking columns, in the order [main] adds them. *)
Definition tracking_columns : list string :=
  ["Status"; "Sent_At"; "SID"; "Error"].

(** The tracking columns the header does not hold, spelled as [main]
    spells them. *)
Definition missing_columns (header : list string) : list string :=
  List.filter (fun name => negb (bool_decide (name ∈ header))) tracking_columns.

(** [idx + 1 if idx is not None else len(header)]: the column of the
    sheet, counted from 1, that [main] writes a field to. *)
Definition column (idx : option Z) (header : list string) : Z :=
  match idx with
  | Some i => i + 1
  | None => Z.of_nat (length header)
  end.

(** The mark a dry run puts on a row. *)
Definition dry_mark (u : update) : Prop :=
  exists stamp,
    values u = ["SENT"; stamp; "DRYRUN"; ""]
    \/ values u = ["FAILED"; stamp; ""; "Missing Number or Message"].

(** What a dry run writes for a row: FAILED when the number or the
    message is missing, SENT with the SID DRYRUN otherwise. *)
Definition dry_row (c : config) (p : Z * row) (u : update) : Prop :=
  exists number message stamp,
    safe_get p.2 (idx_number c) = Return number
    /\ safe_get p.2 (idx_message c) = Return message
    /\ u = mark c p.1
             (if String.eqb number "" || String.eqb message ""
              then ["FAILED"; stamp; ""; "Missing Number or Message"]
              else ["SENT"; stamp; "DRYRUN"; ""]).

End Sheet.

(** ** More sample worlds *)
Module SendSamples.
Import Py Eff SmsBlast Sheet.

Definition config_dry : config :=
  Config 500 true "+18005550100" (Some 0) (Some 1) 3 6.

(** Twilio refuses every message with a [TwilioException]. *)
Definition refuses : world :=
  World (fun _ => "2024-05-02T09:00:00")
        (fun _ _ _ _ => SmsTwilioException "HTTP 429 Too Many Requests")
        (fun _ _ => None).

Definition broken_pipe : exn := Exn "ConnectionError" "Connection aborted.".

(** Twilio accepts the first message; at the second call the connection
    breaks with an exception that is no [TwilioException]. *)
Definition breaks_at_second : world :=
  World (fun _ => "2024-05-02T09:00:00")
        (fun h _ _ _ =>
           match List.filter is_create h with
           | [] => SmsCreated "SM100"
           | _ => SmsOtherException broken_pipe
           end)
        (fun _ _ => None).

End SendSamples.

(** * Properties *)

(** ** Running a computation *)
Module EffFacts.
Import Py Eff.

Section Run.
Context {E W : Type}.

Lemma bind_Return {A B} (m : M E W A) (k : A -> M E W B) w h a t :
  m w h = (Return a, t) ->
  bind m k w h = (let '(r, t2) := k a w (h ++ t) in (r, t ++ t2)).
Proof. unfold bind. now intros ->. Qed.

Lemma bind_Raise {A B} (m : M E W A) (k : A -> M E W B) w h e t :
  m w h = (Raise e, t) -> bind m k w h = (Raise e, t).
Proof. unfold bind. now intros ->. Qed.

Lemma bind_OutOfFuel {A B} (m : M E W A) (k : A -> M E W B) w h t :
  m w h = (OutOfFuel, t) -> bind m k w h = (OutOfFuel, t).
Proof. unfold bind. now intros ->. Qed.

End Run.
End EffFacts.

(** ** The dialer *)
Module DialerFacts.
Import EffFacts.
Import Py Eff Dialer.

(** *** One attempt *)

(** What one call of [dial_once] does, case by case. *)
Lemma dial_once_run src payload (w : sdk) (h : trace) :
  dial_once src payload w h =
  match py_or (get payload "provider") (PStr "twilio") with
  | PStr s =>
      match missing_fields payload with
      | _ :: _ =>
          (Return (failure ("Missing fields: "
                            +:+ join ", " (missing_fields payload))),
           [EDialOnce payload])
      | [] =>
          let via := chosen_provider s in
          let answer := w (h ++ [EDialOnce payload]) via
                          (get payload "agent_id")
                          (get payload "agent_phone_number_id")
                          (get payload "to_number") in
          (Return (outcome_dict via (debug_flag src payload) answer),
           [EDialOnce payload;
            EOutboundCall via (get payload "agent_id")
              (get payload "agent_phone_number_id")
              (get payload "to_number") answer])
      end
  | v =>
      (Raise (Exn "AttributeError"
                ("'" +:+ type_name v +:+ "' object has no attribute 'lower'")),
       [EDialOnce payload])
  end.
Proof.
  unfold dial_once, bind, emit, call_lower, missing_fields.
  destruct (py_or (get payload "provider") (PStr "twilio")) eqn:Hp;
    try reflexivity.
  cbn [ret raise].
  destruct (List.filter _ required_fields) eqn:Hm; [|reflexivity].
  unfold chosen_provider, try_call, outbound_call, ask, bind.
  destruct (String.eqb (lower s) "sip"); cbn.
  all: rewrite ?app_nil_r.
  all: match goal with
       | |- context [EOutboundCall _ _ _ _ ?x] => destruct x
       end; reflexivity.
Qed.

Lemma failure_ok msg : get (failure msg) "ok" = PBool false.
Proof. reflexivity. Qed.

Lemma failure_error msg : get (failure msg) "error" = PStr msg.
Proof. reflexivity. Qed.

Lemma success_ok via debug r : get (success via debug r) "ok" = PBool true.
Proof.
  unfold success, get. destruct debug.
  - rewrite lookup_insert_ne by discriminate. now rewrite lookup_insert_eq.
  - now rewrite lookup_insert_eq.
Qed.

Lemma failure_nonempty msg : failure msg <> ∅.
Proof.
  intros H. apply (f_equal (fun m : dict => m !! "ok")) in H.
  unfold failure in H. rewrite lookup_insert_eq, lookup_empty in H. discriminate.
Qed.

Lemma dial_once_shape src payload (w : sdk) (h : trace) :
  exists r t, dial_once src payload w h = (r, EDialOnce payload :: t)
              /\ attempt_shape r t.
Proof.
  rewrite dial_once_run.
  destruct (py_or _ _); try (eexists _, _; split; [reflexivity|constructor]).
  destruct (missing_fields payload).
  - cbn zeta.
    match goal with
    | |- context [EOutboundCall _ _ _ _ ?x] => destruct x
    end; eexists _, _; (split; [reflexivity|]); cbn [outcome_dict].
    + apply shape_success. now rewrite success_ok.
    + apply shape_error; [now rewrite failure_ok | apply failure_nonempty].
  - eexists _, _; split; [reflexivity|].
    apply shape_invalid; [now rewrite failure_ok | apply failure_nonempty].
Qed.

(** *** The retry wrapper *)

Lemma time_sleep_accepted site secs (w : sdk) (h : trace) :
  sleep_error secs = None ->
  time_sleep site secs w h = (Return tt, [ESleep site secs]).
Proof. unfold time_sleep, bind, emit. now intros ->. Qed.

Lemma time_sleep_refused site secs e (w : sdk) (h : trace) :
  sleep_error secs = Some e ->
  time_sleep site secs w h = (Raise e, [ESleep site secs]).
Proof. unfold time_sleep, bind, emit. now intros ->. Qed.

Lemma float_of_int_fuel z : float_of_int z <> OutOfFuel.
Proof. unfold float_of_int. now destruct (PrimFloat.is_infinity _). Qed.

(** With enough fuel the loop is one of the runs above. *)
Lemma retry_loop_run src item retries backoff (w : sdk) fuel :
  forall attempts last h r t,
    retries + 1 - attempts <= Z.of_nat fuel ->
    retry_loop fuel src item retries backoff attempts last w h = (r, t) ->
    retry_run src item retries backoff w attempts last h r t.
Proof.
  induction fuel as [|fuel IH]; intros attempts last h r t Hfuel Hrun.
  - cbn in Hrun. destruct (Z.leb_spec attempts retries); [lia|].
    inversion Hrun; subst. now apply run_exit.
  - cbn [retry_loop] in Hrun.
    destruct (Z.leb_spec attempts retries) as [Hle|Hgt];
      [|inversion Hrun; subst; now apply run_exit].
    destruct (dial_once src item w h) as [[d|e|] t0] eqn:Hd.
    + rewrite (bind_Return _ _ _ _ _ _ Hd) in Hrun.
      destruct (truthy (get d "ok")) eqn:Hok.
      * cbn in Hrun. rewrite app_nil_r in Hrun. inversion Hrun; subst.
        now apply run_success.
      * unfold lift in Hrun.
        destruct (float_of_int (attempts + 1)) as [n|e|] eqn:Hn.
        -- erewrite bind_Return in Hrun by reflexivity.
           rewrite app_nil_r in Hrun. cbn [app] in Hrun.
           assert (Hb : backoff_delay backoff (attempts + 1)
                        = Return (min (PrimFloat.mul backoff n) 6)).
           { unfold backoff_delay. now rewrite Hn. }
           destruct (sleep_error (min (PrimFloat.mul backoff n) 6)) eqn:Hs.
           ++ erewrite bind_Raise in Hrun
                by (apply time_sleep_refused; eassumption).
              inversion Hrun; subst. eapply run_refused; eauto.
           ++ erewrite bind_Return in Hrun
                by (apply time_sleep_accepted; eassumption).
              destruct (retry_loop fuel _ _ _ _ _ _ _ _) as [r' t'] eqn:Hrec.
              inversion Hrun; subst.
              eapply run_retry; eauto.
              eapply IH; [lia|]. rewrite <- Hrec. f_equal.
              now rewrite <- app_assoc.
        -- erewrite bind_Raise in Hrun by reflexivity.
           rewrite app_nil_r in Hrun. inversion Hrun; subst.
           eapply run_overflow; eauto.
           unfold backoff_delay. now rewrite Hn.
        -- now destruct (float_of_int_fuel _ Hn).
    + rewrite (bind_Raise _ _ _ _ _ _ Hd) in Hrun. inversion Hrun; subst.
      now apply run_raise.
    + destruct (dial_once_shape src item w h) as (r0 & t1 & Hr & Hs).
      rewrite Hr in Hd. inversion Hd; subst. inversion Hs.
Qed.

Lemma dial_with_retries_run src item retries backoff (w : sdk) h r t :
  dial_with_retries src item retries backoff w h = (r, t) ->
  retry_run src item retries backoff w 0 None h r t.
Proof. apply retry_loop_run. lia. Qed.

Lemma dial_once_inv src payload (w : sdk) h r t :
  dial_once src payload w h = (r, t) ->
  exists t0, t = EDialOnce payload :: t0 /\ attempt_shape r t0.
Proof.
  intros H. destruct (dial_once_shape src payload w h) as (r' & t' & Hr & Hs).
  rewrite Hr in H. inversion H; subst. eauto.
Qed.

Lemma dial_count_app t1 t2 : dial_count (t1 ++ t2) = (dial_count t1 + dial_count t2)%nat.
Proof. unfold dial_count. now rewrite List.filter_app, length_app. Qed.

Lemma attempt_shape_count r t : attempt_shape r t -> dial_count t = 0%nat.
Proof. now destruct 1. Qed.

Lemma stops_at_success_spec t :
  stops_at_success t = true <->
  forall pre ev post, t = pre ++ ev :: post -> is_success ev = true -> post = [].
Proof.
  induction t as [|e rest IH]; cbn.
  - split; [|done]. intros _ [|] ? ? H; discriminate H.
  - destruct (is_success e) eqn:He.
    + split.
      * destruct rest; [|done]. intros _ [|p pre] ev post H _.
        -- now inversion H.
        -- inversion H. now destruct pre.
      * intros H. specialize (H [] e rest eq_refl He). now subst.
    + rewrite IH. split.
      * intros H [|p pre] ev post Heq Hev; inversion Heq; subst.
        -- congruence.
        -- eauto.
      * intros H pre ev post -> Hev. now apply (H (e :: pre) ev post).
Qed.

Lemma stops_at_success_failed t1 t2 :
  all_failed t1 = true ->
  stops_at_success (t1 ++ t2) = stops_at_success t2.
Proof.
  induction t1 as [|e t1 IH]; [done|]. cbn.
  intros [He H]%andb_true_iff. apply negb_true_iff in He. rewrite He. auto.
Qed.

(** The events of an attempt that did not succeed hold no success. *)
Lemma attempt_failed_events d t :
  attempt_shape (Return d) t -> truthy (get d "ok") = false ->
  all_failed t = true.
Proof. inversion 1; subst; cbn; congruence. Qed.

Lemma attempt_stops r t : attempt_shape r t -> stops_at_success t = true.
Proof. now destruct 1. Qed.

(** The counting invariant of the loop. *)
Lemma retry_run_count src item retries backoff (w : sdk) attempts last h r t :
  retry_run src item retries backoff w attempts last h r t ->
  attempts + Z.of_nat (dial_count t) <= Z.max attempts (retries + 1)
  /\ (attempts <= retries -> (1 <= dial_count t)%nat)
  /\ (forall d, r = Return d ->
        get d "attempts" = PInt (attempts + Z.of_nat (dial_count t)))
  /\ stops_at_success t = true.
Proof.
  induction 1 as
    [a last h Ha | a last h e t Ha Hd | a last h d t Ha Hd Hok
    | a last h d t e Ha Hd Hok Hb | a last h d t secs e Ha Hd Hok Hb Hs
    | a last h d t secs r t' Ha Hd Hok Hb Hs Hrec IH].
  - cbn. repeat split; try lia.
    intros d [= <-]. unfold get. rewrite lookup_insert_eq. cbn. f_equal. lia.
  - apply dial_once_inv in Hd as (t0 & -> & Hs).
    pose proof (attempt_shape_count _ _ Hs) as Hc.
    change (dial_count (EDialOnce item :: t0)) with (S (dial_count t0)).
    rewrite Hc. repeat split; try lia; [discriminate|].
    cbn. now apply attempt_stops in Hs.
  - apply dial_once_inv in Hd as (t0 & -> & Hs).
    pose proof (attempt_shape_count _ _ Hs) as Hc.
    change (dial_count (EDialOnce item :: t0)) with (S (dial_count t0)).
    rewrite Hc. repeat split; try lia.
    + intros d' [= <-]. unfold get. rewrite lookup_insert_eq. cbn. f_equal; lia.
    + cbn. now apply attempt_stops in Hs.
  - apply dial_once_inv in Hd as (t0 & -> & Hs).
    pose proof (attempt_shape_count _ _ Hs) as Hc.
    change (dial_count (EDialOnce item :: t0)) with (S (dial_count t0)).
    rewrite Hc. repeat split; try lia; [discriminate|].
    cbn. now apply attempt_stops in Hs.
  - apply dial_once_inv in Hd as (t0 & -> & Hsh).
    pose proof (attempt_shape_count _ _ Hsh) as Hc.
    rewrite dial_count_app.
    change (dial_count (EDialOnce item :: t0)) with (S (dial_count t0)).
    rewrite Hc. cbn. repeat split; try lia; [discriminate|].
    rewrite stops_at_success_failed; [done|].
    now apply (attempt_failed_events d).
  - apply dial_once_inv in Hd as (t0 & -> & Hsh).
    pose proof (attempt_shape_count _ _ Hsh) as Hc.
    destruct IH as (IH1 & IH2 & IH3 & IH4).
    rewrite dial_count_app.
    change (dial_count (EDialOnce item :: t0)) with (S (dial_count t0)).
    change (dial_count (ESleep Backoff secs :: t')) with (dial_count t').
    rewrite Hc. repeat split; try lia.
    + intros d' ->. rewrite (IH3 d' eq_refl). f_equal. lia.
    + cbn [app stops_at_success is_success].
      rewrite stops_at_success_failed; [done|].
      now apply (attempt_failed_events d).
Qed.

Lemma retry_run_fuel src item retries backoff (w : sdk) attempts last h r t :
  retry_run src item retries backoff w attempts last h r t -> r <> OutOfFuel.
Proof. induction 1; done. Qed.

Lemma dial_once_returns src payload (w : sdk) h :
  provider_is_text payload = true ->
  exists d t, dial_once src payload w h = (Return d, t).
Proof.
  unfold provider_is_text. rewrite dial_once_run.
  destruct (py_or _ _); try discriminate. intros _.
  destruct (missing_fields payload); cbn zeta; eauto.
Qed.

Lemma retry_run_returns src item retries backoff (w : sdk) attempts last h r t :
  provider_is_text item = true ->
  backoff_accepted backoff retries ->
  retry_run src item retries backoff w attempts last h r t ->
  0 <= attempts ->
  exists d, r = Return d.
Proof.
  intros Hp Hb. induction 1 as
    [a last h Ha | a last h e t Ha Hd | a last h d t Ha Hd Hok
    | a last h d t e Ha Hd Hok Hov | a last h d t secs e Ha Hd Hok Hdel Hs
    | a last h d t secs r t' Ha Hd Hok Hdel Hs Hrec IH]; intros H0; eauto.
  - destruct (dial_once_returns src item w h Hp) as (d & t' & Hd').
    congruence.
  - destruct (Hb (a + 1)) as (d' & Hd' & _); [lia|]. congruence.
  - destruct (Hb (a + 1)) as (d' & Hd' & Hs'); [lia|]. congruence.
  - apply IH. lia.
Qed.

(** C1. For every item and every [retries >= 0], [dial_with_retries]
    calls [dial_once] at most [retries + 1] times, nothing happens after
    the first successful call of the provider, the loop needs no more fuel
    than it is given, and the [attempts] entry of the returned outcome is
    the number of calls of [dial_once] made, between 1 and [retries + 1].
    An outcome is returned whenever [dial_once] and [time.sleep] raise
    nothing: a textual [provider] entry and accepted backoff delays
    suffice. *)
Theorem dial_with_retries_attempts src item retries backoff (w : sdk) h r t :
  0 <= retries ->
  dial_with_retries src item retries backoff w h = (r, t) ->
  Z.of_nat (dial_count t) <= retries + 1
  /\ (forall pre ev post,
        t = pre ++ ev :: post -> is_success ev = true -> post = [])
  /\ r <> OutOfFuel
  /\ (forall d, r = Return d ->
        get d "attempts" = PInt (Z.of_nat (dial_count t))
        /\ 1 <= Z.of_nat (dial_count t) <= retries + 1)
  /\ (provider_is_text item = true -> backoff_accepted backoff retries ->
      exists d, r = Return d).
Proof.
  intros Hr Hrun. apply dial_with_retries_run in Hrun.
  destruct (retry_run_count _ _ _ _ _ _ _ _ _ _ Hrun) as (H1 & H2 & H3 & H4).
  repeat split.
  - lia.
  - now apply stops_at_success_spec.
  - eapply retry_run_fuel; eauto.
  - rewrite (H3 d H). f_equal; lia.
  - specialize (H2 Hr). lia.
  - lia.
  - intros Hp Hb. eapply retry_run_returns; eauto. lia.
Qed.

Lemma dial_with_retries_attempts_witness :
  let run := dial_with_retries AppPy Samples.item_ok 2 2%float
               Samples.rejects_twice [] in
  0 <= 2
  /\ Z.of_nat (dial_count run.2) <= 2 + 1
  /\ (forall pre ev post,
        run.2 = pre ++ ev :: post -> is_success ev = true -> post = [])
  /\ run.1 <> OutOfFuel
  /\ (forall d, run.1 = Return d ->
        get d "attempts" = PInt (Z.of_nat (dial_count run.2))
        /\ 1 <= Z.of_nat (dial_count run.2) <= 2 + 1)
  /\ (provider_is_text Samples.item_ok = true -> backoff_accepted 2%float 2 ->
      exists d, run.1 = Return d).
Proof.
  intros run. split; [lia|].
  apply (dial_with_retries_attempts AppPy Samples.item_ok 2 2%float
           Samples.rejects_twice [] run.1 run.2); [lia|].
  apply surjective_pairing.
Defined.

(** The scenario of the design document: the provider fails twice, then
    answers; the outcome is a success after 3 attempts. *)
Example dial_with_retries_third_time :
  let call answer :=
    EOutboundCall Twilio (PStr "agent_1") (PStr "phone_1")
      (PStr "+15551234567") answer in
  let busy := SdkRaises (Exn "ApiError" "status_code: 429") in
  let reply := SdkReply (PStr "conv_1") (PStr "CA1") PNone in
  dial_with_retries AppPy Samples.item_ok 2 2%float Samples.rejects_twice []
  = (Return (<["attempts" := PInt 3]> (success Twilio false reply)),
     [EDialOnce Samples.item_ok; call busy; ESleep Backoff 2%float;
      EDialOnce Samples.item_ok; call busy; ESleep Backoff 4%float;
      EDialOnce Samples.item_ok; call (SdkReturns reply)]).
Proof. vm_compute. reflexivity. Qed.

(** C10. With [retries < 0] no attempt is made at all, and the outcome is
    [{"ok": False, "error": "Unknown error", "attempts": 0}]. *)
Theorem dial_with_retries_negative src item retries backoff (w : sdk) h :
  retries < 0 ->
  dial_with_retries src item retries backoff w h =
    (Return (<["ok" := PBool false]> (<["error" := PStr "Unknown error"]>
             (<["attempts" := PInt 0]> ∅))), []).
Proof.
  intros Hneg. unfold dial_with_retries.
  replace (Z.to_nat (retries + 1)) with 0%nat by lia.
  cbn. destruct (Z.leb_spec 0 retries); [lia|].
  unfold ret. do 2 f_equal.
Qed.

Lemma dial_with_retries_negative_witness :
  dial_with_retries AppPy Samples.item_ok (-1) 2%float Samples.answers [] =
    (Return (<["ok" := PBool false]> (<["error" := PStr "Unknown error"]>
             (<["attempts" := PInt 0]> ∅))), []).
Proof. apply dial_with_retries_negative. lia. Defined.

(** *** Validation and provider errors *)





Example dial_once_no_number :
  dial_once AppPy Samples.item_no_number Samples.answers [] =
    (Return (failure "Missing fields: to_number"),
     [EDialOnce Samples.item_no_number]).
Proof. vm_compute. reflexivity. Qed.

Lemma all_failed_app t1 t2 :
  all_failed (t1 ++ t2) = all_failed t1 && all_failed t2.
Proof. apply forallb_app. Qed.

Lemma last_or_unknown_Some d : d <> ∅ -> last_or_unknown (Some d) = d.
Proof. intros H. unfold last_or_unknown. now destruct (decide (d = ∅)). Qed.

Lemma attempt_failed_nonempty d t :
  attempt_shape (Return d) t -> truthy (get d "ok") = false -> d <> ∅.
Proof. inversion 1; subst; try done. congruence. Qed.

(** When no attempt succeeds, the loop hands back the outcome of its last
    attempt, and the backoff sleep after that attempt is the last event. *)
Lemma retry_run_last_failure src item retries backoff (w : sdk)
    attempts last h r0 t :
  retry_run src item retries backoff w attempts last h r0 t ->
  forall r, r0 = Return r -> all_failed t = true ->
    (retries < attempts /\ t = []
     /\ r = <["attempts" := PInt attempts]> (last_or_unknown last))
    \/ (attempts <= retries /\ exists pre d td secs,
          t = pre ++ td ++ [ESleep Backoff secs]
          /\ dial_once src item w (h ++ pre) = (Return d, td)
          /\ truthy (get d "ok") = false
          /\ backoff_delay backoff (retries + 1) = Return secs
          /\ r = <["attempts" := PInt (retries + 1)]> d).
Proof.
  induction 1 as
    [a last h Ha | a last h e t Ha Hd | a last h d t Ha Hd Hok
    | a last h d t e Ha Hd Hok Hov | a last h d t secs e Ha Hd Hok Hdel Hs
    | a last h d t secs r' t' Ha Hd Hok Hdel Hs Hrec IH];
    intros r Hr Hfail; try discriminate Hr.
  - left. inversion Hr; subst. auto.
  - exfalso. apply dial_once_inv in Hd as (t0 & -> & Hsh).
    inversion Hsh; subst; try congruence. discriminate Hfail.
  - right. split; [exact Ha|].
    rewrite all_failed_app in Hfail. apply andb_true_iff in Hfail as [_ Hf'].
    destruct (IH r Hr Hf') as [(Hgt & -> & ->) | (Hle & pre & d' & td & secs' & Ht & Hd' & Hok' & Hdel' & Hr')].
    + exists [], d, t, secs. rewrite app_nil_r. cbn [app].
      assert (a = retries) as -> by lia.
      repeat split; auto.
      rewrite last_or_unknown_Some; [reflexivity|].
      apply dial_once_inv in Hd as (t0 & _ & Hsh).
      eapply attempt_failed_nonempty; eauto.
    + exists (t ++ ESleep Backoff secs :: pre), d', td, secs'.
      repeat split; auto.
      * rewrite Ht. now rewrite <- !app_assoc.
      * rewrite <- Hd'. f_equal. now rewrite <- !app_assoc.
Qed.

(** C8 (amended). For an item whose [provider] entry is absent, falsy or a
    string, [dial_once] raises nothing: it returns, and an exception of
    the provider comes back as the failure whose error is the type name of
    the exception, [": "] and its message. With [retries >= 0] and backoff
    delays that [time.sleep] accepts, [dial_with_retries] returns too, and
    when no attempt succeeded its outcome is the outcome of the last
    attempt with [attempts] added. *)
Theorem dial_failures_reported src item retries backoff (w : sdk) h :
  provider_is_text item = true ->
  (exists d t,
     dial_once src item w h = (Return d, t)
     /\ forall via a b c e,
         In (EOutboundCall via a b c (SdkRaises e)) t ->
         d = failure (exc_type e +:+ ": " +:+ exc_msg e))
  /\ (0 <= retries -> backoff_accepted backoff retries ->
      exists r t,
        dial_with_retries src item retries backoff w h = (Return r, t)
        /\ (all_failed t = true ->
            exists pre d td secs,
              t = pre ++ td ++ [ESleep Backoff secs]
              /\ dial_once src item w (h ++ pre) = (Return d, td)
              /\ truthy (get d "ok") = false
              /\ r = <["attempts" := PInt (retries + 1)]> d)).
Proof.
  intros Hp. split.
  - rewrite dial_once_run. unfold provider_is_text in Hp.
    destruct (py_or _ _); try discriminate.
    destruct (missing_fields item); cbn zeta.
    + eexists _, _. split; [reflexivity|].
      intros via a b c e [Hin|[Hin|[]]]; [discriminate Hin|].
      inversion Hin as [[Hv Ha Hb Hc Hans]]. now rewrite Hans.
    + eexists _, _. split; [reflexivity|].
      intros via a b c e [Hin|[]]. discriminate Hin.
  - intros Hr Hb.
    destruct (dial_with_retries src item retries backoff w h) as [r0 t] eqn:Hrun.
    apply dial_with_retries_run in Hrun.
    destruct (retry_run_returns _ _ _ _ _ _ _ _ _ _ Hp Hb Hrun) as (r & ->);
      [lia|].
    exists r, t. split; [reflexivity|]. intros Hfail.
    destruct (retry_run_last_failure _ _ _ _ _ _ _ _ _ _ Hrun r eq_refl Hfail)
      as [(Hgt & _) | (_ & pre & d & td & secs & Ht & Hd & Hok & _ & Hr')];
      [lia|].
    exists pre, d, td, secs. auto.
Qed.

Lemma backoff_accepted_2_2 : backoff_accepted 2%float 2.
Proof.
  intros k Hk.
  assert (k = 1 \/ k = 2 \/ k = 3) as [-> | [-> | ->]] by lia;
    eexists; (split; [vm_compute; reflexivity | reflexivity]).
Qed.

Lemma dial_failures_reported_witness :
  provider_is_text Samples.item_ok = true
  /\ exists r t,
      dial_with_retries AppPy Samples.item_ok 2 2%float Samples.rejects []
      = (Return r, t)
      /\ (all_failed t = true ->
          exists pre d td secs,
            t = pre ++ td ++ [ESleep Backoff secs]
            /\ dial_once AppPy Samples.item_ok Samples.rejects ([] ++ pre)
               = (Return d, td)
            /\ truthy (get d "ok") = false
            /\ r = <["attempts" := PInt (2 + 1)]> d).
Proof.
  split; [reflexivity|].
  destruct (dial_failures_reported AppPy Samples.item_ok 2 2%float
              Samples.rejects [] eq_refl) as [_ H].
  apply H; [lia | exact backoff_accepted_2_2].
Defined.

(** The claim as stated fails twice. A complete item whose [provider] is
    the number 5 makes [dial_once] raise [AttributeError]. And a negative
    [backoff_seconds] makes [dial_with_retries] raise the [ValueError] of
    [time.sleep] after the failed attempt, where the claim has it return
    the failure. *)
Lemma dial_failures_reported_counterexample :
  dial_once AppPy Samples.item_ok_provider_5 Samples.rejects [] =
    (Raise (Exn "AttributeError" "'int' object has no attribute 'lower'"),
     [EDialOnce Samples.item_ok_provider_5])
  /\ dial_with_retries AppPy Samples.item_ok 0 (-1)%float Samples.rejects [] =
      (Raise (Exn "ValueError" "sleep length must be non-negative"),
       [EDialOnce Samples.item_ok; Samples.rejected_call;
        ESleep Backoff (-1)%float]).
Proof. split; vm_compute; reflexivity. Qed.

(** *** The backoff *)

Lemma sleeps_app t1 t2 : sleeps (t1 ++ t2) = sleeps t1 ++ sleeps t2.
Proof.
  induction t1 as [|e t1 IH]; [done|]. destruct e; cbn; now rewrite ?IH.
Qed.

Lemma attempt_shape_sleeps r t : attempt_shape r t -> sleeps t = [].
Proof. now destruct 1. Qed.

Lemma attempt_shape_no_sleep r t :
  attempt_shape r t -> forallb (fun e => negb (is_sleep e)) t = true.
Proof. now destruct 1. Qed.

(** The sleeps of a run, in order, are the delays after the attempts
    [attempts + 1], [attempts + 2], ...: no sleep comes before the first
    attempt, and the sleep before attempt [k] is the delay computed from
    [k - 1]. *)
Lemma retry_run_schedule src item retries backoff (w : sdk)
    attempts last h r t :
  retry_run src item retries backoff w attempts last h r t ->
  (t = [] \/ exists t', t = EDialOnce item :: t')
  /\ forall (i : nat) d,
      sleeps t !! i = Some d ->
      backoff_delay backoff (attempts + 1 + Z.of_nat i) = Return d.
Proof.
  induction 1 as
    [a last h Ha | a last h e t Ha Hd | a last h d t Ha Hd Hok
    | a last h d t e Ha Hd Hok Hov | a last h d t secs e Ha Hd Hok Hdel Hs
    | a last h d t secs r' t' Ha Hd Hok Hdel Hs Hrec IH].
  - split; [now left|]. intros i d H. destruct i; discriminate H.
  - apply dial_once_inv in Hd as (t0 & -> & Hsh). split; [right; eauto|].
    cbn. rewrite (attempt_shape_sleeps _ _ Hsh). intros [|i] d H; discriminate H.
  - apply dial_once_inv in Hd as (t0 & -> & Hsh). split; [right; eauto|].
    cbn. rewrite (attempt_shape_sleeps _ _ Hsh). intros [|i] d' H; discriminate H.
  - apply dial_once_inv in Hd as (t0 & -> & Hsh). split; [right; eauto|].
    cbn. rewrite (attempt_shape_sleeps _ _ Hsh). intros [|i] d' H; discriminate H.
  - apply dial_once_inv in Hd as (t0 & -> & Hsh). split; [right; eauto|].
    cbn. rewrite sleeps_app, (attempt_shape_sleeps _ _ Hsh). cbn.
    intros [|[|i]] d' H; try discriminate H.
    inversion H; subst. now rewrite Z.add_0_r.
  - apply dial_once_inv in Hd as (t0 & -> & Hsh). split; [right; eauto|].
    cbn. rewrite sleeps_app, (attempt_shape_sleeps _ _ Hsh). cbn.
    destruct IH as [_ IH]. intros [|i] d' H.
    + inversion H; subst. now rewrite Z.add_0_r.
    + cbn in H. rewrite <- (IH i d' H). f_equal. lia.
Qed.

(** Every sleep of the retry wrapper is a backoff sleep. *)
Lemma retry_run_no_pacing src item retries backoff (w : sdk)
    attempts last h r t :
  retry_run src item retries backoff w attempts last h r t ->
  no_pacing t = true.
Proof.
  unfold no_pacing.
  assert (Hshape : forall r0 t0, attempt_shape r0 t0 ->
            forallb (fun e => negb (is_pacing e)) t0 = true)
    by now destruct 1.
  induction 1 as
    [a last h Ha | a last h e t Ha Hd | a last h d t Ha Hd Hok
    | a last h d t e Ha Hd Hok Hov | a last h d t secs e Ha Hd Hok Hdel Hs
    | a last h d t secs r' t' Ha Hd Hok Hdel Hs Hrec IH];
    try reflexivity;
    apply dial_once_inv in Hd as (t0 & -> & Hsh);
    rewrite ?forallb_app; cbn; rewrite ?(Hshape _ _ Hsh); auto.
Qed.

(** C2, on the code. With [retries = 2] and [backoff_seconds = 2.0], an
    item that the provider rejects three times gives the sleeps 2.0 and
    4.0 before the attempts 2 and 3, and then a sleep of 6.0 after the
    third and last attempt, before the failure is returned. *)
Theorem backoff_after_last_attempt :
  dial_with_retries AppPy Samples.item_ok 2 2%float Samples.rejects [] =
    (Return (<["attempts" := PInt 3]> (failure "ApiError: status_code: 422")),
     [EDialOnce Samples.item_ok; Samples.rejected_call; ESleep Backoff 2%float;
      EDialOnce Samples.item_ok; Samples.rejected_call; ESleep Backoff 4%float;
      EDialOnce Samples.item_ok; Samples.rejected_call; ESleep Backoff 6%float]).
Proof. vm_compute. reflexivity. Qed.

(** The same at large: whenever no attempt succeeds, a backoff sleep
    follows the last attempt. *)
Lemma backoff_follows_last_failure src item retries backoff (w : sdk) h r t :
  0 <= retries ->
  dial_with_retries src item retries backoff w h = (Return r, t) ->
  all_failed t = true ->
  exists t' secs,
    t = t' ++ [ESleep Backoff secs]
    /\ backoff_delay backoff (retries + 1) = Return secs
    /\ Z.of_nat (dial_count t) = retries + 1.
Proof.
  intros Hr Hrun Hfail. apply dial_with_retries_run in Hrun.
  destruct (retry_run_last_failure _ _ _ _ _ _ _ _ _ _ Hrun r eq_refl Hfail)
    as [(Hgt & _) | (_ & pre & d & td & secs & Ht & Hd & Hok & Hdel & Hr')];
    [lia|].
  exists (pre ++ td), secs. split; [now rewrite Ht, app_assoc|].
  split; [exact Hdel|].
  destruct (retry_run_count _ _ _ _ _ _ _ _ _ _ Hrun) as (_ & _ & Hat & _).
  specialize (Hat r eq_refl). rewrite Hr' in Hat. unfold get in Hat.
  rewrite lookup_insert_eq in Hat. cbn in Hat. inversion Hat. lia.
Qed.

(** *** The batch *)

Lemma paced_cons sep t ts :
  ts <> [] -> paced sep (t :: ts) = t ++ sep ++ paced sep ts.
Proof. now destruct ts. Qed.

(** One round of the loop of [api_call_batch]. *)
Lemma batch_loop_step src n delay retries backoff i item rest results
    (w : sdk) h :
  batch_loop src n delay retries backoff i (item :: rest) results w h =
  match dial_with_retries src item retries backoff w h with
  | (Return res, t1) =>
      let results' := results ++ [<["index" := PInt i]> res] in
      if PrimFloat.ltb 0%float delay && (i <? n)%Z then
        match sleep_error delay with
        | Some e => (Raise e, t1 ++ [ESleep Pacing delay])
        | None =>
            let '(r, t2) :=
              batch_loop src n delay retries backoff (i + 1) rest results' w
                (h ++ t1 ++ [ESleep Pacing delay]) in
            (r, t1 ++ ESleep Pacing delay :: t2)
        end
      else
        let '(r, t2) :=
          batch_loop src n delay retries backoff (i + 1) rest results' w
            (h ++ t1) in
        (r, t1 ++ t2)
  | (Raise e, t1) => (Raise e, t1)
  | (OutOfFuel, t1) => (OutOfFuel, t1)
  end.
Proof.
  cbn [batch_loop]. unfold bind at 1.
  destruct (dial_with_retries src item retries backoff w h) as [[res|e|] t1];
    try reflexivity.
  destruct (PrimFloat.ltb 0 delay && (i <? n)%Z).
  - unfold bind at 1. unfold time_sleep, bind, emit.
    destruct (sleep_error delay); cbn -[batch_loop].
    + reflexivity.
    + rewrite <- app_assoc.
      now destruct (batch_loop _ _ _ _ _ _ _ _ _ _).
  - unfold bind at 1. cbn -[batch_loop]. rewrite app_nil_r.
    now destruct (batch_loop _ _ _ _ _ _ _ _ _ _).
Qed.

Lemma dial_with_retries_no_pacing src item retries backoff (w : sdk) h r t :
  dial_with_retries src item retries backoff w h = (r, t) -> no_pacing t = true.
Proof.
  intros H. apply dial_with_retries_run in H.
  eapply retry_run_no_pacing; eauto.
Qed.

(** The trace of the loop: the traces of the items, the pacing sleep
    between two of them and nowhere else. *)
Lemma batch_loop_trace src n delay retries backoff (w : sdk) rest :
  forall i results h r t,
    i + Z.of_nat (length rest) = n + 1 ->
    batch_loop src n delay retries backoff i rest results w h = (r, t) ->
    exists ts,
      t = paced (pacing delay) ts
      /\ Forall (fun tj => no_pacing tj = true) ts
      /\ (length ts <= length rest)%nat
      /\ (rest <> [] -> ts <> [])
      /\ (forall out, r = Return out -> length ts = length rest).
Proof.
  induction rest as [|item rest IH]; intros i results h r t Hn Hrun.
  - cbn in Hrun. inversion Hrun; subst. exists []. repeat split; auto.
  - rewrite batch_loop_step in Hrun.
    destruct (dial_with_retries src item retries backoff w h)
      as [[res|e|] t1] eqn:Hd;
      pose proof (dial_with_retries_no_pacing _ _ _ _ _ _ _ _ Hd) as Hnp.
    2,3: inversion Hrun; subst; exists [t]; repeat split; auto;
         [cbn; lia | discriminate].
    cbn zeta in Hrun. cbn [length] in Hn.
    destruct (PrimFloat.ltb 0 delay) eqn:Hdelay; cbn [andb] in Hrun.
    + destruct (Z.ltb_spec i n) as [Hlt|Hge].
      * assert (Hrest : rest <> []) by (destruct rest; [cbn in Hn; lia|done]).
        destruct (sleep_error delay).
        -- inversion Hrun; subst. exists [t1; []].
           unfold pacing. rewrite Hdelay. cbn. rewrite ?app_nil_r.
           repeat split; auto; try discriminate.
           destruct rest; [done | cbn; lia].
        -- destruct (batch_loop _ _ _ _ _ _ _ _ _ _) as [r2 t2] eqn:Hrec.
           inversion Hrun; subst.
           apply IH in Hrec as (ts & Ht & Hall & Hlen & Hne & Hret); [|lia].
           exists (t1 :: ts). rewrite paced_cons by auto.
           unfold pacing at 1. rewrite Hdelay, <- Ht. cbn.
           repeat split; auto; try lia; try discriminate.
           intros out Hout. now rewrite (Hret out Hout).
      * assert (rest = []) as -> by (destruct rest; [done | cbn in Hn; lia]).
        cbn in Hrun. inversion Hrun; subst. rewrite app_nil_r.
        exists [t1]. repeat split; auto; discriminate.
    + destruct (batch_loop _ _ _ _ _ _ _ _ _ _) as [r2 t2] eqn:Hrec.
      inversion Hrun; subst.
      apply IH in Hrec as (ts & Ht & Hall & Hlen & Hne & Hret); [|lia].
      destruct rest as [|item2 rest].
      * destruct ts; [|cbn in Hlen; lia]. cbn in Ht. subst t2.
        rewrite app_nil_r. exists [t1]. repeat split; auto; discriminate.
      * exists (t1 :: ts). rewrite paced_cons by (apply Hne; discriminate).
        split; [rewrite Ht; unfold pacing; now rewrite Hdelay|].
        repeat split; auto; try (cbn in *; lia); try discriminate.
        intros out Hout. cbn. now rewrite (Hret out Hout).
Qed.


Lemma dial_with_retries_returns src item retries backoff (w : sdk) h :
  provider_is_text item = true ->
  backoff_accepted backoff retries ->
  exists res t, dial_with_retries src item retries backoff w h = (Return res, t).
Proof.
  intros Hp Hb.
  destruct (dial_with_retries src item retries backoff w h) as [r t] eqn:Hrun.
  apply dial_with_retries_run in Hrun.
  destruct (retry_run_returns _ _ _ _ _ _ _ _ _ _ Hp Hb Hrun) as (d & ->);
    [lia | eauto].
Qed.





(** The batch of the design document: two items, the second without a
    number, no retries. *)
Example api_call_batch_of_two :
  (api_call_batch AppPy Samples.batch_of_two 0%float 0 2%float
     Samples.answers []).1 =
  Return
    (BatchSummary 2 1
       [<["index" := PInt 1]> (<["attempts" := PInt 1]>
          (success Twilio false (SdkReply (PStr "conv_1") (PStr "CA1") PNone)));
        <["index" := PInt 2]> (<["attempts" := PInt 1]>
          (failure "Missing fields: to_number"))],
     200).
Proof. vm_compute. reflexivity. Qed.


(** The pacing of [api_call_batch]: the trace is the traces of the items,
    one after the other, with the sleep of [delay_seconds] between two of
    them when [delay_seconds > 0] and nothing otherwise; no pacing sleep
    follows the last item. A batch that is answered has run every item. *)
Lemma api_call_batch_pacing src items delay retries backoff (w : sdk) h r t :
  api_call_batch src items delay retries backoff w h = (r, t) ->
  exists ts,
    t = paced (pacing delay) ts
    /\ Forall (fun tj => no_pacing tj = true) ts
    /\ (length ts <= length items)%nat
    /\ (forall body, r = Return body -> length ts = length items).
Proof.
  unfold api_call_batch. intros Hrun.
  destruct items as [|item0 items0] eqn:Hitems.
  { inversion Hrun; subst. exists []. repeat split; auto. }
  rewrite <- Hitems in *.
  destruct (batch_loop src (Z.of_nat (length items)) delay retries backoff 1
              items [] w h) as [r1 t1] eqn:Hloop.
  apply batch_loop_trace in Hloop as Htrace; [|lia].
  destruct Htrace as (ts & Ht & Hall & Hlen & _ & Hret).
  exists ts. destruct r1 as [out|e|].
  - erewrite bind_Return in Hrun by exact Hloop.
    cbn in Hrun. rewrite app_nil_r in Hrun. inversion Hrun; subst.
    repeat split; auto. intros _ _. now apply (Hret out).
  - erewrite bind_Raise in Hrun by exact Hloop. inversion Hrun; subst.
    repeat split; auto. discriminate.
  - erewrite bind_OutOfFuel in Hrun by exact Hloop. inversion Hrun; subst.
    repeat split; auto. discriminate.
Qed.

End DialerFacts.

(** ** The SMS blaster *)
Module SmsFacts.
Import EffFacts.
Import Py Eff SmsBlast.

(** *** Text *)

Lemma rstrip_empty s : rstrip s = "" <-> all_space s = true.
Proof.
  induction s as [|c s IH]; cbn; [done|].
  destruct (rstrip s) eqn:Hr.
  - destruct (is_space c); cbn.
    + split; [intros _; now apply IH | done].
    + split; discriminate.
  - split; [discriminate|].
    intros [_ H]%andb_true_iff. apply IH in H. discriminate H.
Qed.

Lemma all_space_lstrip s : all_space (lstrip s) = all_space s.
Proof.
  induction s as [|c s IH]; cbn; [done|].
  destruct (is_space c) eqn:Hc; cbn; [done | now rewrite Hc].
Qed.

(** [s.strip()] is empty exactly when [s] is white space only. *)
Lemma strip_empty s : strip s = "" <-> all_space s = true.
Proof. unfold strip. now rewrite rstrip_empty, all_space_lstrip. Qed.

Lemma any_text_blank r : any_text r = negb (blank_row r).
Proof.
  unfold any_text, blank_row. induction r as [|cell r IH]; cbn; [done|].
  rewrite IH, negb_andb. f_equal.
  destruct (String.eqb_spec (strip cell) "") as [He|Hne].
  - apply strip_empty in He. now rewrite He.
  - destruct (all_space cell) eqn:Ha; [|done].
    apply strip_empty in Ha. done.
Qed.

Ltac all_chars c :=
  destruct c as [[] [] [] [] [] [] [] []]; vm_compute;
  (split; intros H; first [reflexivity | discriminate H]).

Lemma upper_S c : upper_char c = "S"%char <-> lower_char c = "s"%char.
Proof. all_chars c. Qed.
Lemma upper_E c : upper_char c = "E"%char <-> lower_char c = "e"%char.
Proof. all_chars c. Qed.
Lemma upper_N c : upper_char c = "N"%char <-> lower_char c = "n"%char.
Proof. all_chars c. Qed.
Lemma upper_T c : upper_char c = "T"%char <-> lower_char c = "t"%char.
Proof. all_chars c. Qed.

(** Comparing the upper-cased text with ["SENT"] compares up to case. *)
Lemma upper_SENT s : upper s = "SENT" <-> same_ignoring_case s "SENT".
Proof.
  unfold same_ignoring_case.
  change (lower "SENT") with "sent".
  destruct s as [|c1 [|c2 [|c3 [|c4 [|c5 s]]]]]; cbn;
    try (split; discriminate).
  split; intros H; inversion H as [[H1 H2 H3 H4]]; f_equal;
    repeat (f_equal;
            first [ now apply upper_S | now apply upper_E | now apply upper_N
                  | now apply upper_T | idtac ]).
Qed.

(** *** Selecting the pending rows *)

Lemma cell_or_empty_at (r : row) (k : option nat) :
  cell_or_empty r (Z.of_nat <$> k) = Return (status_cell r k).
Proof.
  destruct k as [k|]; [|reflexivity]. cbn.
  destruct (Z.ltb_spec (Z.of_nat k) (Z.of_nat (length r))) as [Hlt|Hge].
  - unfold index. destruct (Z.ltb_spec (Z.of_nat k) 0); [lia|].
    destruct (Z.leb_spec 0 (Z.of_nat k)); [|lia].
    rewrite Nat2Z.id.
    destruct (r !! k) eqn:Hk; [reflexivity|].
    apply lookup_ge_None in Hk. lia.
  - rewrite (proj2 (lookup_ge_None r k)); [reflexivity | lia].
Qed.

Lemma rows_loop_filter (k : option nat) rows :
  forall i targets,
    rows_loop (Z.of_nat <$> k) i rows targets =
    Return (targets ++ List.filter (fun p => pending k p.2) (numbered i rows)).
Proof.
  induction rows as [|r rows IH]; intros i targets; cbn [rows_loop numbered].
  - cbn. now rewrite app_nil_r.
  - rewrite cell_or_empty_at. cbn [rbind List.filter].
    unfold pending at 1. cbn [snd]. rewrite <- any_text_blank.
    destruct (String.eqb (upper (strip (status_cell r k))) "SENT"); cbn [negb andb].
    + apply IH.
    + destruct (any_text r); cbn [negb].
      * rewrite IH. now rewrite <- app_assoc.
      * apply IH.
Qed.

Lemma In_numbered i r rows :
  forall i0, In (i, r) (numbered i0 rows) <->
             i0 <= i /\ rows !! Z.to_nat (i - i0) = Some r.
Proof.
  induction rows as [|r0 rows IH]; intros i0; cbn [numbered In].
  - split; [done | intros [_ H]; discriminate H].
  - rewrite IH. split.
    + intros [[= <- <-] | [Hle Hr]].
      * split; [lia|]. now rewrite Z.sub_diag.
      * split; [lia|]. replace (Z.to_nat (i - i0)) with (S (Z.to_nat (i - (i0 + 1)))) by lia.
        exact Hr.
    + intros [Hle Hr]. destruct (Z.eq_dec i i0) as [->|Hne].
      * left. rewrite Z.sub_diag in Hr. change (Z.to_nat 0) with 0%nat in Hr.
        cbn in Hr. now inversion Hr.
      * right. split; [lia|].
        replace (Z.to_nat (i - i0)) with (S (Z.to_nat (i - (i0 + 1)))) in Hr by lia.
        exact Hr.
Qed.

Lemma status_text_not_blank (r : row) k :
  strip (status_cell r k) <> "" -> blank_row r = false.
Proof.
  intros Hs. destruct k as [k|]; [|now cbn in Hs]. cbn in Hs.
  destruct (r !! k) as [cell|] eqn:Hk; [|now cbn in Hs]. cbn in Hs.
  apply not_true_is_false. intros Hb. unfold blank_row in Hb.
  rewrite forallb_forall in Hb.
  apply Hs, strip_empty, Hb, list_elem_of_In, list_elem_of_lookup. eauto.
Qed.

Lemma rows_to_send_filter (values : list row) (k : option nat) :
  rows_to_send values (Z.of_nat <$> k) =
  Return (List.filter (fun p => pending k p.2) (numbered 2 (drop 1 values))).
Proof. unfold rows_to_send. now rewrite rows_loop_filter. Qed.

Lemma selected_iff (values : list row) (k : option nat) i r :
  In (i, r) (List.filter (fun p => pending k p.2) (numbered 2 (drop 1 values)))
  <-> 2 <= i /\ values !! Z.to_nat (i - 1) = Some r
      /\ ~ same_ignoring_case (strip (status_cell r k)) "SENT"
      /\ blank_row r = false.
Proof.
  rewrite List.filter_In, In_numbered, lookup_drop. cbn [snd].
  unfold pending. rewrite andb_true_iff, !negb_true_iff.
  rewrite <- upper_SENT.
  destruct (String.eqb_spec (upper (strip (status_cell r k))) "SENT").
  - split; [intros (_ & H & _); discriminate H | intros (_ & _ & H & _); done].
  - split.
    + intros ((Hle & Hr) & _ & Hb). repeat split; auto.
      rewrite <- Hr. f_equal. lia.
    + intros (Hle & Hr & _ & Hb). repeat split; auto.
      rewrite <- Hr. f_equal. lia.
Qed.

(** C4. For the status column at any position (or none), [rows_to_send]
    selects the data rows, in the order of the sheet, whose status cell,
    stripped and compared up to case, is not ["SENT"] and that are not
    entirely blank, and no other row: an entirely blank row is never
    selected, and a row whose status is ["FAILED"] is selected again. *)
Theorem rows_to_send_selects (values : list row) (k : option nat) :
  exists targets,
    rows_to_send values (Z.of_nat <$> k) = Return targets
    /\ targets = List.filter (fun p => pending k p.2) (numbered 2 (drop 1 values))
    /\ (forall i r,
          In (i, r) targets <->
          2 <= i /\ values !! Z.to_nat (i - 1) = Some r
          /\ ~ same_ignoring_case (strip (status_cell r k)) "SENT"
          /\ blank_row r = false)
    /\ (forall i r, blank_row r = true -> ~ In (i, r) targets)
    /\ (forall i r,
          2 <= i -> values !! Z.to_nat (i - 1) = Some r ->
          upper (strip (status_cell r k)) = "FAILED" ->
          In (i, r) targets).
Proof.
  eexists. split; [apply rows_to_send_filter|]. split; [reflexivity|].
  split; [apply selected_iff|]. split.
  - intros i r Hb Hi. apply selected_iff in Hi as (_ & _ & _ & Hb'). congruence.
  - intros i r Hle Hr Hf. apply selected_iff. repeat split; auto.
    + rewrite <- upper_SENT, Hf. discriminate.
    + apply (status_text_not_blank r k). intros He.
      rewrite He in Hf. discriminate Hf.
Qed.

Example rows_to_send_after_run :
  rows_to_send SmsSamples.sheet_after_run (Some 2) =
    Return [(3, SmsSamples.row_failed); (5, SmsSamples.row_new)].
Proof. vm_compute. reflexivity. Qed.

(** C5 (amended). A row whose stored status, stripped and up to case, is
    ["SENT"] is selected by no later call of [rows_to_send], whatever else
    the sheet holds by then. (A row whose status is ["FAILED"] is selected
    again.) *)
Theorem sent_rows_excluded (values : list row) (k : option nat) targets i r :
  rows_to_send values (Z.of_nat <$> k) = Return targets ->
  same_ignoring_case (strip (status_cell r k)) "SENT" ->
  ~ In (i, r) targets.
Proof.
  intros Hrun Hsent Hin. rewrite rows_to_send_filter in Hrun.
  inversion Hrun; subst targets.
  apply selected_iff in Hin as (_ & _ & Hns & _). now apply Hns.
Qed.

Lemma sent_rows_excluded_witness :
  same_ignoring_case (strip (status_cell SmsSamples.row_sent_padded (Some 2%nat)))
    "SENT"
  /\ ~ In (6, SmsSamples.row_sent_padded)
         [(3, SmsSamples.row_failed); (5, SmsSamples.row_new)].
Proof.
  split; [reflexivity|].
  apply (sent_rows_excluded SmsSamples.sheet_after_run (Some 2%nat)).
  - vm_compute. reflexivity.
  - reflexivity.
Defined.

(** The claim as stated fails for the status ["FAILED"]: row 3 of the
    sample sheet holds it and is selected. *)
Lemma sent_rows_excluded_counterexample :
  upper (strip (status_cell SmsSamples.row_failed (Some 2%nat))) = "FAILED"
  /\ exists targets,
      rows_to_send SmsSamples.sheet_after_run (Some 2) = Return targets
      /\ In (3, SmsSamples.row_failed) targets.
Proof.
  split; [reflexivity|]. eexists. split; [vm_compute; reflexivity|].
  left. reflexivity.
Qed.

(** *** Sending and marking *)




Lemma flushed_concat t : flushed t = concat (flushed_groups t).
Proof.
  induction t as [|e t IH]; [done|]. destruct e; cbn; now rewrite ?IH.
Qed.











(** *** Flushing *)

Lemma py_range_groups {A} (lst : list A) (step : nat) :
  (1 <= step)%nat ->
  forall fuel i,
    (length lst - i <= fuel)%nat ->
    concat (List.map (fun i => slice lst i (i + step))
              (py_range fuel i (length lst) step)) = drop i lst
    /\ Forall (fun g : list A => (1 <= length g <= step)%nat)
         (List.map (fun i => slice lst i (i + step))
            (py_range fuel i (length lst) step)).
Proof.
  intros Hstep. induction fuel as [|fuel IH]; intros i Hfuel.
  - cbn. split; [|constructor]. symmetry. apply drop_ge. lia.
  - cbn [py_range]. destruct (Nat.ltb_spec i (length lst)) as [Hlt|Hge].
    + cbn [List.map concat]. destruct (IH (i + step)%nat) as [Hc Hf]; [lia|].
      rewrite Hc. unfold slice.
      replace (i + step - i)%nat with step by lia. split.
      * rewrite <- (take_drop step (drop i lst)) at 2.
        now rewrite drop_drop.
      * constructor; [|exact Hf].
        rewrite length_take, length_drop. lia.
    + cbn. split; [|constructor]. symmetry. apply drop_ge. lia.
Qed.

(** [chunk(updates, 100)] cuts the list into groups of 1 to 100 updates
    and loses none. *)
Lemma chunk_100 {A} (lst : list A) :
  exists groups,
    chunk lst 100 = Return groups
    /\ concat groups = lst
    /\ Forall (fun g : list A => (1 <= length g <= 100)%nat) groups.
Proof.
  eexists. split; [reflexivity|].
  destruct (py_range_groups lst (Pos.to_nat 100) ltac:(lia) (length lst) 0%nat
              ltac:(lia)) as [Hc Hf].
  split; [exact Hc|]. exact Hf.
Qed.

Lemma batch_update_run group (w : world) h :
  batch_update group w h =
  (match sheet w h group with Some e => Raise e | None => Return tt end,
   [EBatchUpdate group (sheet w h group)]).
Proof.
  unfold batch_update, bind, ask. now destruct (sheet w h group).
Qed.

(** The flushes go group by group and stop at the first one the sheet
    refuses, whose exception is the result. *)
Lemma flush_groups_run groups :
  forall (w : world) h r t,
    flush_groups groups w h = (r, t) ->
    (exists n, flushed_groups t = take n groups)
    /\ match r with
       | Return _ => flushed_groups t = groups /\ Forall accepted_flush t
       | Raise e =>
           exists pre group,
             t = pre ++ [EBatchUpdate group (Some e)]
             /\ Forall accepted_flush pre
             /\ groups !! length pre = Some group
       | OutOfFuel => False
       end.
Proof.
  induction groups as [|g groups IH]; intros w h r t Hrun.
  - cbn in Hrun. inversion Hrun; subst. split; [now exists 0%nat|].
    split; [reflexivity | constructor].
  - cbn [flush_groups] in Hrun. unfold bind at 1 in Hrun.
    rewrite batch_update_run in Hrun.
    destruct (sheet w h g) as [e|] eqn:Hs.
    + inversion Hrun; subst. split; [now exists 1%nat|].
      exists [], g. repeat split; auto.
    + destruct (flush_groups groups w _) as [r2 t2] eqn:Hrec.
      inversion Hrun; subst. apply IH in Hrec as [[n Hn] Hr].
      split; [exists (S n); cbn; now rewrite Hn|].
      destruct r as [[]|e|]; [| |done].
      * destruct Hr as [Hg Hall]. split; [cbn; now rewrite Hg|].
        constructor; [now exists g | exact Hall].
      * destruct Hr as (pre & group & -> & Hall & Hgroup).
        exists (EBatchUpdate g None :: pre), group. repeat split; auto.
        constructor; [now exists g | exact Hall].
Qed.

(** [flush] is [flush_groups] on the groups of [chunk]. *)
Lemma flush_unfold updates groups (w : world) h :
  chunk updates 100 = Return groups ->
  flush updates w h = flush_groups groups w h.
Proof.
  intros Hc. unfold flush. rewrite Hc.
  erewrite bind_Return by reflexivity. rewrite app_nil_r. cbn [app].
  now destruct (flush_groups groups w h).
Qed.




(** *** The cap *)


Lemma concat_take_prefix {A} (groups : list (list A)) n :
  exists m, concat (take n groups) = take m (concat groups).
Proof.
  exists (length (concat (take n groups))).
  assert (H : concat groups
              = concat (take n groups) ++ concat (drop n groups))
    by now rewrite <- concat_app, take_drop.
  rewrite H. now rewrite take_app_length.
Qed.


End SmsFacts.

(** ** More on the dialer *)
Module ServiceFacts.
Import EffFacts.
Import Py Eff Dialer Service.

Lemma get_attempts_ok (d : dict) n :
  get (<["attempts" := PInt n]> d) "ok" = get d "ok".
Proof. unfold get. now rewrite lookup_insert_ne. Qed.

Lemma get_index_ok (d : dict) n :
  get (<["index" := PInt n]> d) "ok" = get d "ok".
Proof. unfold get. now rewrite lookup_insert_ne. Qed.

Lemma last_or_unknown_failed last :
  last_failed last -> truthy (get (last_or_unknown last) "ok") = false.
Proof.
  destruct last as [d|]; cbn; [|reflexivity].
  intros H. now destruct (decide (d = ∅)).
Qed.

Lemma success_count_app t1 t2 :
  success_count (t1 ++ t2) = (success_count t1 + success_count t2)%nat.
Proof. unfold success_count. now rewrite List.filter_app, length_app. Qed.

Lemma all_failed_count t : all_failed t = true -> success_count t = 0%nat.
Proof.
  unfold success_count, all_failed. induction t as [|e t IH]; [done|]. cbn.
  intros [He H]%andb_true_iff. apply negb_true_iff in He. rewrite He. auto.
Qed.

(** What the loop returns tells whether a call was placed: an outcome
    whose [ok] holds comes with one successful call of the provider, the
    last event; any other outcome comes with none. *)
Lemma retry_run_outcome src item retries backoff (w : sdk)
    attempts last h r t :
  retry_run src item retries backoff w attempts last h r t ->
  last_failed last ->
  forall d, r = Return d ->
    (truthy (get d "ok") = true
     /\ exists pre ev, t = pre ++ [ev] /\ is_success ev = true
                       /\ all_failed pre = true)
    \/ (truthy (get d "ok") = false /\ all_failed t = true).
Proof.
  induction 1 as
    [a last h Ha | a last h e t Ha Hd | a last h d t Ha Hd Hok
    | a last h d t e Ha Hd Hok Hov | a last h d t secs e Ha Hd Hok Hdel Hs
    | a last h d t secs r' t' Ha Hd Hok Hdel Hs Hrec IH];
    intros Hlast d' Hr; try discriminate Hr.
  - right. inversion Hr; subst. rewrite get_attempts_ok.
    split; [now apply last_or_unknown_failed | reflexivity].
  - left. inversion Hr; subst. rewrite get_attempts_ok. split; [exact Hok|].
    apply DialerFacts.dial_once_inv in Hd as (t0 & -> & Hsh).
    inversion Hsh; subst; try congruence.
    eexists [EDialOnce item], _. repeat split.
  - apply DialerFacts.dial_once_inv in Hd as (t0 & -> & Hsh).
    pose proof (DialerFacts.attempt_failed_events _ _ Hsh Hok) as Hf.
    destruct (IH Hok d' Hr) as [(Hok' & pre & ev & -> & Hev & Hpre) | (Hok' & Hall)].
    + left. split; [exact Hok'|].
      exists ((EDialOnce item :: t0) ++ ESleep Backoff secs :: pre), ev.
      split; [now rewrite <- app_assoc|]. split; [exact Hev|].
      rewrite DialerFacts.all_failed_app. unfold all_failed in *. cbn.
      now rewrite Hf, Hpre.
    + right. split; [exact Hok'|].
      rewrite DialerFacts.all_failed_app. unfold all_failed in *. cbn.
      now rewrite Hf, Hall.
Qed.

Lemma dial_with_retries_outcome src item retries backoff (w : sdk) h d t :
  dial_with_retries src item retries backoff w h = (Return d, t) ->
  (truthy (get d "ok") = true /\ success_count t = 1%nat
   /\ exists pre ev, t = pre ++ [ev] /\ is_success ev = true)
  \/ (truthy (get d "ok") = false /\ success_count t = 0%nat).
Proof.
  intros Hrun. apply DialerFacts.dial_with_retries_run in Hrun.
  destruct (retry_run_outcome _ _ _ _ _ _ _ _ _ _ Hrun I d eq_refl)
    as [(Hok & pre & ev & -> & Hev & Hpre) | (Hok & Hall)].
  - left. split; [exact Hok|]. split; [|eauto].
    rewrite success_count_app, (all_failed_count _ Hpre).
    unfold success_count. cbn. now rewrite Hev.
  - right. split; [exact Hok|]. now apply all_failed_count.
Qed.

(** X1. [api_call_single] answers 200 exactly when a call was placed: with
    200 the body has a true [ok] and the trace holds one successful call
    of the provider, its last event; otherwise the status is 400, [ok] is
    false and no call of the provider succeeded. *)
Theorem api_call_single_status src data retries backoff (w : sdk) h
    body code t :
  api_call_single src data retries backoff w h = (Return (body, code), t) ->
  (code = 200 /\ truthy (get body "ok") = true /\ success_count t = 1%nat
   /\ exists pre ev, t = pre ++ [ev] /\ is_success ev = true)
  \/ (code = 400 /\ truthy (get body "ok") = false
      /\ success_count t = 0%nat).
Proof.
  unfold api_call_single. intros Hrun.
  destruct (dial_with_retries src data retries backoff w h)
    as [[d|e|] t1] eqn:Hd.
  - erewrite bind_Return in Hrun by exact Hd. cbn in Hrun.
    rewrite app_nil_r in Hrun. inversion Hrun; subst.
    destruct (dial_with_retries_outcome _ _ _ _ _ _ _ _ Hd)
      as [(Hok & Hc & Hlast) | (Hok & Hc)]; rewrite Hok; auto.
  - erewrite bind_Raise in Hrun by exact Hd. discriminate Hrun.
  - erewrite bind_OutOfFuel in Hrun by exact Hd. discriminate Hrun.
Qed.

Lemma api_call_single_status_witness :
  let call answer :=
    EOutboundCall Twilio (PStr "agent_1") (PStr "phone_1")
      (PStr "+15551234567") answer in
  let busy := SdkRaises (Exn "ApiError" "status_code: 429") in
  let reply := SdkReply (PStr "conv_1") (PStr "CA1") PNone in
  let body := <["attempts" := PInt 3]> (success Twilio false reply) in
  let t := [EDialOnce Samples.item_ok; call busy; ESleep Backoff 2%float;
            EDialOnce Samples.item_ok; call busy; ESleep Backoff 4%float;
            EDialOnce Samples.item_ok; call (SdkReturns reply)] in
  api_call_single AppPy Samples.item_ok 2 2%float Samples.rejects_twice []
  = (Return (body, 200), t)
  /\ ((200 = 200 /\ truthy (get body "ok") = true /\ success_count t = 1%nat
       /\ exists pre ev, t = pre ++ [ev] /\ is_success ev = true)
      \/ (200 = 400 /\ truthy (get body "ok") = false
          /\ success_count t = 0%nat)).
Proof.
  intros call busy reply body t.
  assert (Hrun : api_call_single AppPy Samples.item_ok 2 2%float
                   Samples.rejects_twice [] = (Return (body, 200), t))
    by (vm_compute; reflexivity).
  split; [exact Hrun|].
  exact (api_call_single_status _ _ _ _ _ _ _ _ _ Hrun).
Defined.

Lemma ok_count_snoc results (d : dict) :
  ok_count (results ++ [d])
  = ok_count results + (if truthy (get d "ok") then 1 else 0).
Proof.
  unfold ok_count. rewrite List.filter_app, length_app. cbn.
  destruct (truthy (get d "ok")); cbn; lia.
Qed.

Lemma batch_loop_success src n delay retries backoff (w : sdk) rest :
  forall i results h out t,
    batch_loop src n delay retries backoff i rest results w h
    = (Return out, t) ->
    ok_count out = ok_count results + Z.of_nat (success_count t)
    /\ (success_count t <= length rest)%nat.
Proof.
  induction rest as [|item rest IH]; intros i results h out t Hrun.
  - cbn in Hrun. inversion Hrun; subst. cbn. split; lia.
  - rewrite DialerFacts.batch_loop_step in Hrun.
    destruct (dial_with_retries src item retries backoff w h)
      as [[res|e|] t1] eqn:Hd; try discriminate Hrun.
    cbn zeta in Hrun.
    assert (Hone : Z.of_nat (success_count t1)
                   = (if truthy (get res "ok") then 1 else 0)
                   /\ (success_count t1 <= 1)%nat).
    { destruct (dial_with_retries_outcome _ _ _ _ _ _ _ _ Hd)
        as [(Hok & Hc & _) | (Hok & Hc)]; rewrite Hok, Hc; split; lia. }
    destruct Hone as [Hone Hle].
    assert (Hmid : exists mid t2,
              t = t1 ++ mid ++ t2 /\ success_count mid = 0%nat
              /\ exists h', batch_loop src n delay retries backoff (i + 1) rest
                   (results ++ [<["index" := PInt i]> res]) w h'
                   = (Return out, t2)).
    { destruct (PrimFloat.ltb 0 delay && (i <? n)%Z).
      - destruct (sleep_error delay); [discriminate Hrun|].
        destruct (batch_loop _ _ _ _ _ _ _ _ _ _) as [r2 t2] eqn:Hrec.
        inversion Hrun; subst. exists [ESleep Pacing delay], t2. eauto.
      - destruct (batch_loop _ _ _ _ _ _ _ _ _ _) as [r2 t2] eqn:Hrec.
        inversion Hrun; subst. exists [], t2. eauto. }
    destruct Hmid as (mid & t2 & -> & Hmid & h' & Hrec).
    apply IH in Hrec as [Hc Hl].
    rewrite !success_count_app, Hmid. rewrite Hc, ok_count_snoc, get_index_ok.
    cbn [length]. split; lia.
Qed.

(** X2. In the summary of [api_call_batch], [successes] is the number of
    calls of the provider that succeeded during the batch, no more than
    one for an item; [total] is the number of items and the status is
    200. *)
Theorem api_call_batch_successes src items delay retries backoff (w : sdk) h
    total successes results code t :
  api_call_batch src items delay retries backoff w h
  = (Return (BatchSummary total successes results, code), t) ->
  code = 200
  /\ total = Z.of_nat (length items)
  /\ successes = Z.of_nat (success_count t)
  /\ 0 <= successes <= total.
Proof.
  unfold api_call_batch. intros Hrun.
  destruct items as [|item0 items0] eqn:Hitems; [discriminate Hrun|].
  rewrite <- Hitems in *.
  destruct (batch_loop src (Z.of_nat (length items)) delay retries backoff 1
              items [] w h) as [[out|e|] t1] eqn:Hloop.
  - erewrite bind_Return in Hrun by exact Hloop. cbn in Hrun.
    rewrite app_nil_r in Hrun. inversion Hrun; subst.
    apply batch_loop_success in Hloop as [Hc Hl].
    unfold ok_count in Hc. cbn [List.filter length] in Hc.
    repeat split; lia.
  - erewrite bind_Raise in Hrun by exact Hloop. discriminate Hrun.
  - erewrite bind_OutOfFuel in Hrun by exact Hloop. discriminate Hrun.
Qed.

Lemma api_call_batch_successes_witness :
  exists results t,
    api_call_batch AppPy Samples.batch_of_two 0%float 0 2%float
      Samples.answers []
    = (Return (BatchSummary 2 1 results, 200), t)
    /\ 1 = Z.of_nat (success_count t).
Proof.
  eexists
    [<["index" := PInt 1]> (<["attempts" := PInt 1]>
       (success Twilio false (SdkReply (PStr "conv_1") (PStr "CA1") PNone)));
     <["index" := PInt 2]> (<["attempts" := PInt 1]>
       (failure "Missing fields: to_number"))],
    [EDialOnce Samples.item_ok;
     EOutboundCall Twilio (PStr "agent_1") (PStr "phone_1")
       (PStr "+15551234567")
       (SdkReturns (SdkReply (PStr "conv_1") (PStr "CA1") PNone));
     EDialOnce Samples.item_no_number; ESleep Backoff 2%float].
  match goal with |- ?run = ?out /\ _ =>
    assert (Hrun : run = out) by (vm_compute; reflexivity) end.
  split; [exact Hrun|].
  exact (proj1 (proj2 (proj2 (api_call_batch_successes _ _ _ _ _ _ _ _ _ _ _ _ Hrun)))).
Defined.

Lemma network_count_app t1 t2 :
  network_count (t1 ++ t2) = (network_count t1 + network_count t2)%nat.
Proof. unfold network_count. now rewrite List.filter_app, length_app. Qed.

Lemma attempt_shape_network r t :
  attempt_shape r t -> (network_count t <= 1)%nat.
Proof. destruct 1; cbn; lia. Qed.

(** An attempt calls the provider at most once. *)
Lemma retry_run_network src item retries backoff (w : sdk)
    attempts last h r t :
  retry_run src item retries backoff w attempts last h r t ->
  (network_count t <= dial_count t)%nat.
Proof.
  induction 1 as
    [a last h Ha | a last h e t Ha Hd | a last h d t Ha Hd Hok
    | a last h d t e Ha Hd Hok Hov | a last h d t secs e Ha Hd Hok Hdel Hs
    | a last h d t secs r' t' Ha Hd Hok Hdel Hs Hrec IH];
    [cbn; lia | ..];
    apply DialerFacts.dial_once_inv in Hd as (t0 & -> & Hsh);
    pose proof (attempt_shape_network _ _ Hsh) as Hn;
    pose proof (DialerFacts.attempt_shape_count _ _ Hsh) as Hc;
    rewrite ?network_count_app, ?DialerFacts.dial_count_app;
    change (network_count (EDialOnce item :: t0)) with (network_count t0);
    change (dial_count (EDialOnce item :: t0)) with (S (dial_count t0));
    try change (network_count (ESleep Backoff secs :: t'))
      with (network_count t');
    try change (dial_count (ESleep Backoff secs :: t')) with (dial_count t');
    try change (network_count [ESleep Backoff secs]) with 0%nat;
    try change (dial_count [ESleep Backoff secs]) with 0%nat;
    lia.
Qed.

Lemma dial_with_retries_bound src item retries backoff (w : sdk) h r t :
  0 <= retries ->
  dial_with_retries src item retries backoff w h = (r, t) ->
  Z.of_nat (dial_count t) <= retries + 1
  /\ (network_count t <= dial_count t)%nat.
Proof.
  intros Hr Hrun. apply DialerFacts.dial_with_retries_run in Hrun.
  split; [|eapply retry_run_network; eauto].
  destruct (DialerFacts.retry_run_count _ _ _ _ _ _ _ _ _ _ Hrun) as (H & _).
  lia.
Qed.

Lemma batch_loop_bound src n delay retries backoff (w : sdk) rest :
  0 <= retries ->
  forall i results h r t,
    batch_loop src n delay retries backoff i rest results w h = (r, t) ->
    Z.of_nat (dial_count t) <= Z.of_nat (length rest) * (retries + 1)
    /\ (network_count t <= dial_count t)%nat.
Proof.
  intros Hr. induction rest as [|item rest IH]; intros i results h r t Hrun.
  - cbn in Hrun. inversion Hrun; subst. cbn. lia.
  - rewrite DialerFacts.batch_loop_step in Hrun.
    destruct (dial_with_retries src item retries backoff w h)
      as [[res|e|] t1] eqn:Hd;
      destruct (dial_with_retries_bound _ _ _ _ _ _ _ _ Hr Hd) as [Hb Hn].
    2,3: inversion Hrun; subst; cbn [length]; split; [nia | exact Hn].
    cbn zeta in Hrun.
    assert (Hmid : exists mid t2,
              t = t1 ++ mid ++ t2
              /\ dial_count mid = 0%nat /\ network_count mid = 0%nat
              /\ Z.of_nat (dial_count t2)
                 <= Z.of_nat (length rest) * (retries + 1)
              /\ (network_count t2 <= dial_count t2)%nat).
    { destruct (PrimFloat.ltb 0 delay && (i <? n)%Z).
      - destruct (sleep_error delay).
        + inversion Hrun; subst. exists [ESleep Pacing delay], [].
          cbn. repeat split; try lia.
        + destruct (batch_loop _ _ _ _ _ _ _ _ _ _) as [r2 t2] eqn:Hrec.
          inversion Hrun; subst. apply IH in Hrec as [H1 H2].
          exists [ESleep Pacing delay], t2. repeat split; auto.
      - destruct (batch_loop _ _ _ _ _ _ _ _ _ _) as [r2 t2] eqn:Hrec.
        inversion Hrun; subst. apply IH in Hrec as [H1 H2].
        exists [], t2. repeat split; auto. }
    destruct Hmid as (mid & t2 & -> & Hm1 & Hm2 & H1 & H2).
    rewrite !DialerFacts.dial_count_app, !network_count_app, Hm1, Hm2.
    cbn [length]. split; nia.
Qed.

(** X3. With [retries >= 0], a batch of [n] items calls [dial_once] at
    most [n * (retries + 1)] times, and the provider no more often than
    [dial_once], however the batch ends. *)
Theorem api_call_batch_bound src items delay retries backoff (w : sdk) h r t :
  0 <= retries ->
  api_call_batch src items delay retries backoff w h = (r, t) ->
  Z.of_nat (dial_count t) <= Z.of_nat (length items) * (retries + 1)
  /\ (network_count t <= dial_count t)%nat.
Proof.
  intros Hr Hrun. unfold api_call_batch in Hrun.
  destruct items as [|item0 items0] eqn:Hitems.
  { inversion Hrun; subst. cbn. lia. }
  rewrite <- Hitems in *.
  destruct (batch_loop src (Z.of_nat (length items)) delay retries backoff 1
              items [] w h) as [r1 t1] eqn:Hloop.
  apply (batch_loop_bound _ _ _ _ _ _ _ Hr) in Hloop as Hb.
  destruct r1 as [out|e|].
  - erewrite bind_Return in Hrun by exact Hloop. cbn in Hrun.
    rewrite app_nil_r in Hrun. now inversion Hrun; subst.
  - erewrite bind_Raise in Hrun by exact Hloop. now inversion Hrun; subst.
  - erewrite bind_OutOfFuel in Hrun by exact Hloop. now inversion Hrun; subst.
Qed.

Lemma api_call_batch_bound_witness :
  let run := api_call_batch AppPy Samples.batch_of_three 1%float 2 2%float
               Samples.rejects [] in
  0 <= 2
  /\ Z.of_nat (dial_count run.2)
     <= Z.of_nat (length Samples.batch_of_three) * (2 + 1)
  /\ (network_count run.2 <= dial_count run.2)%nat.
Proof.
  intros run. split; [lia|].
  apply (api_call_batch_bound AppPy Samples.batch_of_three 1%float 2 2%float
           Samples.rejects [] run.1 run.2); [lia|].
  apply surjective_pairing.
Defined.

(** *** Items that fail validation *)

Lemma dial_once_invalid src item (w : sdk) h :
  provider_is_text item = true ->
  missing_fields item <> [] ->
  dial_once src item w h =
    (Return (failure ("Missing fields: " +:+ join ", " (missing_fields item))),
     [EDialOnce item]).
Proof.
  intros Hp Hm. rewrite DialerFacts.dial_once_run.
  unfold provider_is_text in Hp. destruct (py_or _ _); try discriminate.
  now destruct (missing_fields item).
Qed.

Lemma retry_run_invalid src item retries backoff (w : sdk)
    attempts last h r t :
  provider_is_text item = true ->
  missing_fields item <> [] ->
  retry_run src item retries backoff w attempts last h r t ->
  network_count t = 0%nat
  /\ (forall d, r = Return d -> length (sleeps t) = dial_count t).
Proof.
  intros Hp Hm. induction 1 as
    [a last h Ha | a last h e t Ha Hd | a last h d t Ha Hd Hok
    | a last h d t e Ha Hd Hok Hov | a last h d t secs e Ha Hd Hok Hdel Hs
    | a last h d t secs r' t' Ha Hd Hok Hdel Hs Hrec IH];
    try (rewrite (dial_once_invalid _ _ _ _ Hp Hm) in Hd;
         inversion Hd; subst).
  - split; [reflexivity|]. intros _ _. reflexivity.
  - rewrite DialerFacts.failure_ok in Hok. discriminate Hok.
  - split; [reflexivity | discriminate].
  - split; [reflexivity | discriminate].
  - destruct IH as [IH1 IH2]. split.
    + cbn. exact IH1.
    + intros d' Hr. cbn. f_equal. now apply (IH2 d').
Qed.

(** X4. An item that fails validation is not set aside: with
    [retries >= 0] it is attempted [retries + 1] times, each attempt
    failing on the missing fields without a call of the provider and
    followed by a backoff sleep; the outcome is the validation failure
    with [attempts = retries + 1]. *)
Theorem invalid_item_retried src item retries backoff (w : sdk) h :
  provider_is_text item = true ->
  missing_fields item <> [] ->
  0 <= retries ->
  backoff_accepted backoff retries ->
  exists t,
    dial_with_retries src item retries backoff w h =
      (Return (<["attempts" := PInt (retries + 1)]>
                 (failure ("Missing fields: "
                           +:+ join ", " (missing_fields item)))), t)
    /\ Z.of_nat (dial_count t) = retries + 1
    /\ network_count t = 0%nat
    /\ Z.of_nat (length (sleeps t)) = retries + 1.
Proof.
  intros Hp Hm Hr Hb.
  destruct (DialerFacts.dial_with_retries_returns src item retries backoff w h
              Hp Hb) as (res & t & Hrun).
  exists t. apply DialerFacts.dial_with_retries_run in Hrun as Hrr.
  destruct (retry_run_invalid _ _ _ _ _ _ _ _ _ _ Hp Hm Hrr) as [Hnet Hsl].
  specialize (Hsl res eq_refl).
  assert (Hfail : all_failed t = true).
  { unfold network_count in Hnet. unfold all_failed.
    clear -Hnet. induction t as [|e t IH]; [done|].
    destruct e as [| ? ? ? ? []|]; cbn in *; try discriminate; auto. }
  destruct (DialerFacts.retry_run_last_failure _ _ _ _ _ _ _ _ _ _ Hrr res
              eq_refl Hfail)
    as [(Hgt & _) | (_ & pre & d & td & secs & Ht & Hd & _ & _ & Hres)];
    [lia|].
  rewrite (dial_once_invalid _ _ _ _ Hp Hm) in Hd. inversion Hd; subst d td.
  destruct (DialerFacts.retry_run_count _ _ _ _ _ _ _ _ _ _ Hrr)
    as (_ & _ & Hat & _).
  specialize (Hat res eq_refl). rewrite Hres in Hat. unfold get in Hat.
  rewrite lookup_insert_eq in Hat. cbn in Hat. inversion Hat as [Hcount].
  rewrite Hrun, Hres. repeat split; auto; lia.
Qed.

Lemma invalid_item_retried_witness :
  provider_is_text Samples.item_no_number = true
  /\ missing_fields Samples.item_no_number = ["to_number"]
  /\ exists t,
      dial_with_retries AppPy Samples.item_no_number 2 2%float
        Samples.answers [] =
        (Return (<["attempts" := PInt (2 + 1)]>
                   (failure ("Missing fields: "
                             +:+ join ", "
                                   (missing_fields Samples.item_no_number)))),
         t)
      /\ Z.of_nat (dial_count t) = 2 + 1
      /\ network_count t = 0%nat
      /\ Z.of_nat (length (sleeps t)) = 2 + 1.
Proof.
  split; [reflexivity|]. split; [reflexivity|].
  apply (invalid_item_retried AppPy Samples.item_no_number 2 2%float
           Samples.answers []).
  - reflexivity.
  - discriminate.
  - lia.
  - exact DialerFacts.backoff_accepted_2_2.
Defined.

End ServiceFacts.

(** ** [_pick] *)
Module PickFacts.
Import Py Pick.

Lemma present_None (d : dict) k :
  present d k = None <-> d !! k = None \/ d !! k = Some PNone.
Proof.
  unfold present. destruct (d !! k) as [[]|]; split; intros H; auto;
    try discriminate; destruct H as [H|H]; discriminate H.
Qed.

Lemma present_Some (d : dict) k v :
  present d k = Some v <-> d !! k = Some v /\ v <> PNone.
Proof.
  unfold present. destruct (d !! k) as [[]|]; split;
    try (intros [= <-]; split; [reflexivity | discriminate]);
    try (intros [[= <-] H]; first [reflexivity | now destruct H]);
    try discriminate; intros [H _]; discriminate H.
Qed.

Lemma In_alternatives o k alt :
  In alt (alternatives o k) <-> alt = snake k \/ alt = camel k.
Proof.
  unfold alternatives. destruct (String.eqb_spec (snake k) (camel k)) as [He|Hne].
  - cbn. rewrite <- He. intuition.
  - destruct (o (snake k) (camel k)); cbn; intuition.
Qed.

Lemma first_present_Some (d : dict) ks v :
  first_present d ks = Some v ->
  exists k, In k ks /\ d !! k = Some v /\ v <> PNone.
Proof.
  induction ks as [|k ks IH]; cbn; [discriminate|].
  destruct (present d k) as [v'|] eqn:Hp.
  - intros [= <-]. apply present_Some in Hp. exists k. intuition.
  - intros H. destruct (IH H) as (k' & Hin & Hk). exists k'. intuition.
Qed.

Lemma first_present_None (d : dict) ks :
  first_present d ks = None <-> forall k, In k ks -> present d k = None.
Proof.
  induction ks as [|k ks IH]; cbn; [intuition|].
  destruct (present d k) as [v'|] eqn:Hp.
  - split; [discriminate|]. intros H. rewrite (H k) in Hp by auto. discriminate.
  - rewrite IH. split; [intros H k' [<-|Hin]; auto | auto].
Qed.

Lemma present_insert_None (d : dict) k x :
  present (<[k := PNone]> d) x = present (delete k d) x.
Proof.
  unfold present. destruct (decide (k = x)) as [->|Hne].
  - now rewrite lookup_insert_eq, lookup_delete_eq.
  - now rewrite lookup_insert_ne, lookup_delete_ne.
Qed.

Lemma first_present_insert_None (d : dict) k ks :
  first_present (<[k := PNone]> d) ks = first_present (delete k d) ks.
Proof.
  induction ks as [|x ks IH]; cbn; [done|].
  now rewrite present_insert_None, IH.
Qed.

(** X5. [_pick] returns either the default or a value other than [None]
    that the mapping holds under one of the keys or under the snake or
    camel spelling of one; it returns the default when the mapping holds
    nothing but [None] under all of them; and an entry that holds [None]
    counts as an absent one. This holds for every iteration order of the
    set of spellings. *)
Theorem pick_result o (d : dict) keys dflt :
  (_pick o d keys dflt = dflt
   \/ exists k alt,
       In k keys /\ In alt [k; snake k; camel k]
       /\ d !! alt = Some (_pick o d keys dflt)
       /\ _pick o d keys dflt <> PNone)
  /\ ((forall k alt,
        In k keys -> In alt [k; snake k; camel k] ->
        d !! alt = None \/ d !! alt = Some PNone) ->
      _pick o d keys dflt = dflt)
  /\ (forall k, _pick o (<[k := PNone]> d) keys dflt
                = _pick o (delete k d) keys dflt).
Proof.
  split; [|split].
  - induction keys as [|k keys IH]; cbn [_pick]; [now left|].
    destruct (first_present d (k :: alternatives o k)) as [v|] eqn:Hf.
    + right. apply first_present_Some in Hf as (alt & Hin & Hd & Hv).
      exists k, alt. split; [now left|]. split; [|auto].
      destruct Hin as [<-|Hin]; [now left|].
      apply In_alternatives in Hin as [->| ->]; cbn; auto.
    + destruct IH as [IH | (k' & alt & Hk & Halt & Hd & Hv)]; [now left|].
      right. exists k', alt. split; [now right | auto].
  - induction keys as [|k keys IH]; intros H; cbn [_pick]; [reflexivity|].
    assert (Hf : first_present d (k :: alternatives o k) = None).
    { apply first_present_None. intros alt Hin. apply present_None.
      apply (H k); [now left|].
      destruct Hin as [<-|Hin]; [now left|].
      apply In_alternatives in Hin as [->| ->]; cbn; auto. }
    rewrite Hf. apply IH. intros k' alt Hk. apply H. now right.
  - intros k. induction keys as [|x keys IH]; cbn [_pick]; [reflexivity|].
    now rewrite first_present_insert_None, IH.
Qed.

Lemma first_present_order o1 o2 (d : dict) k :
  snake k = k \/ camel k = k
  \/ present d (snake k) = None \/ present d (camel k) = None
  \/ present d (snake k) = present d (camel k) ->
  first_present d (k :: alternatives o1 k)
  = first_present d (k :: alternatives o2 k).
Proof.
  intros H. cbn [first_present]. destruct (present d k) eqn:Hk; [reflexivity|].
  assert (H' : present d (snake k) = None \/ present d (camel k) = None
               \/ present d (snake k) = present d (camel k)).
  { destruct H as [H|[H|H]]; [left | right; left | exact H]; now rewrite H. }
  clear H. unfold alternatives.
  destruct (String.eqb (snake k) (camel k)); [reflexivity|].
  destruct (o1 (snake k) (camel k)), (o2 (snake k) (camel k));
    cbn [first_present]; try reflexivity;
    destruct H' as [H|[H|H]]; rewrite ?H;
    destruct (present d (snake k)), (present d (camel k));
    congruence.
Qed.

(** X6. The set of the two spellings is iterated in the order of the
    hashes, and the result of [_pick] does not depend on that order as
    long as, for each key, one spelling is the key itself or the mapping
    does not hold two different values under the two spellings. *)
Theorem pick_order o1 o2 (d : dict) keys dflt :
  (forall k, In k keys ->
     snake k = k \/ camel k = k
     \/ present d (snake k) = None \/ present d (camel k) = None
     \/ present d (snake k) = present d (camel k)) ->
  _pick o1 d keys dflt = _pick o2 d keys dflt.
Proof.
  induction keys as [|k keys IH]; intros H; cbn [_pick]; [reflexivity|].
  rewrite (first_present_order o1 o2 d k) by (apply H; now left).
  rewrite IH by (intros k' Hk; apply H; now right). reflexivity.
Qed.

Lemma pick_order_witness :
  _pick (fun _ _ => true)
    (<["call__id" := PStr "a"]> (<["callId" := PStr "a"]> ∅)) ["call_Id"] PNone
  = _pick (fun _ _ => false)
      (<["call__id" := PStr "a"]> (<["callId" := PStr "a"]> ∅)) ["call_Id"]
      PNone.
Proof.
  apply pick_order. intros k [<-|[]]. do 4 right. reflexivity.
Defined.

(** Where the two spellings hold different values and the key itself is
    absent, the order decides. *)
Example pick_order_matters :
  let d : dict :=
    <["call__id" := PStr "snake"]> (<["callId" := PStr "camel"]> ∅) in
  _pick (fun _ _ => true) d ["call_Id"] PNone = PStr "snake"
  /\ _pick (fun _ _ => false) d ["call_Id"] PNone = PStr "camel".
Proof. split; vm_compute; reflexivity. Qed.

(** X7. For the keys [dial_once] asks for, one of the two spellings is
    always the key itself: what [_pick] extracts from a response does not
    depend on the iteration order of the set. *)
Theorem pick_call_sites o1 o2 (d : dict) dflt :
  _pick o1 d conversation_keys dflt = _pick o2 d conversation_keys dflt
  /\ _pick o1 d sip_call_keys dflt = _pick o2 d sip_call_keys dflt
  /\ _pick o1 d call_sid_keys dflt = _pick o2 d call_sid_keys dflt.
Proof.
  unfold conversation_keys, sip_call_keys, call_sid_keys. cbn [_pick].
  assert (Hk : forall k,
            snake k = k \/ camel k = k ->
            first_present d (k :: alternatives o1 k)
            = first_present d (k :: alternatives o2 k)).
  { intros k [H|H]; apply first_present_order; auto. }
  repeat split.
  - rewrite (Hk "conversation_id"), (Hk "conversationId"), (Hk "conversation");
      solve [ reflexivity | left; vm_compute; reflexivity
            | right; vm_compute; reflexivity ].
  - rewrite (Hk "sip_call_id"), (Hk "sipCallId"), (Hk "call_id"), (Hk "sid");
      solve [ reflexivity | left; vm_compute; reflexivity
            | right; vm_compute; reflexivity ].
  - rewrite (Hk "callSid"), (Hk "call_sid"), (Hk "sid"),
      (Hk "twilio_call_sid");
      solve [ reflexivity | left; vm_compute; reflexivity
            | right; vm_compute; reflexivity ].
Qed.

End PickFacts.

(** ** The header of the sheet, [safe_get] and [mask] *)
Module SheetFacts.
Import Py SmsBlast Sheet.

(** *** [find_header_indexes] *)

Lemma header_map_from_lookup header_row :
  forall i (m : gmap string Z) name,
    (exists (j : nat) h,
        header_map_from i header_row m !! name = Some (i + Z.of_nat j)
        /\ header_row !! j = Some h /\ lower (strip h) = name
        /\ forall (j' : nat) h',
             (j < j')%nat -> header_row !! j' = Some h' ->
             lower (strip h') <> name)
    \/ (header_map_from i header_row m !! name = m !! name
        /\ unnamed header_row name).
Proof.
  induction header_row as [|h0 rest IH]; intros i m name; cbn [header_map_from].
  - right. split; [reflexivity|]. intros j h Hj. destruct j; discriminate Hj.
  - destruct (IH (i + 1) (<[lower (strip h0) := i]> m) name)
      as [(j & h & Hl & Hj & Hn & Hlater) | (Hl & Hnone)].
    + left. exists (S j), h. repeat split; auto.
      * rewrite Hl. f_equal. lia.
      * intros [|j'] h' Hlt Hj'; [lia|]. apply (Hlater j'); [lia | exact Hj'].
    + destruct (decide (lower (strip h0) = name)) as [He|Hne].
      * left. exists 0%nat, h0. repeat split; auto.
        -- rewrite Hl, He, lookup_insert_eq. f_equal. lia.
        -- intros [|j'] h' Hlt Hj'; [lia|]. now apply (Hnone j').
      * right. split.
        -- now rewrite Hl, lookup_insert_ne.
        -- intros [|j] h Hj; [now inversion Hj; subst | now apply (Hnone j)].
Qed.

Lemma idx_for_found header_row name :
  found header_row (lower name) (idx_for (header_map header_row) name).
Proof.
  unfold idx_for, header_map.
  destruct (header_map_from_lookup header_row 0 ∅ (lower name))
    as [(j & h & Hl & Hj & Hn & Hlater) | (Hl & Hnone)].
  - rewrite Hl. exists j, h. repeat split; auto; lia.
  - rewrite Hl, lookup_empty. exact Hnone.
Qed.

(** X8. [find_header_indexes] names a column by its header stripped and
    lower-cased, and where several headers read the same it takes the
    last. It raises [RuntimeError] exactly when no header reads
    ["number"] or none reads ["message"]; otherwise each index it returns
    is the position of the last header of that name, and [None] stands
    for a name no header has. *)
Theorem find_header_indexes_found header_row :
  (forall ix,
     find_header_indexes header_row = Return ix ->
     located header_row "number" (at_number ix)
     /\ located header_row "message" (at_message ix)
     /\ found header_row "status" (at_status ix)
     /\ found header_row "sent_at" (at_sent_at ix)
     /\ found header_row "sid" (at_sid ix)
     /\ found header_row "error" (at_error ix))
  /\ (find_header_indexes header_row
      = Raise (Exn "RuntimeError"
                 "Headers must include at least 'Number' and 'Message'.")
      <-> unnamed header_row "number" \/ unnamed header_row "message")
  /\ ((exists ix, find_header_indexes header_row = Return ix)
      \/ find_header_indexes header_row
         = Raise (Exn "RuntimeError"
                    "Headers must include at least 'Number' and 'Message'.")).
Proof.
  unfold find_header_indexes.
  pose proof (idx_for_found header_row "number") as Hn.
  pose proof (idx_for_found header_row "message") as Hm.
  change (lower "number") with "number" in Hn.
  change (lower "message") with "message" in Hm.
  destruct (idx_for (header_map header_row) "number") as [n|];
    destruct (idx_for (header_map header_row) "message") as [msg|];
    cbn [found] in Hn, Hm.
  - split; [|split; [|left; eauto]].
    + intros ix [= <-].
      cbn [at_number at_message at_status at_sent_at at_sid at_error].
      repeat split; auto.
      * exact (idx_for_found header_row "status").
      * exact (idx_for_found header_row "sent_at").
      * exact (idx_for_found header_row "sid").
      * exact (idx_for_found header_row "error").
    + split; [discriminate|].
      destruct Hn as (j & h & _ & Hj & Hh & _).
      destruct Hm as (j' & h' & _ & Hj' & Hh' & _).
      intros [H|H]; exfalso; [now apply (H j h) | now apply (H j' h')].
  - split; [discriminate|]. split; [|now right]. split; auto.
  - split; [discriminate|]. split; [|now right]. split; auto.
  - split; [discriminate|]. split; [|now right]. split; auto.
Qed.

(** *** The tracking columns *)

Lemma elem_of_app_other (name : string) l extra :
  name ∉ extra ->
  bool_decide (name ∈ l ++ extra) = bool_decide (name ∈ l).
Proof.
  intros H. apply bool_decide_ext. rewrite elem_of_app. tauto.
Qed.

Ltac other_name :=
  rewrite list_elem_of_In; cbn; intros H;
  repeat (destruct H as [H|H]; [discriminate H|]); exact H.

Lemma ensure_tracking_columns_eq header :
  ensure_tracking_columns header =
  (header ++ missing_columns header,
   match missing_columns header with [] => false | _ => true end).
Proof.
  unfold ensure_tracking_columns, ensure_col, missing_columns, tracking_columns.
  cbn [List.filter fst snd].
  destruct (bool_decide ("Status" ∈ header)) eqn:H1; cbn [fst snd negb];
    rewrite ?(elem_of_app_other "Sent_At" header ["Status"]) by other_name;
    destruct (bool_decide ("Sent_At" ∈ header)) eqn:H2; cbn [fst snd negb];
    rewrite <- ?app_assoc; cbn [app];
    rewrite ?(elem_of_app_other "SID" header) by other_name;
    destruct (bool_decide ("SID" ∈ header)) eqn:H3; cbn [fst snd negb];
    rewrite <- ?app_assoc; cbn [app];
    rewrite ?(elem_of_app_other "Error" header) by other_name;
    destruct (bool_decide ("Error" ∈ header)) eqn:H4; cbn [fst snd negb];
    rewrite <- ?app_assoc, ?app_nil_r; cbn [app]; reflexivity.
Qed.

Lemma tracking_in_migrated header name :
  name ∈ tracking_columns -> name ∈ header ++ missing_columns header.
Proof.
  intros Hn. rewrite elem_of_app.
  destruct (decide (name ∈ header)) as [Hin|Hout]; [now left|right].
  unfold missing_columns. apply list_elem_of_In, List.filter_In.
  split; [now apply list_elem_of_In|].
  now rewrite bool_decide_eq_false_2.
Qed.

(** X9. The four calls of [ensure_col] append to the header the tracking
    columns it does not hold yet, spelled exactly [Status], [Sent_At],
    [SID] and [Error], in that order and after the columns that are
    there; [needs_update] tells whether any was appended; afterwards the
    header holds all four; and doing it again changes nothing. *)
Theorem ensure_tracking_columns_adds header :
  ensure_tracking_columns header =
    (header ++ missing_columns header,
     match missing_columns header with [] => false | _ => true end)
  /\ Forall (fun name => name ∈ (ensure_tracking_columns header).1)
       tracking_columns
  /\ ensure_tracking_columns (ensure_tracking_columns header).1
     = ((ensure_tracking_columns header).1, false).
Proof.
  split; [apply ensure_tracking_columns_eq|].
  rewrite ensure_tracking_columns_eq. cbn [fst]. split.
  - apply Forall_forall. intros name Hn. now apply tracking_in_migrated.
  - rewrite ensure_tracking_columns_eq.
    assert (Hnone : missing_columns (header ++ missing_columns header) = []).
    { unfold missing_columns at 1, tracking_columns. cbn [List.filter].
      rewrite !bool_decide_eq_true_2
        by (apply tracking_in_migrated, list_elem_of_In; cbn; tauto).
      reflexivity. }
    rewrite Hnone. now rewrite app_nil_r.
Qed.

Lemma located_unique header_row name z1 z2 :
  located header_row name z1 -> located header_row name z2 -> z1 = z2.
Proof.
  intros (j1 & h1 & -> & Hj1 & Hn1 & Hl1) (j2 & h2 & -> & Hj2 & Hn2 & Hl2).
  destruct (Nat.lt_trichotomy j1 j2) as [Hlt|[->|Hgt]]; [|reflexivity|].
  - now destruct (Hl1 j2 h2 Hlt Hj2).
  - now destruct (Hl2 j1 h1 Hgt Hj1).
Qed.

Lemma unnamed_Forall l name :
  Forall (fun h => lower (strip h) <> name) l -> unnamed l name.
Proof.
  intros H j h Hj. rewrite Forall_forall in H.
  apply H. eapply list_elem_of_lookup_2; eauto.
Qed.

Lemma located_app_unnamed header_row extra name z :
  unnamed extra name ->
  located (header_row ++ extra) name z <-> located header_row name z.
Proof.
  intros Hextra. split.
  - intros (j & h & -> & Hj & Hn & Hl).
    destruct (lookup_app_Some header_row extra j h) as [Hcase _].
    destruct (Hcase Hj) as [Hin | [_ Hin]]; [|now destruct (Hextra _ _ Hin)].
    exists j, h. repeat split; auto.
    intros j' h' Hlt Hj'. apply (Hl j' h' Hlt).
    now apply lookup_app_l_Some.
  - intros (j & h & -> & Hj & Hn & Hl).
    exists j, h. repeat split; auto; [now apply lookup_app_l_Some|].
    intros j' h' Hlt Hj'.
    apply lookup_app_Some in Hj' as [Hin | [_ Hin]];
      [now apply (Hl j' h') | now apply (Hextra _ _ Hin)].
Qed.

Lemma located_appended header_row x extra name :
  lower (strip x) = name ->
  unnamed extra name ->
  located (header_row ++ x :: extra) name (Z.of_nat (length header_row)).
Proof.
  intros Hx Hextra. exists (length header_row), x. repeat split; auto.
  - now rewrite lookup_app_r, Nat.sub_diag by lia.
  - intros j' h' Hlt Hj'. rewrite lookup_app_r in Hj' by lia.
    destruct (j' - length header_row)%nat as [|k] eqn:Hk; [lia|].
    cbn in Hj'. now apply (Hextra k h').
Qed.

Lemma tracking_unnamed header name :
  Forall (fun h => lower (strip h) <> name) tracking_columns ->
  unnamed (missing_columns header) name.
Proof.
  intros H. apply unnamed_Forall. unfold missing_columns.
  rewrite Forall_forall in *. intros h Hh. apply H.
  apply list_elem_of_In in Hh. apply List.filter_In in Hh as [Hh _].
  now apply list_elem_of_In.
Qed.

Lemma found_named header_row name x o :
  x ∈ header_row -> lower (strip x) = name ->
  found header_row name o -> exists z, o = Some z /\ located header_row name z.
Proof.
  intros Hx Hn Hf. destruct o as [z|]; [eauto|].
  apply list_elem_of_lookup in Hx as [j Hj]. now destruct (Hf j x Hj).
Qed.

(** X10. On the header with the tracking columns added,
    [find_header_indexes] finds all four of them, and Number and Message
    where they were. When the header did not hold [Status] spelled exactly
    so, the status column is the appended one, at the old length of the
    header, also when a column named status in another spelling was
    there. *)
Theorem indexes_after_migration header ix :
  find_header_indexes (ensure_tracking_columns header).1 = Return ix ->
  (exists s a i e,
      at_status ix = Some s /\ at_sent_at ix = Some a
      /\ at_sid ix = Some i /\ at_error ix = Some e)
  /\ ("Status" ∉ header -> at_status ix = Some (Z.of_nat (length header)))
  /\ (exists ix0,
        find_header_indexes header = Return ix0
        /\ at_number ix0 = at_number ix /\ at_message ix0 = at_message ix).
Proof.
  rewrite ensure_tracking_columns_eq. cbn [fst].
  set (header' := header ++ missing_columns header).
  unfold find_header_indexes.
  pose proof (idx_for_found header' "number") as Hn.
  pose proof (idx_for_found header' "message") as Hm.
  pose proof (idx_for_found header' "status") as Hs.
  pose proof (idx_for_found header' "sent_at") as Ha.
  pose proof (idx_for_found header' "sid") as Hi.
  pose proof (idx_for_found header' "error") as He.
  pose proof (idx_for_found header "number") as Hn0.
  pose proof (idx_for_found header "message") as Hm0.
  change (lower "number") with "number" in *.
  change (lower "message") with "message" in *.
  change (lower "status") with "status" in *.
  change (lower "sent_at") with "sent_at" in *.
  change (lower "sid") with "sid" in *.
  change (lower "error") with "error" in *.
  destruct (idx_for (header_map header') "number") as [n|]; [|discriminate].
  destruct (idx_for (header_map header') "message") as [msg|]; [|discriminate].
  intros [= <-].
  cbn [at_number at_message at_status at_sent_at at_sid at_error found] in *.
  assert (Hin : forall name, name ∈ tracking_columns -> name ∈ header')
    by (intros name; apply tracking_in_migrated).
  destruct (found_named header' "status" "Status" _ (Hin "Status" ltac:(apply list_elem_of_In; cbn; tauto)) eq_refl Hs)
    as (s & Hs1 & Hs2).
  destruct (found_named header' "sent_at" "Sent_At" _ (Hin "Sent_At" ltac:(apply list_elem_of_In; cbn; tauto)) eq_refl Ha)
    as (a & Ha1 & _).
  destruct (found_named header' "sid" "SID" _ (Hin "SID" ltac:(apply list_elem_of_In; cbn; tauto)) eq_refl Hi)
    as (i & Hi1 & _).
  destruct (found_named header' "error" "Error" _ (Hin "Error" ltac:(apply list_elem_of_In; cbn; tauto)) eq_refl He)
    as (e & He1 & _).
  split; [exists s, a, i, e; auto|]. split.
  - intros Hout. rewrite Hs1. f_equal.
    eapply located_unique; [exact Hs2|].
    subst header'. unfold missing_columns, tracking_columns.
    cbn [List.filter]. rewrite (bool_decide_eq_false_2 _ Hout). cbn [negb].
    apply located_appended; [reflexivity|].
    apply unnamed_Forall.
    apply Forall_forall. intros h Hh. apply list_elem_of_In in Hh.
    destruct (negb (bool_decide ("Sent_At" ∈ header)));
      destruct (negb (bool_decide ("SID" ∈ header)));
      destruct (negb (bool_decide ("Error" ∈ header)));
      cbn in Hh; intuition (subst; discriminate).
  - apply (located_app_unnamed header) in Hn;
      [|apply tracking_unnamed; repeat constructor; discriminate].
    apply (located_app_unnamed header) in Hm;
      [|apply tracking_unnamed; repeat constructor; discriminate].
    destruct (idx_for (header_map header) "number") as [n0|];
      [|destruct Hn as (j & h & _ & Hj & Hh & _); now destruct (Hn0 j h)].
    destruct (idx_for (header_map header) "message") as [m0|];
      [|destruct Hm as (j & h & _ & Hj & Hh & _); now destruct (Hm0 j h)].
    eexists. split; [reflexivity|]. cbn. split; eapply located_unique; eauto.
Qed.

Lemma indexes_after_migration_witness :
  let header := ["Number"; " message "; "status"] in
  exists ix,
    find_header_indexes (ensure_tracking_columns header).1 = Return ix
    /\ (ensure_tracking_columns header).1
       = ["Number"; " message "; "status"; "Status"; "Sent_At"; "SID"; "Error"]
    /\ at_status ix = Some 3
    /\ (exists ix0,
          find_header_indexes header = Return ix0
          /\ at_number ix0 = at_number ix /\ at_message ix0 = at_message ix).
Proof.
  intros header.
  exists (Indexes 0 1 (Some 3) (Some 4) (Some 5) (Some 6)).
  assert (Hrun : find_header_indexes (ensure_tracking_columns header).1
                 = Return (Indexes 0 1 (Some 3) (Some 4) (Some 5) (Some 6)))
    by (vm_compute; reflexivity).
  split; [exact Hrun|]. split; [vm_compute; reflexivity|].
  destruct (indexes_after_migration header _ Hrun) as (_ & Hs & H0).
  split; [|exact H0]. apply Hs.
  rewrite list_elem_of_In. cbn. intros [H|[H|[H|[]]]]; discriminate H.
Defined.

Lemma idx_for_at header_row name z :
  located header_row (lower name) z ->
  idx_for (header_map header_row) name = Some z.
Proof.
  intros Hl. pose proof (idx_for_found header_row name) as Hf.
  destruct (idx_for (header_map header_row) name) as [z'|].
  - f_equal. eapply located_unique; eauto.
  - destruct Hl as (j & h & _ & Hj & Hn & _). now destruct (Hf j h).
Qed.

Lemma fresh_missing header :
  Forall (fun name => name ∉ header) tracking_columns ->
  missing_columns header = tracking_columns.
Proof.
  intros Hf. unfold missing_columns.
  induction Hf as [|name l Hn _ IH]; [reflexivity|].
  cbn [List.filter]. now rewrite (bool_decide_eq_false_2 _ Hn), IH.
Qed.

(** X11. On a sheet whose header holds none of the four tracking
    columns, the columns that [main] adds are found next to each other in
    the order Status, Sent_At, SID, Error, right after the old header: the
    block from [col_status] to [col_error] that every update writes is
    four cells wide, one cell for each of its four values. *)
Theorem tracking_block header ix :
  Forall (fun name => name ∉ header) tracking_columns ->
  find_header_indexes (ensure_tracking_columns header).1 = Return ix ->
  let header' := (ensure_tracking_columns header).1 in
  let n := Z.of_nat (length header) in
  header' = header ++ tracking_columns
  /\ column (at_status ix) header' = n + 1
  /\ column (at_sent_at ix) header' = n + 2
  /\ column (at_sid ix) header' = n + 3
  /\ column (at_error ix) header' = n + 4.
Proof.
  intros Hfresh. rewrite ensure_tracking_columns_eq. cbn [fst].
  rewrite (fresh_missing header Hfresh). unfold tracking_columns.
  assert (Hs : idx_for (header_map (header ++ ["Status"; "Sent_At"; "SID"; "Error"]))
                 "status" = Some (Z.of_nat (length header))).
  { apply idx_for_at, located_appended; [reflexivity|].
    apply unnamed_Forall. repeat constructor; discriminate. }
  assert (Ha : idx_for (header_map (header ++ ["Status"; "Sent_At"; "SID"; "Error"]))
                 "sent_at" = Some (Z.of_nat (length (header ++ ["Status"])))).
  { apply idx_for_at.
    replace (header ++ ["Status"; "Sent_At"; "SID"; "Error"])
      with ((header ++ ["Status"]) ++ "Sent_At" :: ["SID"; "Error"])
      by now rewrite <- app_assoc.
    apply located_appended; [reflexivity|].
    apply unnamed_Forall. repeat constructor; discriminate. }
  assert (Hi : idx_for (header_map (header ++ ["Status"; "Sent_At"; "SID"; "Error"]))
                 "sid" = Some (Z.of_nat (length (header ++ ["Status"; "Sent_At"])))).
  { apply idx_for_at.
    replace (header ++ ["Status"; "Sent_At"; "SID"; "Error"])
      with ((header ++ ["Status"; "Sent_At"]) ++ "SID" :: ["Error"])
      by now rewrite <- app_assoc.
    apply located_appended; [reflexivity|].
    apply unnamed_Forall. repeat constructor; discriminate. }
  assert (He : idx_for (header_map (header ++ ["Status"; "Sent_At"; "SID"; "Error"]))
                 "error"
               = Some (Z.of_nat (length (header ++ ["Status"; "Sent_At"; "SID"])))).
  { apply idx_for_at.
    replace (header ++ ["Status"; "Sent_At"; "SID"; "Error"])
      with ((header ++ ["Status"; "Sent_At"; "SID"]) ++ "Error" :: [])
      by now rewrite <- app_assoc.
    apply located_appended; [reflexivity|].
    apply unnamed_Forall. constructor. }
  unfold find_header_indexes. rewrite Hs, Ha, Hi, He.
  destruct (idx_for _ "number"); [|discriminate].
  destruct (idx_for _ "message"); [|discriminate].
  intros [= <-]. cbn [at_status at_sent_at at_sid at_error column].
  rewrite !length_app. cbn [length]. repeat split; lia.
Qed.

Lemma tracking_block_witness :
  let header := ["Number"; "Message"] in
  exists ix,
    find_header_indexes (ensure_tracking_columns header).1 = Return ix
    /\ (ensure_tracking_columns header).1 = header ++ tracking_columns
    /\ column (at_status ix) (ensure_tracking_columns header).1 = 2 + 1
    /\ column (at_sent_at ix) (ensure_tracking_columns header).1 = 2 + 2
    /\ column (at_sid ix) (ensure_tracking_columns header).1 = 2 + 3
    /\ column (at_error ix) (ensure_tracking_columns header).1 = 2 + 4.
Proof.
  intros header.
  exists (Indexes 0 1 (Some 2) (Some 3) (Some 4) (Some 5)).
  assert (Hrun : find_header_indexes (ensure_tracking_columns header).1
                 = Return (Indexes 0 1 (Some 2) (Some 3) (Some 4) (Some 5)))
    by (vm_compute; reflexivity).
  split; [exact Hrun|].
  apply (tracking_block header _); [|exact Hrun].
  repeat constructor; rewrite list_elem_of_In; cbn;
    intros [H|[H|[]]]; discriminate H.
Defined.

(** The block is not four cells wide on a header that holds the tracking
    columns in another order: here [col_status] lies right of
    [col_error]. *)
Example tracking_block_reordered :
  let header := ["Number"; "Message"; "Error"; "SID"; "Sent_At"; "Status"] in
  ensure_tracking_columns header = (header, false)
  /\ exists ix,
      find_header_indexes header = Return ix
      /\ column (at_status ix) header = 6
      /\ column (at_error ix) header = 3.
Proof.
  split; [vm_compute; reflexivity|].
  exists (Indexes 0 1 (Some 5) (Some 4) (Some 3) (Some 2)).
  vm_compute. auto.
Qed.

(** *** Selecting with the index found *)

Lemma found_position header_row name o :
  found header_row name o -> exists k : option nat, o = Z.of_nat <$> k.
Proof.
  destruct o as [z|]; [|now exists None].
  intros (j & h & -> & _). now exists (Some j).
Qed.

Lemma numbered_lookup rows :
  forall i (j : nat) p,
    numbered i rows !! j = Some p ->
    p.1 = i + Z.of_nat j /\ rows !! j = Some p.2.
Proof.
  induction rows as [|r rows IH]; intros i j p Hj; [destruct j; discriminate|].
  destruct j as [|j]; cbn in Hj.
  - inversion Hj; subst. cbn. split; [lia | reflexivity].
  - apply IH in Hj as [H1 H2]. split; [lia | exact H2].
Qed.

Lemma filter_numbered_increasing (P : Z * row -> bool) rows :
  forall i (j1 j2 : nat) p1 p2,
    (j1 < j2)%nat ->
    List.filter P (numbered i rows) !! j1 = Some p1 ->
    List.filter P (numbered i rows) !! j2 = Some p2 ->
    i <= p1.1 /\ p1.1 < p2.1.
Proof.
  induction rows as [|r rows IH]; intros i j1 j2 p1 p2 Hlt H1 H2;
    [destruct j1; discriminate|].
  cbn [numbered List.filter] in H1, H2.
  destruct (P (i, r)).
  - destruct j2 as [|j2]; [lia|]. cbn in H2. destruct j1 as [|j1].
    + inversion H1; subst. cbn. split; [lia|].
      apply list_elem_of_lookup_2, list_elem_of_In, List.filter_In in H2
        as [H2 _]. apply list_elem_of_In, list_elem_of_lookup in H2 as [j Hj].
      apply numbered_lookup in Hj as [Hj _]. lia.
    + cbn in H1. destruct (IH (i + 1) j1 j2 p1 p2) as [Ha Hb]; auto; lia.
  - destruct (IH (i + 1) j1 j2 p1 p2) as [Ha Hb]; auto. lia.
Qed.

(** X12. With the status index that [find_header_indexes] returns,
    [rows_to_send] raises nothing; the row numbers it returns lie between
    2 and the number of rows of the sheet and increase strictly, so no row
    is selected twice in a run. *)
Theorem rows_to_send_numbers header_row (values : list row) ix :
  find_header_indexes header_row = Return ix ->
  exists targets,
    rows_to_send values (at_status ix) = Return targets
    /\ Forall (fun p => 2 <= p.1 <= Z.of_nat (length values)) targets
    /\ forall (j1 j2 : nat) p1 p2,
        (j1 < j2)%nat -> targets !! j1 = Some p1 -> targets !! j2 = Some p2 ->
        p1.1 < p2.1.
Proof.
  unfold find_header_indexes.
  destruct (idx_for (header_map header_row) "number"); [|discriminate].
  destruct (idx_for (header_map header_row) "message"); [|discriminate].
  intros [= <-]. cbn [at_status].
  destruct (found_position _ _ _ (idx_for_found header_row "status"))
    as [k ->].
  rewrite SmsFacts.rows_to_send_filter. eexists. split; [reflexivity|]. split.
  - apply Forall_forall. intros [i r] Hin.
    apply list_elem_of_In, List.filter_In in Hin as [Hin _].
    apply SmsFacts.In_numbered in Hin as [Hle Hr]. cbn.
    split; [lia|]. apply lookup_lt_Some in Hr.
    rewrite length_drop in Hr. lia.
  - intros j1 j2 p1 p2 Hlt H1 H2.
    now destruct (filter_numbered_increasing _ _ _ _ _ _ _ Hlt H1 H2).
Qed.

Lemma rows_to_send_numbers_witness :
  exists targets,
    rows_to_send SmsSamples.sheet_after_run
      (at_status (Indexes 0 1 (Some 2) (Some 3) (Some 4) (Some 5)))
    = Return targets
    /\ Forall (fun p => 2 <= p.1
                        <= Z.of_nat (length SmsSamples.sheet_after_run))
         targets
    /\ forall (j1 j2 : nat) p1 p2,
        (j1 < j2)%nat -> targets !! j1 = Some p1 -> targets !! j2 = Some p2 ->
        p1.1 < p2.1.
Proof.
  apply (rows_to_send_numbers SmsSamples.header).
  vm_compute. reflexivity.
Defined.

(** *** [safe_get] *)

Lemma lstrip_head s :
  match lstrip s with
  | String.EmptyString => True
  | String.String c _ => is_space c = false
  end.
Proof.
  induction s as [|c s IH]; cbn; [done|].
  destruct (is_space c) eqn:Hc; [exact IH | cbn; exact Hc].
Qed.

Lemma rstrip_head c s :
  is_space c = false -> exists t, rstrip (String.String c s) = String.String c t.
Proof.
  intros Hc. cbn. destruct (rstrip s); [rewrite Hc|]; eauto.
Qed.

Lemma rstrip_idempotent s : rstrip (rstrip s) = rstrip s.
Proof.
  induction s as [|c s IH]; cbn; [done|].
  destruct (rstrip s) as [|c' t] eqn:Hr.
  - destruct (is_space c) eqn:Hc; cbn; [done | now rewrite Hc].
  - change (rstrip (String.String c (String.String c' t)))
      with (match rstrip (String.String c' t) with
            | String.EmptyString =>
                if is_space c then String.EmptyString
                else String.String c String.EmptyString
            | u => String.String c u
            end).
    now rewrite IH.
Qed.

Lemma strip_idempotent s : strip (strip s) = strip s.
Proof.
  unfold strip. pose proof (lstrip_head s) as Hh.
  destruct (lstrip s) as [|c t] eqn:Hl; [reflexivity|].
  destruct (rstrip_head c t Hh) as [u Hu]. rewrite Hu.
  cbn [lstrip]. rewrite Hh, <- Hu. apply rstrip_idempotent.
Qed.

(** X13. For a column position, or none, [safe_get] raises nothing and
    returns the cell stripped: stripping the result again changes
    nothing, and the result is empty exactly when the row has no such
    cell or the cell holds only white space. *)
Theorem safe_get_stripped (r : row) (k : option nat) :
  exists s,
    safe_get r (Z.of_nat <$> k) = Return s
    /\ s = strip (status_cell r k)
    /\ strip s = s
    /\ (s = "" <-> all_space (status_cell r k) = true).
Proof.
  exists (strip (status_cell r k)). unfold safe_get.
  rewrite SmsFacts.cell_or_empty_at. cbn [rbind].
  repeat split; [apply strip_idempotent | apply SmsFacts.strip_empty..].
Qed.

(** *** [mask] *)

Lemma chars_text l : chars (text l) = l.
Proof. apply String.list_ascii_of_string_of_list_ascii. Qed.

Lemma text_chars s : text (chars s) = s.
Proof. apply String.string_of_list_ascii_of_string. Qed.

Lemma length_chars s : String.length s = length (chars s).
Proof. induction s as [|c s IH]; cbn; [done | now rewrite IH]. Qed.

Lemma text_app a b : text (a ++ b) = text a +:+ text b.
Proof.
  unfold text. induction a as [|c a IH]; [done|].
  change (String.String c (String.string_of_list_ascii (a ++ b))
          = String.String c (String.string_of_list_ascii a
                             +:+ String.string_of_list_ascii b)).
  now f_equal.
Qed.

Lemma chars_app s1 s2 : chars (s1 +:+ s2) = chars s1 ++ chars s2.
Proof.
  unfold chars. induction s1 as [|c s1 IH]; [done|].
  change (c :: String.list_ascii_of_string (s1 +:+ s2)
          = c :: (String.list_ascii_of_string s1
                  ++ String.list_ascii_of_string s2)).
  now f_equal.
Qed.

Lemma mask_long s :
  (6 <= String.length s)%nat ->
  chars (mask s)
  = take 6 (chars s) ++ chars "***" ++ drop (length (chars s) - 4) (chars s).
Proof.
  intros Hlen. unfold mask.
  destruct (String.eqb_spec s "") as [->|_]; [cbn in Hlen; lia|].
  destruct (Nat.ltb_spec (String.length s) 6) as [Hlt|_]; [lia|].
  cbn [orb]. now rewrite !chars_app, !chars_text, <- length_chars.
Qed.

Lemma mask_readable s :
  (6 <= String.length s <= 10)%nat ->
  chars s = take 6 (chars (mask s))
            ++ drop (19 - String.length s) (chars (mask s)).
Proof.
  intros Hlen. rewrite mask_long by lia. rewrite length_chars in *.
  set (l := chars s) in *.
  assert (H6 : length (take 6 l) = 6%nat) by (rewrite length_take; lia).
  rewrite take_app_le, take_take by lia.
  rewrite drop_app_ge by lia. rewrite H6.
  rewrite drop_app_ge by (cbn; lia). cbn [chars String.list_ascii_of_string length].
  rewrite drop_drop.
  replace (length l - 4 + (19 - length l - 6 - 3))%nat with 6%nat by lia.
  replace (6 `min` 6)%nat with 6%nat by lia.
  symmetry. apply take_drop.
Qed.

(** X14. [mask] prints a number of six or more characters as its first
    six characters, three stars and its last four, thirteen characters in
    all, also when the two parts overlap in a number of fewer than ten
    characters. Nothing else of the number shows: two numbers of six or
    more characters with the same first six and the same last four
    characters are printed alike. *)
Theorem mask_hides_middle s :
  (6 <= String.length s)%nat ->
  chars (mask s)
  = take 6 (chars s) ++ chars "***" ++ drop (String.length s - 4) (chars s)
  /\ length (take 6 (chars s)) = 6%nat
  /\ length (drop (String.length s - 4) (chars s)) = 4%nat
  /\ String.length (mask s) = 13%nat
  /\ (forall s',
        (6 <= String.length s')%nat ->
        take 6 (chars s') = take 6 (chars s) ->
        drop (String.length s' - 4) (chars s')
        = drop (String.length s - 4) (chars s) ->
        mask s' = mask s)
  /\ (forall a m b,
        chars s = a ++ m ++ b -> length a = 6%nat -> length b = 4%nat ->
        mask s = text (a ++ chars "***" ++ b)).
Proof.
  intros Hlen.
  assert (Hm : forall x, (6 <= String.length x)%nat ->
             chars (mask x)
             = take 6 (chars x) ++ chars "***"
               ++ drop (String.length x - 4) (chars x)).
  { intros x Hx. rewrite (mask_long x Hx). now rewrite <- length_chars. }
  assert (H6 : length (take 6 (chars s)) = 6%nat)
    by (rewrite length_take, <- length_chars; lia).
  assert (H4 : length (drop (String.length s - 4) (chars s)) = 4%nat)
    by (rewrite length_drop, <- length_chars; lia).
  split; [now apply Hm|]. split; [exact H6|]. split; [exact H4|]. split.
  { rewrite length_chars, (Hm s Hlen), !length_app, H6, H4. reflexivity. }
  split.
  - intros s' Hlen' Ht Hd.
    rewrite <- (text_chars (mask s')), <- (text_chars (mask s)).
    now rewrite (Hm s' Hlen'), (Hm s Hlen), Ht, Hd.
  - intros a m b Hs Ha Hb.
    rewrite <- (text_chars (mask s)), (Hm s Hlen). f_equal.
    rewrite length_chars, Hs.
    rewrite take_app_length' by done.
    rewrite (app_assoc a m b), drop_app_length'; [done|].
    rewrite !length_app. lia.
Qed.

Lemma mask_hides_middle_witness :
  chars (mask "123456")
  = take 6 (chars "123456") ++ chars "***"
    ++ drop (String.length "123456" - 4) (chars "123456")
  /\ mask "123456" = "123456***3456"
  /\ String.length (mask "123456") = 13%nat.
Proof.
  destruct (mask_hides_middle "123456") as (H1 & _ & _ & H13 & _);
    [cbn; lia|].
  split; [exact H1|]. split; [reflexivity | exact H13].
Defined.

(** X15. [mask] hides nothing of a short number: one of fewer than six
    characters is printed as it is, and among numbers of the same length
    of at most ten characters, two with the same masked form are the same
    number. *)
Theorem mask_short_numbers s1 s2 :
  String.length s1 = String.length s2 ->
  (String.length s1 <= 10)%nat ->
  mask s1 = mask s2 ->
  s1 = s2 /\ ((String.length s1 < 6)%nat -> mask s1 = s1).
Proof.
  intros Heq Hlen Hm.
  assert (Hshort : forall s, (String.length s < 6)%nat -> mask s = s).
  { intros s Hs. unfold mask.
    destruct (Nat.ltb_spec (String.length s) 6) as [_|Hge]; [|lia].
    now rewrite orb_true_r. }
  split; [|apply Hshort].
  destruct (Nat.lt_ge_cases (String.length s1) 6) as [Hlt|Hge].
  - rewrite <- (Hshort s1), <- (Hshort s2) by lia. exact Hm.
  - rewrite <- (text_chars s1), <- (text_chars s2). f_equal.
    rewrite (mask_readable s1), (mask_readable s2) by lia.
    now rewrite Hm, Heq.
Qed.

Lemma mask_short_numbers_witness :
  "+1416555" = "+1416555"
  /\ ((String.length "+1416555" < 6)%nat -> mask "+1416555" = "+1416555").
Proof.
  apply (mask_short_numbers "+1416555" "+1416555");
    [reflexivity | cbn; lia | reflexivity].
Defined.

(** A number of eight characters shows in full in its masked form. *)
Example mask_of_eight : mask "+1416555" = "+14165***6555".
Proof. reflexivity. Qed.

End SheetFacts.

(** ** Sending the messages *)
Module SendFacts.
Import EffFacts.
Import Py Eff SmsBlast Sheet.

Lemma backoff_sleep_ok attempt : sleep_error (backoff_secs attempt) = None.
Proof. destruct attempt as [|[|attempt]]; reflexivity. Qed.

Lemma pacing_sleep_ok : sleep_error pacing_secs = None.
Proof. reflexivity. Qed.

Lemma time_sleep_run secs (w : world) h :
  sleep_error secs = None -> time_sleep secs w h = (Return tt, [ESleep secs]).
Proof. intros Hs. unfold time_sleep, bind, emit, ret. now rewrite Hs. Qed.

Lemma now_iso_run (w : world) h :
  now_iso w h = (Return (clock w h), [ENow (clock w h)]).
Proof. reflexivity. Qed.

(** One round of the retry loop. *)
Lemma send_attempts_step c number body left attempt err (w : world) h :
  send_attempts c number body (S left) attempt err w h =
  let answer := twilio w h number (TWILIO_FROM c) body in
  let e := ECreateMessage number (TWILIO_FROM c) body answer in
  match answer with
  | SmsCreated sid => (Return (sid, err), [e])
  | SmsTwilioException msg =>
      let run := send_attempts c number body left (S attempt) msg w
                   (h ++ [e; ESleep (backoff_secs attempt)]) in
      (run.1, e :: ESleep (backoff_secs attempt) :: run.2)
  | SmsOtherException x => (Raise x, [e])
  end.
Proof.
  cbn [send_attempts]. unfold bind at 1, messages_create, ask.
  destruct (twilio w h number (TWILIO_FROM c) body) as [sid|msg|x]; cbn.
  - reflexivity.
  - unfold bind at 1. rewrite time_sleep_run by apply backoff_sleep_ok.
    rewrite <- app_assoc. cbn.
    destruct (send_attempts c number body left (S attempt) msg w _);
      reflexivity.
  - reflexivity.
Qed.

Ltac plain_parts :=
  try lia; try discriminate; try reflexivity;
  try (intros; contradiction);
  try (repeat (apply Forall_cons_2; [reflexivity|]); apply Forall_nil_2).

(** What the retry loop does, whatever Twilio answers. *)
Lemma send_attempts_run c number body left :
  forall attempt err (w : world) h r t,
    send_attempts c number body left attempt err w h = (r, t) ->
    (create_count t <= left)%nat
    /\ (created_count t <= 1)%nat
    /\ stops_when_created t = true
    /\ r <> OutOfFuel
    /\ Forall (fun e => is_flush e = false) t
    /\ (forall to from_ text answer,
          In (ECreateMessage to from_ text answer) t ->
          to = number /\ from_ = TWILIO_FROM c /\ text = body)
    /\ (forall sid e,
          r = Return (sid, e) -> sid <> "" ->
          created_count t = 1%nat
          /\ In (ECreateMessage number (TWILIO_FROM c) body (SmsCreated sid)) t)
    /\ (forall to from_ text x,
          In (ECreateMessage to from_ text (SmsOtherException x)) t ->
          r = Raise x)
    /\ (forall to from_ text sid,
          In (ECreateMessage to from_ text (SmsCreated sid)) t ->
          exists e, r = Return (sid, e)).
Proof.
  induction left as [|left IH]; intros attempt err w h r t Hrun.
  - cbn in Hrun. inversion Hrun; subst. cbn.
    repeat apply conj; plain_parts.
    intros sid e [= <- <-] Hsid. now destruct Hsid.
  - rewrite send_attempts_step in Hrun. cbn zeta in Hrun.
    destruct (twilio w h number (TWILIO_FROM c) body) as [sid|msg|x] eqn:Ha.
    + inversion Hrun; subst. cbn.
      repeat apply conj; plain_parts.
      * intros to from_ text answer [H|[]]. now inversion H.
      * intros sid' e [= <- <-] _. split; [reflexivity | now left].
      * intros to from_ text x [H|[]]. discriminate H.
      * intros to from_ text sid' [H|[]]. inversion H; subst. eauto.
    + destruct (send_attempts c number body left (S attempt) msg w
                  (h ++ [ECreateMessage number (TWILIO_FROM c) body
                           (SmsTwilioException msg);
                         ESleep (backoff_secs attempt)]))
        as [r2 t2] eqn:Hrec.
      cbn in Hrun. inversion Hrun; subst.
      destruct (IH _ _ _ _ _ _ Hrec)
        as (Hc & Hd & Hs & Hf & Hq & Hto & Hsid & Hx & Hok).
      unfold create_count, created_count in *. cbn.
      repeat apply conj; try lia; auto.
      * intros to from_ text answer [H|[H|H]];
          [now inversion H | discriminate H | eauto].
      * intros sid e Hr Hne. destruct (Hsid sid e Hr Hne) as [H1 H2].
        split; [exact H1 | now right; right].
      * intros to from_ text x [H|[H|H]];
          [discriminate H | discriminate H | eauto].
      * intros to from_ text sid [H|[H|H]];
          [discriminate H | discriminate H | eauto].
    + inversion Hrun; subst. cbn.
      repeat apply conj; plain_parts.
      * intros to from_ text answer [H|[]]. now inversion H.
      * intros to from_ text x' [H|[]]. now inversion H.
      * intros to from_ text sid [H|[]]. discriminate H.
Qed.

Lemma create_count_app t1 t2 :
  create_count (t1 ++ t2) = (create_count t1 + create_count t2)%nat.
Proof. unfold create_count. now rewrite List.filter_app, length_app. Qed.

Lemma created_count_app t1 t2 :
  created_count (t1 ++ t2) = (created_count t1 + created_count t2)%nat.
Proof. unfold created_count. now rewrite List.filter_app, length_app. Qed.

Lemma naps_app t1 t2 : naps (t1 ++ t2) = naps t1 ++ naps t2.
Proof.
  induction t1 as [|e t1 IH]; [reflexivity|].
  destruct e; cbn; now rewrite IH.
Qed.

Lemma stops_when_created_app t1 t2 :
  existsb is_create t2 = false ->
  stops_when_created (t1 ++ t2) = stops_when_created t1.
Proof.
  intros H2. induction t1 as [|e t1 IH]; cbn.
  - induction t2 as [|e t2 IH]; [reflexivity|]. cbn in *.
    apply orb_false_elim in H2 as [He H2].
    destruct e; try discriminate He; cbn; auto.
  - destruct (is_created e); [|exact IH].
    now rewrite List.existsb_app, H2, orb_false_r.
Qed.

(** The body of the loop over the rows, case by case. *)
Lemma send_row_cases c n r (w : world) h :
  send_row c n r w h =
  match safe_get r (idx_number c), safe_get r (idx_message c) with
  | Return number, Return message =>
      if String.eqb number "" || String.eqb message ""
      then (Return (mark c n ["FAILED"; clock w h; "";
                              "Missing Number or Message"]),
            [ENow (clock w h)])
      else if DRY_RUN c
      then (Return (mark c n ["SENT"; clock w h; "DRYRUN"; ""]),
            [ENow (clock w h)])
      else
        let run := send_attempts c number (message +:+ pitch) 3 0 "" w h in
        match run.1 with
        | Return (sid, error) =>
            let stamp := clock w (h ++ run.2) in
            (Return (mark c n
                       (if negb (String.eqb sid "")
                        then ["SENT"; stamp; sid; ""]
                        else ["FAILED"; stamp; "";
                              String.substring 0 500 error])),
             run.2 ++ [ENow stamp; ESleep pacing_secs])
        | Raise e => (Raise e, run.2)
        | OutOfFuel => (OutOfFuel, run.2)
        end
  | Return _, Raise e => (Raise e, [])
  | Return _, OutOfFuel => (OutOfFuel, [])
  | Raise e, _ => (Raise e, [])
  | OutOfFuel, _ => (OutOfFuel, [])
  end.
Proof.
  unfold send_row. unfold bind at 1, lift.
  destruct (safe_get r (idx_number c)) as [number|e|]; [|reflexivity..].
  unfold bind at 1. cbn [app].
  destruct (safe_get r (idx_message c)) as [message|e|]; [|reflexivity..].
  rewrite !app_nil_r. cbn [app].
  destruct (String.eqb number "" || String.eqb message ""); [reflexivity|].
  destruct (DRY_RUN c); [reflexivity|].
  unfold bind at 1.
  destruct (send_attempts c number (message +:+ pitch) 3 0 "" w h)
    as [[[sid error]|e|] t1]; cbn [fst snd]; [|reflexivity..].
  unfold bind at 1.
  destruct (negb (String.eqb sid ""));
    unfold bind at 1; rewrite now_iso_run; cbn [ret app];
    unfold bind at 1; rewrite time_sleep_run by apply pacing_sleep_ok;
    reflexivity.
Qed.

Lemma In_snoc2 {A} (x a b : A) l :
  In x (l ++ [a; b]) -> In x l \/ x = a \/ x = b.
Proof.
  intros H. apply List.in_app_or in H as [H|[H|[H|[]]]]; auto.
Qed.

Lemma safe_get_fuel (r : row) idx : safe_get r idx <> OutOfFuel.
Proof.
  unfold safe_get, cell_or_empty, index.
  repeat case_match; cbn; discriminate.
Qed.

(** What the body of the loop does for one row. *)
Lemma send_row_run c n r (w : world) h res t :
  send_row c n r w h = (res, t) ->
  (create_count t <= 3)%nat
  /\ (created_count t <= 1)%nat
  /\ stops_when_created t = true
  /\ res <> OutOfFuel
  /\ Forall (fun e => is_flush e = false) t
  /\ (forall to from_ text x,
        In (ECreateMessage to from_ text (SmsOtherException x)) t ->
        res = Raise x)
  /\ (DRY_RUN c = true ->
      create_count t = 0%nat /\ naps t = []
      /\ forall u, res = Return u -> dry_mark u).
Proof.
  rewrite send_row_cases.
  pose proof (safe_get_fuel r (idx_number c)) as Hn.
  pose proof (safe_get_fuel r (idx_message c)) as Hm.
  destruct (safe_get r (idx_number c)) as [number|e|];
    [| |now destruct Hn].
  2: { intros [= <- <-]; cbn; repeat apply conj; plain_parts; auto.
       intros _. repeat apply conj; plain_parts. }
  destruct (safe_get r (idx_message c)) as [message|e|];
    [| |now destruct Hm].
  2: { intros [= <- <-]; cbn; repeat apply conj; plain_parts; auto.
       intros _. repeat apply conj; plain_parts. }
  destruct (String.eqb number "" || String.eqb message "").
  { intros [= <- <-]. cbn. repeat apply conj; plain_parts.
    - intros to from_ text x [H|[]]. discriminate H.
    - intros _. repeat apply conj; plain_parts.
      intros u [= <-]. exists (clock w h). now right. }
  destruct (DRY_RUN c) eqn:Hdry.
  { intros [= <- <-]. cbn. repeat apply conj; plain_parts.
    - intros to from_ text x [H|[]]. discriminate H.
    - intros _. repeat apply conj; plain_parts.
      intros u [= <-]. exists (clock w h). now left. }
  cbn zeta.
  destruct (send_attempts c number (message +:+ pitch) 3 0 "" w h)
    as [r1 t1] eqn:Hrun.
  destruct (send_attempts_run _ _ _ _ _ _ _ _ _ _ Hrun)
    as (Hc & Hd & Hs & Hf & Hq & _ & _ & Hx & _).
  cbn [fst snd]. destruct r1 as [[sid error]|e|]; intros [= <- <-].
  - rewrite create_count_app, created_count_app, stops_when_created_app
      by reflexivity.
    cbn. repeat apply conj; plain_parts; auto.
    + apply Forall_app. split; [exact Hq | plain_parts].
    + intros to from_ text x Hin.
      apply In_snoc2 in Hin as [Hin|[Hin|Hin]]; try discriminate Hin.
      specialize (Hx _ _ _ _ Hin). discriminate Hx.
  - repeat apply conj; plain_parts; auto.
    intros to from_ text x Hin. specialize (Hx _ _ _ _ Hin).
    now inversion Hx.
  - now destruct Hf.
Qed.

(** X16. For one row, [client.messages.create] is called at most three
    times and returns a message at most once, after which it is not called
    again. Every call goes to the stripped number of the row, from
    [TWILIO_FROM], with the pitch appended to the stripped message; a row
    without number or message, and any row of a dry run, is never sent. *)
Theorem send_row_calls c n r (w : world) h res t :
  send_row c n r w h = (res, t) ->
  (create_count t <= 3)%nat
  /\ (created_count t <= 1)%nat
  /\ stops_when_created t = true
  /\ forall to from_ text answer,
       In (ECreateMessage to from_ text answer) t ->
       DRY_RUN c = false
       /\ safe_get r (idx_number c) = Return to /\ to <> ""
       /\ from_ = TWILIO_FROM c
       /\ exists message,
           safe_get r (idx_message c) = Return message /\ message <> ""
           /\ text = message +:+ pitch.
Proof.
  intros Hrun. destruct (send_row_run _ _ _ _ _ _ _ Hrun) as (Hc & Hd & Hs & _).
  repeat apply conj; auto.
  rewrite send_row_cases in Hrun.
  destruct (safe_get r (idx_number c)) as [number|e|];
    [|inversion Hrun; subst; intros; contradiction..].
  destruct (safe_get r (idx_message c)) as [message|e|];
    [|inversion Hrun; subst; intros; contradiction..].
  destruct (String.eqb_spec number "") as [Hn|Hn]; cbn [orb] in Hrun.
  { inversion Hrun; subst. intros to from_ text answer [H|[]]. discriminate H. }
  destruct (String.eqb_spec message "") as [Hm|Hm].
  { inversion Hrun; subst. intros to from_ text answer [H|[]]. discriminate H. }
  destruct (DRY_RUN c).
  { inversion Hrun; subst. intros to from_ text answer [H|[]]. discriminate H. }
  cbn zeta in Hrun.
  destruct (send_attempts c number (message +:+ pitch) 3 0 "" w h)
    as [r1 t1] eqn:Hsend.
  destruct (send_attempts_run _ _ _ _ _ _ _ _ _ _ Hsend)
    as (_ & _ & _ & _ & _ & Hto & _).
  assert (Hin : forall to from_ text answer,
             In (ECreateMessage to from_ text answer) t ->
             In (ECreateMessage to from_ text answer) t1).
  { cbn [fst snd] in Hrun.
    destruct r1 as [[sid error]|e|]; inversion Hrun; subst; auto.
    intros to from_ text answer Hin.
    apply In_snoc2 in Hin as [Hin|[Hin|Hin]]; [exact Hin | discriminate..]. }
  intros to from_ text answer Ht.
  destruct (Hto _ _ _ _ (Hin _ _ _ _ Ht)) as (-> & -> & ->).
  repeat apply conj; auto. exists message. auto.
Qed.

Lemma send_row_calls_witness :
  let run := send_row (SmsSamples.config_cap 3) 5 SmsSamples.row_new
               SmsSamples.calm [] in
  (create_count run.2 <= 3)%nat
  /\ (created_count run.2 <= 1)%nat
  /\ stops_when_created run.2 = true
  /\ forall to from_ text answer,
       In (ECreateMessage to from_ text answer) run.2 ->
       DRY_RUN (SmsSamples.config_cap 3) = false
       /\ safe_get SmsSamples.row_new (idx_number (SmsSamples.config_cap 3))
          = Return to
       /\ to <> ""
       /\ from_ = TWILIO_FROM (SmsSamples.config_cap 3)
       /\ exists message,
           safe_get SmsSamples.row_new (idx_message (SmsSamples.config_cap 3))
           = Return message
           /\ message <> "" /\ text = message +:+ pitch.
Proof.
  intros run.
  apply (send_row_calls (SmsSamples.config_cap 3) 5 SmsSamples.row_new
           SmsSamples.calm [] run.1 run.2).
  apply surjective_pairing.
Defined.

(** X17. When Twilio refuses all three attempts for a row with a
    [TwilioException], the row sleeps 1, 2 and 4 seconds, the last of them
    after the final attempt, then is marked FAILED with the first 500
    characters of the last error, and sleeps the 0.2 seconds of pacing. *)
Theorem refused_row c n r number message (w : world) h :
  safe_get r (idx_number c) = Return number -> number <> "" ->
  safe_get r (idx_message c) = Return message -> message <> "" ->
  DRY_RUN c = false ->
  (forall h', exists msg,
      twilio w h' number (TWILIO_FROM c) (message +:+ pitch)
      = SmsTwilioException msg) ->
  exists m1 m2 m3 stamp,
    send_row c n r w h =
      (Return (mark c n ["FAILED"; stamp; ""; String.substring 0 500 m3]),
       [ECreateMessage number (TWILIO_FROM c) (message +:+ pitch)
          (SmsTwilioException m1);
        ESleep 1;
        ECreateMessage number (TWILIO_FROM c) (message +:+ pitch)
          (SmsTwilioException m2);
        ESleep 2;
        ECreateMessage number (TWILIO_FROM c) (message +:+ pitch)
          (SmsTwilioException m3);
        ESleep 4;
        ENow stamp;
        ESleep pacing_secs]).
Proof.
  intros Hn Hne Hm Hme Hdry Hw.
  rewrite send_row_cases, Hn, Hm, Hdry.
  destruct (String.eqb_spec number "") as [?|_]; [contradiction|].
  destruct (String.eqb_spec message "") as [?|_]; [contradiction|].
  cbn [orb]. cbn zeta.
  rewrite send_attempts_step. cbn zeta.
  destruct (Hw h) as [m1 H1]. rewrite H1.
  rewrite send_attempts_step. cbn zeta.
  destruct (Hw (h ++ [ECreateMessage number (TWILIO_FROM c) (message +:+ pitch)
                        (SmsTwilioException m1); ESleep (backoff_secs 0)]))
    as [m2 H2]. rewrite H2.
  rewrite send_attempts_step. cbn zeta.
  match goal with
  | |- context [twilio w ?h' number (TWILIO_FROM c) (message +:+ pitch)] =>
      destruct (Hw h') as [m3 H3]; rewrite H3
  end.
  cbn [send_attempts ret fst snd backoff_secs negb String.eqb app].
  exists m1, m2, m3. eexists. reflexivity.
Qed.

Lemma refused_row_witness :
  exists m1 m2 m3 stamp,
    send_row (SmsSamples.config_cap 3) 5 SmsSamples.row_new
      SendSamples.refuses [] =
      (Return (mark (SmsSamples.config_cap 3) 5
                 ["FAILED"; stamp; ""; String.substring 0 500 m3]),
       [ECreateMessage "+15550003" "+18005550100" ("hello" +:+ pitch)
          (SmsTwilioException m1);
        ESleep 1;
        ECreateMessage "+15550003" "+18005550100" ("hello" +:+ pitch)
          (SmsTwilioException m2);
        ESleep 2;
        ECreateMessage "+15550003" "+18005550100" ("hello" +:+ pitch)
          (SmsTwilioException m3);
        ESleep 4;
        ENow stamp;
        ESleep pacing_secs]).
Proof.
  apply (refused_row (SmsSamples.config_cap 3) 5 SmsSamples.row_new
           "+15550003" "hello" SendSamples.refuses []);
    try reflexivity; try discriminate.
  intros h'. eexists. reflexivity.
Defined.

(** X18. Outside a dry run, a row is marked SENT exactly when
    [client.messages.create] returned a message with a non-empty SID for
    it; the mark then carries that SID and an empty error. *)
Theorem sent_means_created c n r (w : world) h u t :
  DRY_RUN c = false ->
  send_row c n r w h = (Return u, t) ->
  (values u !! 0%nat = Some "SENT"
   <-> exists to from_ text sid,
        sid <> "" /\ In (ECreateMessage to from_ text (SmsCreated sid)) t)
  /\ (values u !! 0%nat = Some "SENT" \/ values u !! 0%nat = Some "FAILED")
  /\ forall to from_ text sid,
       sid <> "" -> In (ECreateMessage to from_ text (SmsCreated sid)) t ->
       exists stamp, values u = ["SENT"; stamp; sid; ""].
Proof.
  intros Hdry. rewrite send_row_cases.
  destruct (safe_get r (idx_number c)) as [number|e|]; [|discriminate..].
  destruct (safe_get r (idx_message c)) as [message|e|]; [|discriminate..].
  destruct (String.eqb number "" || String.eqb message "").
  { intros [= <- <-]. cbn. split; [|split; [now right|]].
    - split; [discriminate|].
      intros (to & from_ & text & sid & _ & [H|[]]). discriminate H.
    - intros to from_ text sid _ [H|[]]. discriminate H. }
  rewrite Hdry. cbn zeta.
  destruct (send_attempts c number (message +:+ pitch) 3 0 "" w h)
    as [r1 t1] eqn:Hsend.
  destruct (send_attempts_run _ _ _ _ _ _ _ _ _ _ Hsend)
    as (_ & _ & _ & _ & _ & _ & Hsid & _ & Hok).
  cbn [fst snd]. destruct r1 as [[sid error]|e|]; [|discriminate..].
  intros [= <- <-].
  assert (Hin : forall to from_ text sid',
             In (ECreateMessage to from_ text (SmsCreated sid'))
               (t1 ++ [ENow (clock w (h ++ t1)); ESleep pacing_secs]) ->
             sid' = sid).
  { intros to from_ text sid' Hin.
    apply In_snoc2 in Hin as [Hin|[Hin|Hin]]; try discriminate Hin.
    destruct (Hok _ _ _ _ Hin) as [e He]. now inversion He. }
  destruct (String.eqb_spec sid "") as [->|Hne]; cbn.
  - split; [|split; [now right|]].
    + split; [discriminate|].
      intros (to & from_ & text & sid & Hs & Hi).
      apply Hin in Hi. contradiction.
    + intros to from_ text sid Hs Hi. apply Hin in Hi. contradiction.
  - split; [|split; [now left|]].
    + split; [|reflexivity]. intros _.
      exists number, (TWILIO_FROM c), (message +:+ pitch), sid.
      split; [exact Hne|]. apply List.in_or_app. left.
      now apply (Hsid sid error).
    + intros to from_ text sid' _ Hi. apply Hin in Hi as ->. eauto.
Qed.

Lemma sent_means_created_witness :
  let run := send_row (SmsSamples.config_cap 3) 5 SmsSamples.row_new
               SmsSamples.calm [] in
  let u := Update (5, 3) (5, 6) ["SENT"; "2024-05-02T09:00:00"; "SM100"; ""] in
  run = (Return u, run.2)
  /\ (values u !! 0%nat = Some "SENT"
      <-> exists to from_ text sid,
           sid <> ""
           /\ In (ECreateMessage to from_ text (SmsCreated sid)) run.2).
Proof.
  intros run u.
  assert (Hrun : run = (Return u, run.2)) by (vm_compute; reflexivity).
  split; [exact Hrun|].
  exact (proj1 (sent_means_created (SmsSamples.config_cap 3) 5
                  SmsSamples.row_new SmsSamples.calm [] u run.2
                  eq_refl Hrun)).
Defined.

(** What the loop over the rows does. *)
Lemma send_rows_run c to_send :
  forall updates (w : world) h rs ts,
    send_rows c to_send updates w h = (rs, ts) ->
    (create_count ts <= 3 * length to_send)%nat
    /\ (created_count ts <= length to_send)%nat
    /\ rs <> OutOfFuel
    /\ Forall (fun e => is_flush e = false) ts
    /\ (forall to from_ text x,
          In (ECreateMessage to from_ text (SmsOtherException x)) ts ->
          rs = Raise x)
    /\ (DRY_RUN c = true ->
        create_count ts = 0%nat /\ naps ts = []
        /\ forall out, rs = Return out ->
             exists news, out = updates ++ news /\ Forall dry_mark news).
Proof.
  induction to_send as [|[n r] rest IH]; intros updates w h rs ts Hrun.
  - cbn in Hrun. inversion Hrun; subst. cbn.
    repeat apply conj; plain_parts.
    intros _. repeat apply conj; plain_parts.
    intros out [= <-]. exists []. now rewrite app_nil_r.
  - cbn [send_rows] in Hrun.
    destruct (send_row c n r w h) as [r1 t1] eqn:Hrow.
    destruct (send_row_run _ _ _ _ _ _ _ Hrow)
      as (Hc & Hd & _ & Hf & Hq & Hx & Hdry).
    destruct r1 as [u|e|]; [| |now destruct Hf].
    + erewrite bind_Return in Hrun by exact Hrow.
      destruct (send_rows c rest (updates ++ [u]) w (h ++ t1))
        as [r2 t2] eqn:Hrec.
      inversion Hrun; subst.
      destruct (IH _ _ _ _ _ Hrec) as (Hc2 & Hd2 & Hf2 & Hq2 & Hx2 & Hdry2).
      rewrite create_count_app, created_count_app, naps_app. cbn [length].
      repeat apply conj; try lia; auto.
      * apply Forall_app. auto.
      * intros to from_ text x Hin. apply List.in_app_or in Hin as [Hin|Hin].
        -- specialize (Hx _ _ _ _ Hin). discriminate Hx.
        -- eauto.
      * intros Hd1. destruct (Hdry Hd1) as (H1 & H2 & H3).
        destruct (Hdry2 Hd1) as (H4 & H5 & H6).
        rewrite H1, H2, H4, H5. repeat apply conj; try reflexivity.
        intros out Hout. destruct (H6 out Hout) as (news & -> & Hnews).
        exists (u :: news). rewrite <- app_assoc. split; [reflexivity|].
        constructor; auto.
    + erewrite bind_Raise in Hrun by exact Hrow.
      inversion Hrun; subst. cbn [length].
      repeat apply conj; try lia; auto; try discriminate.
      * intros to from_ text x Hin. specialize (Hx _ _ _ _ Hin).
        now inversion Hx.
      * intros Hd1. destruct (Hdry Hd1) as (H1 & H2 & _).
        repeat apply conj; auto. discriminate.
Qed.

(** *** The whole run *)

Lemma flushed_app t1 t2 : flushed (t1 ++ t2) = flushed t1 ++ flushed t2.
Proof.
  induction t1 as [|e t1 IH]; [reflexivity|].
  destruct e; cbn; rewrite IH; [reflexivity..|]. now rewrite app_assoc.
Qed.

Lemma flushed_none t :
  Forall (fun e => is_flush e = false) t -> flushed t = [].
Proof.
  induction 1 as [|e t He _ IH]; [reflexivity|].
  destruct e; try discriminate He; exact IH.
Qed.

Lemma flush_only t :
  Forall (fun e => is_flush e = true) t ->
  create_count t = 0%nat /\ created_count t = 0%nat /\ naps t = [].
Proof.
  induction 1 as [|e t He _ IH]; [auto|].
  destruct e; try discriminate He. exact IH.
Qed.

(** What the flush does. *)
Lemma flush_run updates (w : world) h r t :
  flush updates w h = (r, t) ->
  Forall (fun e => is_flush e = true) t
  /\ r <> OutOfFuel
  /\ (exists m, flushed t = take m updates)
  /\ (forall e, r = Raise e -> exists group, last t = Some (EBatchUpdate group (Some e))).
Proof.
  destruct (SmsFacts.chunk_100 updates) as (groups & Hchunk & Hcat & _).
  rewrite (SmsFacts.flush_unfold _ _ _ _ Hchunk). intros Hrun.
  destruct (SmsFacts.flush_groups_run _ _ _ _ _ Hrun) as [[k Hk] Hr].
  assert (Hacc : forall l, Forall accepted_flush l ->
                           Forall (fun e => is_flush e = true) l).
  { intros l Hl. eapply Forall_impl; [exact Hl|]. now intros e [g ->]. }
  repeat apply conj.
  - destruct r as [x|e|]; [now apply Hacc | | contradiction].
    destruct Hr as (pre & group & -> & Hpre & _).
    apply Forall_app. split; [now apply Hacc | now repeat constructor].
  - now destruct r.
  - rewrite SmsFacts.flushed_concat, Hk, <- Hcat.
    apply SmsFacts.concat_take_prefix.
  - intros e ->. destruct Hr as (pre & group & -> & _).
    exists group. apply last_snoc.
Qed.

(** [main], case by case. *)
Lemma main_run c all_values idx (w : world) h :
  main_from_values c all_values idx w h =
  match rows_to_send all_values idx with
  | Return [] => (Return 0, [])
  | Return targets =>
      let sent := send_rows c (slice_to targets (DAILY_LIMIT c)) [] w h in
      match sent.1 with
      | Return updates =>
          let flush_run := flush updates w (h ++ sent.2) in
          (match flush_run.1 with
           | Return _ => Return 0
           | Raise e => Raise e
           | OutOfFuel => OutOfFuel
           end, sent.2 ++ flush_run.2)
      | Raise e => (Raise e, sent.2)
      | OutOfFuel => (OutOfFuel, sent.2)
      end
  | Raise e => (Raise e, [])
  | OutOfFuel => (OutOfFuel, [])
  end.
Proof.
  unfold main_from_values. unfold bind at 1, lift.
  destruct (rows_to_send all_values idx) as [[|p targets]|e|];
    try reflexivity.
  cbn [app]. rewrite app_nil_r. cbn zeta. unfold bind at 1.
  destruct (send_rows c (slice_to (p :: targets) (DAILY_LIMIT c)) [] w h)
    as [[updates|e|] ts]; cbn [fst snd]; try reflexivity.
  unfold bind at 1.
  destruct (flush updates w (h ++ ts)) as [[[]|e|] tf]; cbn;
    rewrite ?app_nil_r; reflexivity.
Qed.

Lemma slice_to_length {A} (l : list A) (cap : Z) :
  (length (slice_to l cap) <= length l)%nat
  /\ (0 <= cap -> Z.of_nat (length (slice_to l cap)) <= cap).
Proof.
  unfold slice_to. destruct (Z.leb_spec 0 cap); rewrite length_take; lia.
Qed.

Lemma safe_get_returns (r : row) idx :
  (forall i, idx = Some i -> 0 <= i) -> exists s, safe_get r idx = Return s.
Proof.
  intros Hi. unfold safe_get, cell_or_empty.
  destruct idx as [i|]; [|cbn; eauto].
  specialize (Hi i eq_refl).
  destruct (Z.ltb_spec i (Z.of_nat (length r))) as [Hlt|Hge]; [|cbn; eauto].
  unfold index. destruct (Z.ltb_spec i 0); [lia|].
  destruct (Z.leb_spec 0 i); [|lia].
  destruct (lookup_lt_is_Some_2 r (Z.to_nat i) ltac:(lia)) as [x ->].
  cbn. eauto.
Qed.

(** A dry run over the rows: one mark for each row, in order. *)
Lemma send_rows_dry c to_send :
  DRY_RUN c = true ->
  forall updates (w : world) h rs ts,
    send_rows c to_send updates w h = (rs, ts) ->
    (forall out, rs = Return out ->
       exists news, out = updates ++ news /\ Forall2 (dry_row c) to_send news)
    /\ ((forall i, idx_number c = Some i -> 0 <= i) ->
        (forall i, idx_message c = Some i -> 0 <= i) ->
        exists out, rs = Return out).
Proof.
  intros Hdry. induction to_send as [|[n r] rest IH];
    intros updates w h rs ts Hrun.
  - cbn in Hrun. inversion Hrun; subst. split; [|eauto].
    intros out [= <-]. exists []. rewrite app_nil_r. split; [done|constructor].
  - cbn [send_rows] in Hrun.
    destruct (send_row c n r w h) as [r1 t1] eqn:Hrow.
    pose proof Hrow as Hcase. rewrite send_row_cases, Hdry in Hcase.
    destruct (safe_get r (idx_number c)) as [number|e|] eqn:Hn.
    2: { inversion Hcase; subst.
         rewrite (bind_Raise _ _ _ _ _ _ Hrow) in Hrun.
         inversion Hrun; subst. split; [discriminate|].
         intros Hin _. destruct (safe_get_returns r _ Hin) as [x Hx].
         rewrite Hx in Hn. discriminate Hn. }
    2: { now destruct (safe_get_fuel r (idx_number c)). }
    destruct (safe_get r (idx_message c)) as [message|e|] eqn:Hm.
    2: { inversion Hcase; subst.
         rewrite (bind_Raise _ _ _ _ _ _ Hrow) in Hrun.
         inversion Hrun; subst. split; [discriminate|].
         intros _ Him. destruct (safe_get_returns r _ Him) as [x Hx].
         rewrite Hx in Hm. discriminate Hm. }
    2: { now destruct (safe_get_fuel r (idx_message c)). }
    assert (Hu : exists u, r1 = Return u /\ dry_row c (n, r) u).
    { destruct (String.eqb number "" || String.eqb message "") eqn:Hmiss;
        inversion Hcase; subst; eexists; (split; [reflexivity|]);
        exists number, message, (clock w h); cbn [fst snd];
        rewrite Hmiss; auto. }
    destruct Hu as (u & -> & Hu).
    rewrite (bind_Return _ _ _ _ _ _ Hrow) in Hrun.
    destruct (send_rows c rest (updates ++ [u]) w (h ++ t1)) as [r2 t2] eqn:Hrec.
    inversion Hrun; subst. destruct (IH _ _ _ _ _ Hrec) as [Hout Hret].
    split; [|exact Hret].
    intros out Ho. destruct (Hout out Ho) as (news & -> & Hnews).
    exists (u :: news). rewrite <- app_assoc. split; [reflexivity|].
    now constructor.
Qed.

Lemma flush_groups_accepted groups :
  forall (w : world) h,
    (forall h' group, sheet w h' group = None) ->
    exists t, flush_groups groups w h = (Return tt, t).
Proof.
  induction groups as [|g groups IH]; intros w h Hw; [cbn; unfold ret; eauto|].
  cbn [flush_groups].
  pose proof (SmsFacts.batch_update_run g w h) as Hb. rewrite Hw in Hb.
  rewrite (bind_Return _ _ _ _ _ _ Hb).
  destruct (IH w (h ++ [EBatchUpdate g None]) Hw) as [t ->]. eauto.
Qed.

Lemma flush_accepted updates (w : world) h :
  (forall h' group, sheet w h' group = None) ->
  exists t, flush updates w h = (Return tt, t).
Proof.
  intros Hw. destruct (SmsFacts.chunk_100 updates) as (groups & Hchunk & _).
  rewrite (SmsFacts.flush_unfold _ _ _ _ Hchunk).
  now apply flush_groups_accepted.
Qed.

Lemma flush_returned updates (w : world) h x t :
  flush updates w h = (Return x, t) -> flushed t = updates.
Proof.
  destruct (SmsFacts.chunk_100 updates) as (groups & Hchunk & Hcat & _).
  rewrite (SmsFacts.flush_unfold _ _ _ _ Hchunk). intros Hrun.
  destruct (SmsFacts.flush_groups_run _ _ _ _ _ Hrun) as [_ [Hg _]].
  now rewrite SmsFacts.flushed_concat, Hg.
Qed.

(** X19. In a dry run [client.messages.create] is never called and
    nothing sleeps; the updates are written to the sheet all the same.
    What reaches the sheet is, for the rows taken for this run and in
    their order, the mark of a dry run: SENT with the SID DRYRUN, or
    FAILED for a missing number or message. The marks of a first part of
    these rows are written in any case, those of all of them when the run
    returns, and it returns 0 whenever the sheet accepts the updates and
    the column indexes are not negative. *)
Theorem dry_run_writes c all_values idx (w : world) h r t :
  DRY_RUN c = true ->
  main_from_values c all_values idx w h = (r, t) ->
  create_count t = 0%nat /\ naps t = [] /\ Forall dry_mark (flushed t)
  /\ forall targets,
       rows_to_send all_values idx = Return targets ->
       let to_send := slice_to targets (DAILY_LIMIT c) in
       (exists n, Forall2 (dry_row c) (take n to_send) (flushed t))
       /\ (forall z, r = Return z -> Forall2 (dry_row c) to_send (flushed t))
       /\ ((forall i, idx_number c = Some i -> 0 <= i) ->
           (forall i, idx_message c = Some i -> 0 <= i) ->
           (forall h' group, sheet w h' group = None) ->
           r = Return 0 /\ Forall2 (dry_row c) to_send (flushed t)).
Proof.
  intros Hdry. rewrite main_run.
  destruct (rows_to_send all_values idx) as [[|p targets]|e|].
  2: { cbn zeta.
       destruct (send_rows c (slice_to (p :: targets) (DAILY_LIMIT c)) [] w h)
         as [rs ts] eqn:Hs.
       destruct (send_rows_run _ _ _ _ _ _ _ Hs) as (_ & _ & _ & Hq & _ & Hd).
       destruct (Hd Hdry) as (Hc & Hn & Hout).
       destruct (send_rows_dry c _ Hdry _ _ _ _ _ Hs) as [Hrows Hret].
       cbn [fst snd]. destruct rs as [updates|e|].
       - destruct (flush updates w (h ++ ts)) as [rf tf] eqn:Hf. cbn [fst snd].
         destruct (flush_run _ _ _ _ _ Hf) as (Hfl & _ & [m Hm] & _).
         destruct (flush_only _ Hfl) as (Hc2 & _ & Hn2).
         destruct (Hout updates eq_refl) as (news & Hnews & Hmarks).
         destruct (Hrows updates eq_refl) as (news' & Hnews' & Hdryrows).
         cbn [app] in Hnews, Hnews'. subst news news'.
         intros [= <- <-].
         rewrite create_count_app, naps_app, flushed_app, (flushed_none ts Hq).
         rewrite Hc, Hc2, Hn, Hn2. cbn [app].
         repeat apply conj; auto.
         { rewrite Hm. now apply Forall_take. }
         intros targets' [= <-]. cbn zeta. repeat apply conj.
         + exists m. rewrite Hm. now apply Forall2_take.
         + intros z Hz. destruct rf as [x|e|]; try discriminate Hz.
           now rewrite (flush_returned _ _ _ _ _ Hf).
         + intros _ _ Hw. destruct (flush_accepted updates w (h ++ ts) Hw)
             as [tf' Hf']. rewrite Hf' in Hf. inversion Hf; subst.
           split; [reflexivity|]. now rewrite (flush_returned _ _ _ _ _ Hf').
       - intros [= <- <-]. rewrite (flushed_none ts Hq).
         repeat apply conj; auto.
         intros targets' [= <-]. cbn zeta. repeat apply conj.
         + exists 0%nat. rewrite take_0. constructor.
         + discriminate.
         + intros Hi Hj _. destruct (Hret Hi Hj) as [out Ho]. discriminate Ho.
       - intros [= <- <-]. rewrite (flushed_none ts Hq).
         repeat apply conj; auto.
         intros targets' [= <-]. cbn zeta. repeat apply conj.
         + exists 0%nat. rewrite take_0. constructor.
         + discriminate.
         + intros Hi Hj _. destruct (Hret Hi Hj) as [out Ho]. discriminate Ho. }
  - intros [= <- <-]. cbn. repeat apply conj; auto.
    intros targets' [= <-]. unfold slice_to.
    destruct (0 <=? DAILY_LIMIT c); rewrite take_nil;
      (split; [exists 0%nat; constructor|]);
      (split; [intros; constructor|]);
      intros; (split; [reflexivity | constructor]).
  - intros [= <- <-]. cbn. repeat apply conj; auto. discriminate.
  - intros [= <- <-]. cbn. repeat apply conj; auto. discriminate.
Qed.

Lemma dry_run_writes_witness :
  let c := SendSamples.config_dry in
  let run := main_from_values c SmsSamples.sheet_after_run (Some 2)
               SendSamples.refuses [] in
  let to_send := [(3, SmsSamples.row_failed); (5, SmsSamples.row_new)] in
  create_count run.2 = 0%nat /\ naps run.2 = []
  /\ Forall dry_mark (flushed run.2)
  /\ run.1 = Return 0
  /\ Forall2 (dry_row c) to_send (flushed run.2).
Proof.
  intros c run to_send.
  destruct (dry_run_writes c SmsSamples.sheet_after_run (Some 2)
              SendSamples.refuses [] run.1 run.2 eq_refl
              (surjective_pairing run)) as (H1 & H2 & H3 & H4).
  split; [exact H1|]. split; [exact H2|]. split; [exact H3|].
  refine (proj2 (proj2 (H4 to_send _)) _ _ _).
  - vm_compute. reflexivity.
  - intros i [= <-]. lia.
  - intros i [= <-]. lia.
  - reflexivity.
Defined.

(** A dry run over the sheet after a first run marks the failed row and
    the new row SENT in the sheet. *)
Example dry_run_after_run :
  List.map (fun u => (update_row u, values u))
    (flushed
       (main_from_values SendSamples.config_dry SmsSamples.sheet_after_run
          (Some 2) SendSamples.refuses []).2)
  = [(3, ["SENT"; "2024-05-02T09:00:00"; "DRYRUN"; ""]);
     (5, ["SENT"; "2024-05-02T09:00:00"; "DRYRUN"; ""])].
Proof. vm_compute. reflexivity. Qed.

(** X20. A run creates no more messages than rows are pending and, for
    a cap that is not negative, no more than [DAILY_LIMIT]; it calls
    [client.messages.create] at most three times for each of them. *)
Theorem cap_bounds_messages c all_values idx targets (w : world) h r t :
  rows_to_send all_values idx = Return targets ->
  main_from_values c all_values idx w h = (r, t) ->
  (created_count t <= length targets)%nat
  /\ (create_count t <= 3 * length targets)%nat
  /\ r <> OutOfFuel
  /\ (0 <= DAILY_LIMIT c ->
      Z.of_nat (created_count t) <= DAILY_LIMIT c
      /\ Z.of_nat (create_count t) <= 3 * DAILY_LIMIT c).
Proof.
  intros Ht. rewrite main_run, Ht.
  destruct targets as [|p targets];
    [intros [= <- <-]; cbn; repeat apply conj; try lia; discriminate|].
  cbn zeta.
  destruct (slice_to_length (p :: targets) (DAILY_LIMIT c)) as [Hlen Hcap].
  destruct (send_rows c (slice_to (p :: targets) (DAILY_LIMIT c)) [] w h)
    as [rs ts] eqn:Hs.
  destruct (send_rows_run _ _ _ _ _ _ _ Hs) as (Hc & Hd & Hfuel & _).
  cbn [fst snd]. destruct rs as [updates|e|]; [| |now destruct Hfuel].
  - destruct (flush updates w (h ++ ts)) as [rf tf] eqn:Hf. cbn [fst snd].
    destruct (flush_run _ _ _ _ _ Hf) as (Hfl & Hfuel2 & _).
    destruct (flush_only _ Hfl) as (Hc2 & Hd2 & _).
    intros [= <- <-]. rewrite create_count_app, created_count_app, Hc2, Hd2.
    rewrite !Nat.add_0_r.
    split; [lia|]. split; [lia|]. split; [now destruct rf|].
    intros Hpos. specialize (Hcap Hpos). lia.
  - intros [= <- <-].
    split; [lia|]. split; [lia|]. split; [discriminate|].
    intros Hpos. specialize (Hcap Hpos). lia.
Qed.

Lemma cap_bounds_messages_witness :
  let run := main_from_values (SmsSamples.config_cap 3) SmsSamples.sheet_of_five
               (Some 2) SmsSamples.calm [] in
  (created_count run.2 <= 5)%nat
  /\ (create_count run.2 <= 3 * 5)%nat
  /\ run.1 <> OutOfFuel
  /\ (0 <= 3 ->
      Z.of_nat (created_count run.2) <= 3
      /\ Z.of_nat (create_count run.2) <= 3 * 3).
Proof.
  intros run.
  apply (cap_bounds_messages (SmsSamples.config_cap 3) SmsSamples.sheet_of_five
           (Some 2)
           (List.filter (fun p => pending (Some 2%nat) p.2)
              (numbered 2 (drop 1 SmsSamples.sheet_of_five)))
           SmsSamples.calm [] run.1 run.2);
    [apply (SmsFacts.rows_to_send_filter _ (Some 2%nat))
    | apply surjective_pairing].
Defined.

(** X21. A run sends first and writes afterwards: no event of sending
    follows a call of [ws.batch_update]. When [client.messages.create]
    raises an exception that is no [TwilioException], the run ends with
    that exception and nothing is written to the sheet, not even for the
    messages created before. *)
Theorem sends_before_writes c all_values idx (w : world) h r t :
  main_from_values c all_values idx w h = (r, t) ->
  exists ts tf,
    t = ts ++ tf
    /\ Forall (fun e => is_flush e = false) ts
    /\ Forall (fun e => is_flush e = true) tf
    /\ forall to from_ text x,
         In (ECreateMessage to from_ text (SmsOtherException x)) t ->
         r = Raise x /\ tf = [].
Proof.
  rewrite main_run.
  destruct (rows_to_send all_values idx) as [[|p targets]|e|];
    try (intros [= <- <-]; exists [], []; repeat apply conj; auto;
         intros; contradiction).
  cbn zeta.
  destruct (send_rows c (slice_to (p :: targets) (DAILY_LIMIT c)) [] w h)
    as [rs ts] eqn:Hs.
  destruct (send_rows_run _ _ _ _ _ _ _ Hs) as (_ & _ & _ & Hq & Hx & _).
  cbn [fst snd]. destruct rs as [updates|e|].
  - destruct (flush updates w (h ++ ts)) as [rf tf] eqn:Hf. cbn [fst snd].
    destruct (flush_run _ _ _ _ _ Hf) as (Hfl & _).
    intros [= <- <-]. exists ts, tf. repeat apply conj; auto.
    intros to from_ text x Hin. exfalso.
    apply List.in_app_or in Hin as [Hin|Hin].
    + specialize (Hx _ _ _ _ Hin). discriminate Hx.
    + rewrite Forall_forall in Hfl. apply list_elem_of_In in Hin.
      specialize (Hfl _ Hin). discriminate Hfl.
  - intros [= <- <-]. exists ts, []. rewrite app_nil_r.
    repeat apply conj; auto.
    intros to from_ text x Hin. specialize (Hx _ _ _ _ Hin).
    split; [now inversion Hx | reflexivity].
  - intros [= <- <-]. exists ts, []. rewrite app_nil_r.
    repeat apply conj; auto.
    intros to from_ text x Hin. specialize (Hx _ _ _ _ Hin). discriminate Hx.
Qed.

Lemma sends_before_writes_witness :
  let run := main_from_values (SmsSamples.config_cap 3) SmsSamples.sheet_of_five
               (Some 2) SendSamples.breaks_at_second [] in
  exists ts tf,
    run.2 = ts ++ tf
    /\ Forall (fun e => is_flush e = false) ts
    /\ Forall (fun e => is_flush e = true) tf
    /\ forall to from_ text x,
         In (ECreateMessage to from_ text (SmsOtherException x)) run.2 ->
         run.1 = Raise x /\ tf = [].
Proof.
  intros run.
  apply (sends_before_writes (SmsSamples.config_cap 3) SmsSamples.sheet_of_five
           (Some 2) SendSamples.breaks_at_second [] run.1 run.2).
  apply surjective_pairing.
Defined.

(** The connection breaks at the second message: the first message went
    out, the run ends with the exception, and no row is marked. *)
Example first_sent_not_marked :
  let run := main_from_values (SmsSamples.config_cap 3) SmsSamples.sheet_of_five
               (Some 2) SendSamples.breaks_at_second [] in
  run.1 = Raise SendSamples.broken_pipe
  /\ created_count run.2 = 1%nat
  /\ flushed run.2 = [].
Proof. vm_compute. auto. Qed.



(** *** [chunk] *)

Lemma py_range_lookup (step : nat) :
  (1 <= step)%nat ->
  forall fuel i stop (j : nat),
    (stop - i <= fuel)%nat ->
    py_range fuel i stop step !! j
    = if (i + j * step <? stop)%nat then Some (i + j * step)%nat else None.
Proof.
  intros Hstep. induction fuel as [|fuel IH]; intros i stop j Hfuel.
  - destruct (Nat.ltb_spec (i + j * step) stop); [lia | reflexivity].
  - cbn [py_range]. destruct (Nat.ltb_spec i stop) as [Hlt|Hge].
    + destruct j as [|j]; cbn [lookup list_lookup].
      * rewrite Nat.mul_0_l, Nat.add_0_r.
        destruct (Nat.ltb_spec i stop); [reflexivity | lia].
      * change ((i :: py_range fuel (i + step) stop step) !! S j)
          with (py_range fuel (i + step) stop step !! j).
        rewrite IH by lia.
        replace (i + step + j * step)%nat with (i + S j * step)%nat by lia.
        reflexivity.
    + destruct (Nat.ltb_spec (i + j * step) stop); [lia|].
      now destruct j.
Qed.

Lemma py_range_length (step : nat) :
  (1 <= step)%nat ->
  forall fuel i stop,
    (stop - i <= fuel)%nat ->
    Z.of_nat (length (py_range fuel i stop step))
    = (Z.max 0 (Z.of_nat stop - Z.of_nat i) + Z.of_nat step - 1)
      / Z.of_nat step.
Proof.
  intros Hstep. induction fuel as [|fuel IH]; intros i stop Hfuel.
  - cbn [py_range length]. replace (Z.max 0 (Z.of_nat stop - Z.of_nat i)) with 0 by lia.
    symmetry. apply Z.div_small. lia.
  - cbn [py_range]. destruct (Nat.ltb_spec i stop) as [Hlt|Hge].
    + cbn [length]. rewrite Nat2Z.inj_succ, IH by lia.
      rewrite Nat2Z.inj_add.
      destruct (Z.le_gt_cases (Z.of_nat i + Z.of_nat step) (Z.of_nat stop)).
      * rewrite !Z.max_r by lia.
        replace (Z.of_nat stop - Z.of_nat i + Z.of_nat step - 1)
          with (Z.of_nat stop - (Z.of_nat i + Z.of_nat step) + Z.of_nat step
                - 1 + 1 * Z.of_nat step) by lia.
        rewrite Z.div_add by lia. lia.
      * rewrite Z.max_l, (Z.max_r 0 (Z.of_nat stop - Z.of_nat i)) by lia.
        rewrite Z.div_small by lia.
        replace (Z.of_nat stop - Z.of_nat i + Z.of_nat step - 1)
          with (Z.of_nat stop - Z.of_nat i - 1 + 1 * Z.of_nat step) by lia.
        rewrite Z.div_add, Z.div_small by lia. lia.
    + cbn [length]. rewrite Z.max_l by lia.
      symmetry. apply Z.div_small. lia.
Qed.

(** X23. For a positive [n], [chunk(lst, n)] yields the list cut into
    consecutive groups: put together they give the list back, there are
    ceil(len/n) of them, and the group at position [j] holds
    min(n, len - j*n) elements, so that every group but the last holds
    exactly [n] and none is empty. *)
Theorem chunk_groups {A} (lst : list A) (n : Z) :
  0 < n ->
  exists groups,
    chunk lst n = Return groups
    /\ concat groups = lst
    /\ Z.of_nat (length groups) = (Z.of_nat (length lst) + n - 1) / n
    /\ forall (j : nat) g,
         groups !! j = Some g ->
         Z.of_nat (length g) = Z.min n (Z.of_nat (length lst) - Z.of_nat j * n)
         /\ 1 <= Z.of_nat (length g).
Proof.
  intros Hn. destruct n as [|p|p]; try lia. cbn [chunk].
  set (step := Pos.to_nat p).
  assert (Hstep : (1 <= step)%nat) by (subst step; lia).
  assert (Hp : Z.pos p = Z.of_nat step) by (subst step; lia).
  eexists. split; [reflexivity|].
  destruct (SmsFacts.py_range_groups lst step Hstep (length lst) 0
              ltac:(lia)) as [Hcat _].
  split; [now rewrite Hcat|]. split.
  - rewrite length_map, (py_range_length step Hstep) by lia.
    rewrite Hp. f_equal. lia.
  - intros j g Hj. rewrite list_lookup_fmap in Hj.
    rewrite (py_range_lookup step Hstep) in Hj by lia.
    destruct (Nat.ltb_spec (0 + j * step) (length lst)) as [Hlt|_];
      [|discriminate Hj].
    cbn in Hj. inversion Hj; subst g. unfold slice.
    rewrite length_take, length_drop, Hp. nia.
Qed.

Lemma chunk_groups_witness :
  exists groups,
    chunk SmsSamples.updates_150 100 = Return groups
    /\ concat groups = SmsSamples.updates_150
    /\ Z.of_nat (length groups)
       = (Z.of_nat (length SmsSamples.updates_150) + 100 - 1) / 100
    /\ forall (j : nat) g,
         groups !! j = Some g ->
         Z.of_nat (length g)
         = Z.min 100 (Z.of_nat (length SmsSamples.updates_150)
                      - Z.of_nat j * 100)
         /\ 1 <= Z.of_nat (length g).
Proof. apply (chunk_groups SmsSamples.updates_150 100). lia. Defined.

End SendFacts.

(** ** A provider entry that is no text *)
Module ProviderFacts.
Import EffFacts.
Import Py Eff Dialer Service.

Lemma dial_once_not_text src item (w : sdk) h :
  provider_is_text item = false ->
  exists e,
    dial_once src item w h = (Raise e, [EDialOnce item])
    /\ exc_type e = "AttributeError".
Proof.
  unfold provider_is_text. intros Hp. rewrite DialerFacts.dial_once_run.
  destruct (py_or (get item "provider") (PStr "twilio"));
    try discriminate Hp; eexists; split; reflexivity.
Qed.

Lemma dial_with_retries_not_text src item retries backoff (w : sdk) h :
  provider_is_text item = false -> 0 <= retries ->
  exists e,
    dial_with_retries src item retries backoff w h
    = (Raise e, [EDialOnce item])
    /\ exc_type e = "AttributeError".
Proof.
  intros Hp Hr. destruct (dial_once_not_text src item w h Hp) as (e & Hd & He).
  exists e. split; [|exact He]. unfold dial_with_retries.
  destruct (Z.to_nat (retries + 1)) as [|fuel] eqn:Hfuel; [lia|].
  cbn [retry_loop]. destruct (Z.leb_spec 0 retries); [|lia].
  now rewrite (bind_Raise _ _ _ _ _ _ Hd).
Qed.

Lemma batch_loop_not_text src n delay retries backoff (w : sdk) item rest :
  provider_is_text item = false -> 0 <= retries ->
  In item rest ->
  forall i results h r t,
    batch_loop src n delay retries backoff i rest results w h = (r, t) ->
    exists e, r = Raise e.
Proof.
  intros Hp Hr. induction rest as [|x rest IH]; intros Hin i results h r t Hrun;
    [contradiction|].
  rewrite DialerFacts.batch_loop_step in Hrun.
  destruct (dial_with_retries src x retries backoff w h)
    as [[res|e|] t1] eqn:Hd.
  - destruct Hin as [->|Hin].
    { destruct (dial_with_retries_not_text src item retries backoff w h Hp Hr)
        as (e & He & _). rewrite He in Hd. discriminate Hd. }
    cbn zeta in Hrun.
    destruct (PrimFloat.ltb 0 delay && (i <? n)).
    + destruct (sleep_error delay) as [e|]; [inversion Hrun; eauto|].
      destruct (batch_loop src n delay retries backoff (i + 1) rest _ w _)
        as [r2 t2] eqn:Hrec.
      inversion Hrun; subst. eapply IH; eauto.
    + destruct (batch_loop src n delay retries backoff (i + 1) rest _ w _)
        as [r2 t2] eqn:Hrec.
      inversion Hrun; subst. eapply IH; eauto.
  - inversion Hrun; eauto.
  - apply DialerFacts.dial_with_retries_run, DialerFacts.retry_run_fuel in Hd.
    now destruct Hd.
Qed.

(** X24. The [provider] entry is lower-cased before validation and outside
    the [try]: when it is truthy and no text, [dial_once] raises
    [AttributeError]. With [retries >= 0] the exception leaves
    [dial_with_retries] after that one attempt, without a retry or a
    sleep, so [api_call_single] answers with no body; and a batch that
    holds such an item ends with an exception and no summary, whatever the
    other items are. *)
Theorem provider_not_text_aborts src item retries backoff (w : sdk) h :
  provider_is_text item = false -> 0 <= retries ->
  (exists e,
      exc_type e = "AttributeError"
      /\ dial_with_retries src item retries backoff w h
         = (Raise e, [EDialOnce item])
      /\ api_call_single src item retries backoff w h
         = (Raise e, [EDialOnce item]))
  /\ forall items delay h' r t,
       In item items ->
       api_call_batch src items delay retries backoff w h' = (r, t) ->
       exists e, r = Raise e.
Proof.
  intros Hp Hr. split.
  - destruct (dial_with_retries_not_text src item retries backoff w h Hp Hr)
      as (e & Hd & He).
    exists e. repeat split; auto.
    unfold api_call_single. now rewrite (bind_Raise _ _ _ _ _ _ Hd).
  - intros items delay h' r t Hin Hrun. unfold api_call_batch in Hrun.
    destruct items as [|x items]; [contradiction|].
    destruct (batch_loop src (Z.of_nat (length (x :: items))) delay retries
                backoff 1 (x :: items) [] w h') as [rs ts] eqn:Hloop.
    destruct (batch_loop_not_text _ _ _ _ _ _ _ _ Hp Hr Hin _ _ _ _ _ Hloop)
      as [e ->].
    rewrite (bind_Raise _ _ _ _ _ _ Hloop) in Hrun. inversion Hrun; eauto.
Qed.

Lemma provider_not_text_aborts_witness :
  (exists e,
      exc_type e = "AttributeError"
      /\ dial_with_retries AppPy Samples.item_ok_provider_5 2 2%float
           Samples.answers [] = (Raise e, [EDialOnce Samples.item_ok_provider_5])
      /\ api_call_single AppPy Samples.item_ok_provider_5 2 2%float
           Samples.answers [] = (Raise e, [EDialOnce Samples.item_ok_provider_5]))
  /\ forall items delay h' r t,
       In Samples.item_ok_provider_5 items ->
       api_call_batch AppPy items delay 2 2%float Samples.answers h' = (r, t) ->
       exists e, r = Raise e.
Proof.
  apply (provider_not_text_aborts AppPy Samples.item_ok_provider_5 2 2%float
           Samples.answers []); [reflexivity | lia].
Defined.

End ProviderFacts.

(** ** The cap of a run and the pacing of a batch *)
Module RunFacts.
Import EffFacts.
Import Py.

(** *** The items of a batch, one by one *)




(** *** The rows of a run, one by one *)






(** The scenario of the design document: of 5 pending rows and a cap of 3,
    the rows 2, 3 and 4 are sent and marked and the run completes; a batch
    of 3 items with a delay of 1 second sleeps twice between items. *)
Example five_rows_cap_three :
  (SmsBlast.main_from_values (SmsSamples.config_cap 3) SmsSamples.sheet_of_five
     (Some 2) SmsSamples.calm []).1 = Return 0
  /\ List.map SmsBlast.update_row
       (SmsBlast.flushed
          (SmsBlast.main_from_values (SmsSamples.config_cap 3)
             SmsSamples.sheet_of_five (Some 2) SmsSamples.calm []).2)
     = [2; 3; 4]
  /\ List.filter Dialer.is_sleep
       (Dialer.api_call_batch Dialer.AppPy Samples.batch_of_three 1%float 2
          2%float Samples.answers []).2
     = [Dialer.ESleep Dialer.Pacing 1%float; Dialer.ESleep Dialer.Pacing 1%float].
Proof. repeat split; vm_compute; reflexivity. Qed.


End RunFacts.
